(** * SBI letter automation: customer classification and batch pipeline

    A shallow embedding of the backend of the letter automation system:
    - [backend/routes/customers.js]: the rule filter and [POST /analyze],
      the normalisation of the account key, [GET /], [GET /:accountNo]
      and [POST /upload],
    - [backend/middleware/validation.js]: the validation of the requests
      and of uploaded rows, [isValidEmail] and [isValidMobile],
    - [backend/services/ai-service.js]: the scoring service,
    - [backend/routes/letters.js]: [POST /generate] and
      [POST /bulk-generate],
    - [backend/routes/email.js]: [POST /send] and [POST /bulk-send],
    the properties C1 to C10 of the specification that speak about
    them, and further properties read off the code, numbered from X1.

    JavaScript values are modelled as far as the code looks at them:
    scalars with their truthiness, records as property lists, numbers by
    the rationals they denote, text in the ASCII range (see [Text]).  The parsers of the runtime are an
    interface ([Builtins]); the collaborators (mailer, template and PDF
    renderers, scoring model) are functions on an abstract state of the
    outside world that return or throw.

    Part I holds the definitions, Part II the lemmas and theorems. *)

From Stdlib Require Import ZArith QArith Qround String Ascii List Bool Arith Lia.
From Stdlib Require Import DecimalString.
Import ListNotations.

Local Open Scope string_scope.
Local Open Scope Z_scope.

(* ===================================================================== *)
(** * Part I. Definitions *)
(* ===================================================================== *)

(** ** JavaScript values *)

Module Js.

(** A JavaScript number.  A finite double is represented by the rational
    it denotes, so every comparison between numbers is exact; the
    definitions below only compare numbers and test them for zero, they
    never add or multiply them. *)
Inductive num : Type :=
| NaN
| NegInf
| Fin (q : Q)
| PosInf.

(** [a <= b] on numbers; any comparison with [NaN] is false. *)
Definition leb (a b : num) : bool :=
  match a, b with
  | NaN, _ | _, NaN => false
  | NegInf, _ => true
  | _, PosInf => true
  | Fin x, Fin y => Qle_bool x y
  | _, _ => false
  end.

(** [a < b] on numbers. *)
Definition ltb (a b : num) : bool :=
  match a, b with
  | NaN, _ | _, NaN => false
  | _, _ => negb (leb b a)
  end.

(** [a >= b] and [a > b]. *)
Definition geb (a b : num) : bool := leb b a.
Definition gtb (a b : num) : bool := ltb b a.

(** The number an integer denotes. *)
Definition int (z : Z) : num := Fin (inject_Z z).

(** ToBoolean on a number: [0], [-0] and [NaN] are falsy. *)
Definition num_truthy (n : num) : bool :=
  match n with
  | NaN => false
  | Fin q => negb (Qeq_bool q 0)
  | NegInf | PosInf => true
  end.

(** [n || d] where both sides are numbers. *)
Definition num_or (n d : num) : num := if num_truthy n then n else d.

(** The scalar values a field of a record parsed from JSON or from a
    spreadsheet row can hold. *)
Inductive value : Type :=
| VNull
| VBool (b : bool)
| VNum (n : num)
| VStr (s : string).

(** The result of a property read: [None] is [undefined]. *)
Definition field : Type := option value.

(** ToBoolean. *)
Definition truthy (v : field) : bool :=
  match v with
  | None | Some VNull => false
  | Some (VBool b) => b
  | Some (VNum n) => num_truthy n
  | Some (VStr s) => negb (String.eqb s "")
  end.

(** [a || b]. *)
Definition or_else (a b : field) : field := if truthy a then a else b.

End Js.

Notation "a <||> b" := (Js.or_else a b) (at level 51, left associativity).

(** ** Strings

    A string is a sequence of bytes (UTF-8).  Case folding acts on the
    ASCII letters, which is what [toLowerCase] and the [i] flag of a
    regular expression do on ASCII text; no other character folds to a
    letter of the words the rules compare with. *)

Module Str.

Definition is_upper (c : ascii) : bool :=
  (65 <=? nat_of_ascii c)%nat && (nat_of_ascii c <=? 90)%nat.

Definition lower_char (c : ascii) : ascii :=
  if is_upper c then ascii_of_nat (nat_of_ascii c + 32) else c.

(** [s.toLowerCase()] on ASCII text: the letters A to Z are folded, any
    other character is left as it is. *)
Fixpoint toLowerCase (s : string) : string :=
  match s with
  | EmptyString => EmptyString
  | String c r => String (lower_char c) (toLowerCase r)
  end.

(** [s.startsWith(p)] *)
Fixpoint startsWith (p s : string) : bool :=
  match p, s with
  | EmptyString, _ => true
  | String a p', String b s' => Ascii.eqb a b && startsWith p' s'
  | String _ _, EmptyString => false
  end.

(** What follows [p] in [s], when [s] starts with [p]. *)
Fixpoint dropPrefix (p s : string) : option string :=
  match p, s with
  | EmptyString, _ => Some s
  | String a p', String b s' => if Ascii.eqb a b then dropPrefix p' s' else None
  | String _ _, EmptyString => None
  end.

(** [s.includes(p)] *)
Fixpoint includes (p s : string) : bool :=
  startsWith p s ||
  match s with
  | EmptyString => false
  | String _ s' => includes p s'
  end.

(** The characters of the class [[_\s-]] in the ASCII range. *)
Definition is_sep (c : ascii) : bool :=
  let n := nat_of_ascii c in
  (n =? 95)%nat || (n =? 45)%nat || (n =? 32)%nat ||
  ((9 <=? n)%nat && (n <=? 13)%nat).

(** Drops the longest prefix made of separators. *)
Fixpoint skip_sep (s : string) : string :=
  match s with
  | String c r => if is_sep c then skip_sep r else s
  | EmptyString => s
  end.

End Str.

(** ** Platform functions

    The parsers and printers of the JavaScript runtime are taken as an
    interface: the rules are stated for whatever these functions answer.
    [Node.builtins] below is an instance to run the definitions with. *)

Class Builtins : Type := {
  (** [parseFloat] on a string *)
  parseFloat_str : string -> Js.num;
  (** [parseInt(s, 10)] on a string *)
  parseInt_str : string -> Js.num;
  (** ToNumber on a string *)
  toNumber_str : string -> Js.num;
  (** ToString on a number *)
  numberToString : Js.num -> string;
  (** [Date.parse]: milliseconds since the epoch, [None] for [NaN] *)
  dateParse : string -> option Z
}.

Section Platform.

Context {B : Builtins}.

(** [String(v)] *)
Definition String_ (v : Js.field) : string :=
  match v with
  | None => "undefined"
  | Some Js.VNull => "null"
  | Some (Js.VBool true) => "true"
  | Some (Js.VBool false) => "false"
  | Some (Js.VNum n) => numberToString n
  | Some (Js.VStr s) => s
  end.

(** [parseFloat(v)].  The argument is converted to a string first; a
    number prints as a numeral that reads back as the same number. *)
Definition parseFloat (v : Js.field) : Js.num :=
  match v with
  | Some (Js.VNum n) => n
  | _ => parseFloat_str (String_ v)
  end.

(** An integer below [10^21] in absolute value, which prints as its
    decimal digits. *)
Definition printsAsInteger (n : Js.num) : option Z :=
  match n with
  | Js.Fin q =>
      if Qeq_bool (inject_Z (Qfloor q)) q && (Z.abs (Qfloor q) <? 10 ^ 21)
      then Some (Qfloor q) else None
  | _ => None
  end.

(** [parseInt(v, 10)].  The argument is converted to a string first; the
    digits of an integer read back as that integer. *)
Definition parseInt (v : Js.field) : Js.num :=
  match v with
  | Some (Js.VNum n) =>
      match printsAsInteger n with
      | Some z => Js.int z
      | None => parseInt_str (numberToString n)
      end
  | _ => parseInt_str (String_ v)
  end.

(** ToNumber *)
Definition toNumber (v : Js.field) : Js.num :=
  match v with
  | None => Js.NaN
  | Some Js.VNull => Js.int 0
  | Some (Js.VBool true) => Js.int 1
  | Some (Js.VBool false) => Js.int 0
  | Some (Js.VNum n) => n
  | Some (Js.VStr s) => toNumber_str s
  end.

(** Rounds a rational towards zero. *)
Definition Qtruncate (q : Q) : Z :=
  if Qle_bool 0 q then Qfloor q else Qceiling q.

(** The largest time value of a [Date], in milliseconds. *)
Definition maxTime : Z := 8640000000000000.

(** TimeClip on a number. *)
Definition timeClip (n : Js.num) : option Z :=
  match n with
  | Js.Fin q =>
      let t := Qtruncate q in
      if Z.abs t <=? maxTime then Some t else None
  | _ => None
  end.

(** [new Date(v).getTime()]: [None] is the time value [NaN] of an
    invalid date. *)
Definition newDate (v : Js.field) : option Z :=
  match v with
  | Some (Js.VStr s) => dateParse s
  | _ => timeClip (toNumber v)
  end.

(** [a >= b] on values: two strings compare as strings, anything else
    as numbers. *)
Definition value_geb (a b : Js.field) : bool :=
  match a, b with
  | Some (Js.VStr x), Some (Js.VStr y) =>
      match String.compare x y with Lt => false | _ => true end
  | _, _ => Js.geb (toNumber a) (toNumber b)
  end.

End Platform.

(** ** Customer records *)

(** A record is the list of its own properties, in the order of
    [Object.keys]. *)
Definition Customer : Type := list (string * Js.value).

(** [customer.k] *)
Fixpoint get (c : Customer) (k : string) : Js.field :=
  match c with
  | [] => None
  | (k', v) :: r => if String.eqb k k' then Some v else get r k
  end.

(** [Object.keys(c)] *)
Definition keys (c : Customer) : list string := map fst c.

(** [delete c.k] *)
Fixpoint remove (c : Customer) (k : string) : Customer :=
  match c with
  | [] => []
  | (k', v) :: r => if String.eqb k k' then remove r k else (k', v) :: remove r k
  end.

(** [c.k = v] on a copy: an existing property keeps its position, a new
    one goes last. *)
Fixpoint assign (c : Customer) (k : string) (v : Js.value) : Customer :=
  match c with
  | [] => [(k, v)]
  | (k', v') :: r =>
      if String.eqb k k' then (k, v) :: r else (k', v') :: assign r k v
  end.

(** [{...c, k: v}] where [v] may be [undefined]: a property holding
    [undefined] reads like a missing one and is dropped by
    [JSON.stringify], so it is represented by its absence. *)
Definition set (c : Customer) (k : string) (v : Js.field) : Customer :=
  match v with
  | Some x => assign c k x
  | None => remove c k
  end.

(** A string used as a condition: the empty string is falsy. *)
Definition nonEmpty (s : string) : bool := negb (String.eqb s "").

(** The double that the literal [0.7] denotes. *)
Definition lit_0_7 : Js.num := Js.Fin (3152519739159347 # 4503599627370496).

(** The double that the literal [0.8] denotes. *)
Definition lit_0_8 : Js.num := Js.Fin (3602879701896397 # 4503599627370496).

(** ** The five issue types ([backend/middleware/validation.js]) *)

Definition issueTypes : list string :=
  ["account_closure"; "kyc_update"; "loan_default"; "fee_waiver";
   "document_expiry"].

Definition validIssueType (t : string) : bool :=
  existsb (String.eqb t) issueTypes.

(** ** Effects

    A call to a collaborator may change the outside world (a message is
    sent, a quota is used up) and either returns or throws; what it does
    on one call may differ from what it does on the next.  [W] is the
    state of the outside world, and a thrown exception keeps the state
    reached. *)

Record Error : Type := {
  name : string;
  message : string;
  code : option string
}.

Inductive Result (A : Type) : Type :=
| Ret (a : A)
| Throw (e : Error).

Arguments Ret {A} a.
Arguments Throw {A} e.

Definition M (W A : Type) : Type := W -> Result A * W.

(** [e && e.message ? e.message : String(e)]: an error whose message is
    empty prints as its name. *)
Definition errorText (e : Error) : string :=
  if nonEmpty (message e) then message e else name e.

(** The replies of an HTTP route. *)
Inductive Response (A : Type) : Type :=
| Ok200 (body : A)
| ValidationFailed400 (path : string)
| Failed500.

Arguments Ok200 {A} body.
Arguments ValidationFailed400 {A} path.
Arguments Failed500 {A}.

(** A route handler catches what its body throws and always replies. *)
Definition Handler (W A : Type) : Type := W -> Response A * W.

(* --------------------------------------------------------------------- *)
(** ** [backend/routes/customers.js] *)
(* --------------------------------------------------------------------- *)

Module Customers.

(** *** Rule-based filtering *)

Definition msPerDay : Z := 1000 * 60 * 60 * 24.

Section Rules.

Context {B : Builtins}.

(** The time of the call in milliseconds since the epoch:
    [const currentDate = new Date()]. *)
Variable currentDate : Z.

(** [case 'account_closure'].  The difference of two time values and its
    quotient by the length of a day are computed on integers:
    [Math.floor] of the double quotient exceeds 90 exactly when the
    integer quotient does. *)
Definition daysSinceLastTransaction (customer : Customer) : Z :=
  let lastTxRaw :=
    get customer "LAST_TRANSACTION" <||> get customer "last_transaction"
      <||> get customer "lastTransaction" <||> Some Js.VNull in
  let lastTransaction :=
    if Js.truthy lastTxRaw then Some (newDate lastTxRaw) else None in
  match lastTransaction with
  | Some (Some t) => (currentDate - t) / msPerDay
  | _ => 9999
  end.

Definition accountBalance (customer : Customer) : Js.num :=
  Js.num_or
    (parseFloat (get customer "BALANCE" <||> get customer "balance"
                   <||> Some (Js.VNum (Js.int 0))))
    (Js.int 0).

Definition rule_account_closure (customer : Customer) : bool :=
  let bal := accountBalance customer in
  Js.leb bal (Js.int 100) || (90 <? daysSinceLastTransaction customer).

(** [/expired|pending/i.test(s)] *)
Definition re_expired_pending (s : string) : bool :=
  let l := Str.toLowerCase s in
  Str.includes "expired" l || Str.includes "pending" l.

(** [case 'kyc_update'] *)
Definition rule_kyc_update (customer : Customer) : bool :=
  let email := get customer "EMAIL" <||> get customer "email"
                 <||> Some (Js.VStr "") in
  let mobile := get customer "MOBILE" <||> get customer "mobile"
                  <||> Some (Js.VStr "") in
  let kyc := get customer "KYC_STATUS" <||> get customer "kyc_status"
               <||> get customer "kycStatus" <||> Some (Js.VStr "") in
  negb (Js.truthy email) || negb (Js.truthy mobile)
  || re_expired_pending (String_ (kyc <||> Some (Js.VStr ""))).

(** [case 'loan_default'] *)
Definition rule_loan_default (customer : Customer) : bool :=
  let outstanding :=
    Js.num_or
      (parseFloat (get customer "OUTSTANDING_AMOUNT"
                     <||> get customer "outstanding_amount"
                     <||> get customer "outstanding"
                     <||> Some (Js.VNum (Js.int 0))))
      (Js.int 0) in
  Js.gtb outstanding (Js.int 0).

(** [case 'fee_waiver'] *)
Definition rule_fee_waiver (customer : Customer) : bool :=
  let age :=
    Js.num_or
      (parseInt (get customer "AGE" <||> get customer "age"
                   <||> Some (Js.VNum (Js.int 0))))
      (Js.int 0) in
  let accType :=
    Str.toLowerCase
      (String_ (get customer "ACCOUNT_TYPE" <||> get customer "account_type"
                  <||> Some (Js.VStr ""))) in
  let custCat :=
    Str.toLowerCase
      (String_ (get customer "CUSTOMER_CATEGORY"
                  <||> get customer "customer_category"
                  <||> Some (Js.VStr ""))) in
  Js.gtb age (Js.int 60) || String.eqb accType "student"
  || Str.includes "senior" custCat.

(** [case 'document_expiry'] *)
Definition documentStatus (customer : Customer) : string :=
  Str.toLowerCase
    (String_ (get customer "DOC_STATUS" <||> get customer "doc_status"
                <||> get customer "docStatus" <||> Some (Js.VStr ""))).

Definition documentDays (customer : Customer) : Js.num :=
  Js.num_or
    (parseInt (get customer "DOC_EXPIRY_DAYS"
                 <||> get customer "doc_expiry_days"
                 <||> get customer "docExpiryDays"
                 <||> Some (Js.VNum (Js.int 9999))))
    (Js.int 9999).

Definition rule_document_expiry (customer : Customer) : bool :=
  let status := documentStatus customer in
  let days := documentDays customer in
  String.eqb status "expiring" || String.eqb status "expired"
  || Js.leb days (Js.int 60).

(** The body of the [filter] callback: the [switch] on the issue type.
    No case can throw on scalar field values, so the [catch] that
    answers [false] is never entered. *)
Definition matchesRule (issueType : string) (customer : Customer) : bool :=
  if String.eqb issueType "account_closure" then rule_account_closure customer
  else if String.eqb issueType "kyc_update" then rule_kyc_update customer
  else if String.eqb issueType "loan_default" then rule_loan_default customer
  else if String.eqb issueType "fee_waiver" then rule_fee_waiver customer
  else if String.eqb issueType "document_expiry"
       then rule_document_expiry customer
  else false.

Definition filterCustomersByRule (customers : list Customer)
    (issueType : string) : list Customer :=
  filter (matchesRule issueType) customers.

End Rules.

(** *** Account-number normalisation *)

(** Some suffix of [s] satisfies [f]: a pattern that is not anchored at
    the start may match from any position. *)
Fixpoint fromSomePosition (f : string -> bool) (s : string) : bool :=
  f s ||
  match s with
  | EmptyString => false
  | String _ r => fromSomePosition f r
  end.

(** [/account[_\s-]*no$|^accountno$|^account$/i.test(k)].  The letter
    after the separators is no separator, so the greedy star takes all of
    them. *)
Definition reAccountKey (k : string) : bool :=
  let s := Str.toLowerCase k in
  fromSomePosition
    (fun t => match Str.dropPrefix "account" t with
              | Some r => String.eqb (Str.skip_sep r) "no"
              | None => false
              end) s
  || String.eqb s "accountno" || String.eqb s "account".

(** [/acc(?:ount)?[_\s-]*no|accno|accountnumber/i.test(k)] *)
Definition reAltAccountKey (k : string) : bool :=
  let s := Str.toLowerCase k in
  fromSomePosition
    (fun t => match Str.dropPrefix "acc" t with
              | Some r =>
                  match Str.dropPrefix "ount" r with
                  | Some r' => Str.startsWith "no" (Str.skip_sep r')
                  | None => false
                  end
                  || Str.startsWith "no" (Str.skip_sep r)
              | None => false
              end) s
  || Str.includes "accno" s || Str.includes "accountnumber" s.

(** The key found, as a string. *)
Definition String_key (k : option string) : string :=
  match k with
  | Some s => s
  | None => "undefined"
  end.

(** The result of [keys.find(...)] used as a condition: [undefined] and
    the empty string are falsy. *)
Definition found (k : option string) : bool :=
  match k with
  | Some s => nonEmpty s
  | None => false
  end.

(** [obj[k]] for the result of [keys.find(...)] *)
Definition getFound (obj : Customer) (k : option string) : Js.field :=
  match k with
  | Some s => get obj s
  | None => get obj "undefined"
  end.

Definition normalizeAccountKey (obj : Customer) : Customer :=
  let ret := obj in
  let accountKey := find reAccountKey (keys obj) in
  if found accountKey && negb (String.eqb (String_key accountKey) "ACCOUNT_NO")
  then set ret "ACCOUNT_NO" (getFound obj accountKey)
  else if negb (Js.truthy (get ret "ACCOUNT_NO")) then
    let alt := find reAltAccountKey (keys obj) in
    if found alt then set ret "ACCOUNT_NO" (getFound obj alt) else ret
  else ret.

Definition getAccountValue (obj : Customer) : Js.field :=
  let normalized := normalizeAccountKey obj in
  get normalized "ACCOUNT_NO" <||> get normalized "account_no"
    <||> get normalized "accountNo" <||> get normalized "Account"
    <||> Some (Js.VStr "").

(** *** [POST /analyze] *)

(** The [options] object of an analysis request.  [otherOptions] holds
    the properties the validation schema does not name; the handler reads
    [minConfidence] there. *)
Record AnalysisOptions : Type := {
  useAI : option bool;
  aiProvider : option string;
  confidenceThreshold : option Js.num;
  maxResults : option Js.num;
  otherOptions : Customer
}.

(** [options = {}] *)
Definition noOptions : AnalysisOptions :=
  {| useAI := None; aiProvider := None; confidenceThreshold := None;
     maxResults := None; otherOptions := [] |}.

Record AnalysisRequest : Type := {
  customers : list Customer;
  issueType : string;
  options : option AnalysisOptions
}.

(** A number within [[lo, hi]]; [Joi.number()] refuses [NaN] and the
    infinities. *)
Definition numberBetween (lo hi : Z) (n : Js.num) : bool :=
  match n with
  | Js.Fin _ => Js.leb (Js.int lo) n && Js.leb n (Js.int hi)
  | _ => false
  end.

Definition optionHolds {A} (p : A -> bool) (o : option A) : bool :=
  match o with
  | Some a => p a
  | None => true
  end.

(** The schema of [options]: unknown properties are not allowed. *)
Definition validOptions (o : AnalysisOptions) : bool :=
  optionHolds (fun p => String.eqb p "gemini" || String.eqb p "openai")
    (aiProvider o)
  && optionHolds (numberBetween 0 1) (confidenceThreshold o)
  && optionHolds (numberBetween 1 1000) (maxResults o)
  && match otherOptions o with [] => true | _ :: _ => false end.

(** The defaults the schema fills in for a given [options] object. *)
Definition withDefaults (o : AnalysisOptions) : AnalysisOptions :=
  {| useAI := Some (match useAI o with Some b => b | None => false end);
     aiProvider :=
       Some (match aiProvider o with Some p => p | None => "gemini" end);
     confidenceThreshold :=
       Some (match confidenceThreshold o with
             | Some t => t
             | None => lit_0_7
             end);
     maxResults :=
       Some (match maxResults o with Some m => m | None => Js.int 100 end);
     otherOptions := otherOptions o |}.

(** [validateAnalysisRequest]: the body with the defaults filled in, or
    the first property that fails, in the order of the schema.  The
    request is typed, so what is left to check is the number of
    customers, the issue type and the options. *)
Definition validateAnalysisRequest (body : AnalysisRequest)
    : string + AnalysisRequest :=
  let n := Z.of_nat (length (customers body)) in
  if negb ((1 <=? n) && (n <=? 10000)) then inl "customers"
  else if negb (validIssueType (issueType body)) then inl "issueType"
  else match options body with
       | None =>
           inr {| customers := customers body; issueType := issueType body;
                  options := Some noOptions |}
       | Some o =>
           if validOptions o
           then inr {| customers := customers body;
                       issueType := issueType body;
                       options := Some (withDefaults o) |}
           else inl "options"
       end.

(** An entry of the [analysis] array the scoring service returns:
    [None] is [null], on which a property read throws; an object is the
    list of its properties, and a number, string or boolean reads like an
    object without properties. *)
Definition AiEntry : Type := option Customer.

(** What [aiService.analyzeCustomers] resolves to. *)
Inductive AiResponse : Type :=
| AiAnalysis (analysis : list AiEntry) (summary : option Customer)
    (** an object whose [analysis] is an array; [summary] is [None] when
        missing or falsy *)
| AiOther.
    (** any other value: falsy, or without an array under [analysis] *)

Record AnalysisResult : Type := {
  totalCustomers : nat;
  ruleBasedMatches : nat;
  finalMatches : nat;
  matched : list Customer;        (** [analysisResult.customers] *)
  confidence : string;
  aiEnhanced : bool;              (** [false] when the property is absent *)
  aiInsights : option Customer;
  aiError : option string
}.

(** [TypeError]: a property of [null] is read. *)
Definition typeErrorNull (property : string) : Error :=
  {| name := "TypeError";
     message := "Cannot read properties of null (reading '"
                  ++ property ++ "')";
     code := None |}.

Section Analyze.

Context {B : Builtins}.
Context {W : Type}.

(** [aiService.analyzeCustomers(customers, issueType)]; the service of
    the backend is [AiService.analyzeCustomers] below. *)
Variable analyzeCustomers : list Customer -> string -> M W AiResponse.

(** [process.env.GEMINI_API_KEY] is set. *)
Variable GEMINI_API_KEY : bool.

(** The time of the request. *)
Variable currentDate : Z.

(** The result before any scoring. *)
Definition ruleBasedResult (normalized ruleFiltered : list Customer)
    : AnalysisResult :=
  {| totalCustomers := length normalized;
     ruleBasedMatches := length ruleFiltered;
     finalMatches := length ruleFiltered;
     matched := ruleFiltered;
     confidence := "rule-based";
     aiEnhanced := false;
     aiInsights := None;
     aiError := None |}.

(** The [forEach] that fills [aiMap]: the most recent entry of a key is
    first in the list. *)
Fixpoint buildAiMap (analysis : list AiEntry)
    (aiMap : list (string * Customer)) : Result (list (string * Customer)) :=
  match analysis with
  | [] => Ret aiMap
  | None :: _ => Throw (typeErrorNull "account_no")
  | Some a :: rest =>
      let acct :=
        Str.toLowerCase
          (String_ (get a "account_no" <||> get a "ACCOUNT_NO"
                      <||> get a "accountNo" <||> Some (Js.VStr ""))) in
      buildAiMap rest (if nonEmpty acct then (acct, a) :: aiMap else aiMap)
  end.

(** [aiMap.get(k)] *)
Fixpoint mapGet (aiMap : list (string * Customer)) (k : string)
    : option Customer :=
  match aiMap with
  | [] => None
  | (k', a) :: r => if String.eqb k k' then Some a else mapGet r k
  end.

(** The callback of [ruleFiltered.map]. *)
Definition mergeAi (aiMap : list (string * Customer)) (customer : Customer)
    : Customer :=
  let acctVal :=
    Str.toLowerCase
      (String_ (getAccountValue customer <||> Some (Js.VStr ""))) in
  let aiMatch := mapGet aiMap acctVal in
  let pick (k : string) (ownKey : string) (fallback : Js.value) :=
    match aiMatch with
    | Some a => get a k
    | None => get customer ownKey <||> Some fallback
    end in
  set (set (set customer
              "aiConfidence" (pick "confidence" "aiConfidence" (Js.VNum lit_0_8)))
         "aiPriority" (pick "priority" "aiPriority" (Js.VStr "medium")))
    "aiReason" (pick "reason" "aiReason" (Js.VStr "Rule-based match")).

(** [options.minConfidence || 0.7] *)
Definition threshold (o : AnalysisOptions) : Js.field :=
  get (otherOptions o) "minConfidence" <||> Some (Js.VNum lit_0_7).

Definition aboveThreshold (o : AnalysisOptions) (c : Customer) : bool :=
  value_geb (get c "aiConfidence") (threshold o).

(** [analysisResult.aiError = ...] *)
Definition withAiError (r : AnalysisResult) (e : Error) : AnalysisResult :=
  {| totalCustomers := totalCustomers r;
     ruleBasedMatches := ruleBasedMatches r;
     finalMatches := finalMatches r;
     matched := matched r;
     confidence := confidence r;
     aiEnhanced := aiEnhanced r;
     aiInsights := aiInsights r;
     aiError := Some (errorText e) |}.

(** The handler of [POST /analyze], after validation.  The reply keeps
    the analysis; the insights, the recommendations and the times that
    go with it are computed from it afterwards and change nothing in
    it. *)
Definition analyzeHandler (body : AnalysisRequest)
    : Handler W AnalysisResult :=
  fun w =>
    let o := match options body with Some o => o | None => noOptions end in
    let normalized := map normalizeAccountKey (customers body) in
    let ruleFiltered :=
      filterCustomersByRule currentDate normalized (issueType body) in
    let analysisResult := ruleBasedResult normalized ruleFiltered in
    let useAI :=
      match useAI o with Some b => b | None => false end && GEMINI_API_KEY in
    if useAI && (0 <? length ruleFiltered)%nat then
      let toAnalyze := firstn 100 ruleFiltered in
      match analyzeCustomers toAnalyze (issueType body) w with
      | (Ret (AiAnalysis analysis summary), w') =>
          let enhanced :=
            {| totalCustomers := totalCustomers analysisResult;
               ruleBasedMatches := ruleBasedMatches analysisResult;
               finalMatches := finalMatches analysisResult;
               matched := matched analysisResult;
               confidence := confidence analysisResult;
               aiEnhanced := true;
               aiInsights :=
                 Some (match summary with Some s => s | None => [] end);
               aiError := aiError analysisResult |} in
          match buildAiMap analysis [] with
          | Ret aiMap =>
              let merged := map (mergeAi aiMap) ruleFiltered in
              (Ok200
                 {| totalCustomers := totalCustomers enhanced;
                    ruleBasedMatches := ruleBasedMatches enhanced;
                    finalMatches := length (filter (aboveThreshold o) merged);
                    matched := merged;
                    confidence := "ai-enhanced";
                    aiEnhanced := aiEnhanced enhanced;
                    aiInsights := aiInsights enhanced;
                    aiError := aiError enhanced |}, w')
          | Throw aiError => (Ok200 (withAiError enhanced aiError), w')
          end
      | (Ret AiOther, w') => (Ok200 analysisResult, w')
      | (Throw aiError, w') => (Ok200 (withAiError analysisResult aiError), w')
      end
    else (Ok200 analysisResult, w).

(** The parts of the handler by name: the options read, the matches of
    the rules, and whether the scoring service is called. *)
Definition optionsOf (body : AnalysisRequest) : AnalysisOptions :=
  match options body with
  | Some o => o
  | None => noOptions
  end.

Definition normalizedOf (body : AnalysisRequest) : list Customer :=
  map normalizeAccountKey (customers body).

Definition ruleFilteredOf (body : AnalysisRequest) : list Customer :=
  filterCustomersByRule currentDate (normalizedOf body) (issueType body).

Definition scoringCalled (body : AnalysisRequest) : bool :=
  match useAI (optionsOf body) with Some b => b | None => false end
  && GEMINI_API_KEY
  && (0 <? length (ruleFilteredOf body))%nat.

(** What the scoring service answers to the handler. *)
Definition scoring (body : AnalysisRequest) (w : W) : Result AiResponse * W :=
  analyzeCustomers (firstn 100 (ruleFilteredOf body)) (issueType body) w.

(** The route: [validateAnalysisRequest], then the handler. *)
Definition analyzeRoute (body : AnalysisRequest)
    : Handler W AnalysisResult :=
  match validateAnalysisRequest body with
  | inl path => fun w => (ValidationFailed400 path, w)
  | inr value => analyzeHandler value
  end.

End Analyze.

End Customers.

(* --------------------------------------------------------------------- *)
(** ** [backend/services/ai-service.js] *)
(* --------------------------------------------------------------------- *)

Module AiService.

(** The prefix of [s] that ends at the last [c] in [s]. *)
Fixpoint upToLast (c : ascii) (s : string) : option string :=
  match s with
  | EmptyString => None
  | String a r =>
      match upToLast c r with
      | Some p => Some (String a p)
      | None => if Ascii.eqb a c then Some (String a EmptyString) else None
      end
  end.

(** [text.match(/\{[\s\S]*\}/)]: from the first opening brace to the
    last closing brace after it. *)
Fixpoint jsonMatch (text : string) : option string :=
  match text with
  | EmptyString => None
  | String a r =>
      if Ascii.eqb a "{" then
        match upToLast "}" r with
        | Some p => Some (String a p)
        | None => None
        end
      else jsonMatch r
  end.

Definition notConfigured : Error :=
  {| name := "Error";
     message := "Gemini API not configured. Please set GEMINI_API_KEY in environment variables.";
     code := None |}.

Definition invalidJson : Error :=
  {| name := "Error";
     message := "Invalid JSON response from AI";
     code := None |}.

(** [new Error(`AI analysis failed: ${error.message}`)] *)
Definition analysisFailed (error : Error) : Error :=
  {| name := "Error";
     message := "AI analysis failed: " ++ message error;
     code := None |}.

Section Service.

Context {W : Type}.

(** [this.model] is set: the key was there when the service started. *)
Variable modelConfigured : bool.

(** [this.createAnalysisPrompt(customers, issueType)]: the text sent to
    the model. *)
Variable createAnalysisPrompt : list Customer -> string -> string.

(** [this.model.generateContent(prompt)] up to [response.text()]: the
    text of the reply, or what the call throws. *)
Variable generateContent : string -> M W string.

(** [JSON.parse], as far as the handler reads the value it returns. *)
Variable JSON_parse : string -> Result Customers.AiResponse.

Definition analyzeCustomers (customers : list Customer) (issueType : string)
    : M W Customers.AiResponse :=
  fun w =>
    if negb modelConfigured then (Throw notConfigured, w)
    else
      let prompt := createAnalysisPrompt customers issueType in
      match generateContent prompt w with
      | (Ret text, w') =>
          match jsonMatch text with
          | Some json =>
              match JSON_parse json with
              | Ret value => (Ret value, w')
              | Throw error => (Throw (analysisFailed error), w')
              end
          | None => (Throw (analysisFailed invalidJson), w')
          end
      | (Throw error, w') => (Throw (analysisFailed error), w')
      end.

End Service.

End AiService.

(* --------------------------------------------------------------------- *)
(** ** Batch splitting ([POST /bulk-generate], [POST /bulk-send]) *)
(* --------------------------------------------------------------------- *)

Module Batch.

Section Split.

Context {A : Type}.

(** [l.slice(b, e)] for integers [b] and [e]: a negative index counts
    from the end, both are clamped to the length. *)
Definition slice (l : list A) (b e : Z) : list A :=
  let len := Z.of_nat (length l) in
  let k := if b <? 0 then Z.max (len + b) 0 else Z.min b len in
  let f := if e <? 0 then Z.max (len + e) 0 else Z.min e len in
  firstn (Z.to_nat (f - k)) (skipn (Z.to_nat k) l).

(** [for (let i = 0; i < customers.length; i += batchSize)
       batches.push(customers.slice(i, i + batchSize));]
    entered with the current [i] and [batches].  [fuel] bounds the number
    of iterations; [None] says it ran out. *)
Fixpoint splitLoop (fuel : nat) (customers : list A) (batchSize i : Z)
    (batches : list (list A)) : option (list (list A)) :=
  if i <? Z.of_nat (length customers) then
    match fuel with
    | O => None
    | S fuel' =>
        splitLoop fuel' customers batchSize (i + batchSize)
          (batches ++ [slice customers i (i + batchSize)])
    end
  else Some batches.

(** The loop from [i = 0] and no batch, with one iteration allowed for
    each customer. *)
Definition split (customers : list A) (batchSize : Z)
    : option (list (list A)) :=
  splitLoop (length customers) customers batchSize 0 [].

(** [options.batchSize || d] for an integer batch size. *)
Definition batchSizeOr (batchSize : option Z) (d : Z) : Z :=
  match batchSize with
  | Some n => if n =? 0 then d else n
  | None => d
  end.

End Split.

End Batch.

(* --------------------------------------------------------------------- *)
(** ** [backend/routes/letters.js] *)
(* --------------------------------------------------------------------- *)

Module Letters.

(** What [generateLetterContent] returns, as far as the routes read it. *)
Record LetterData : Type := {
  ld_subject : string;
  ld_content : string;
  ld_urgency : option string
}.

(** A [Buffer], by what is read from it: its base64 text and its
    length. *)
Record Buffer : Type := {
  base64 : string;
  size : nat
}.

(** An element of [letters].  The time of generation is left out. *)
Record LetterResult : Type := {
  customerId : Js.field;
  customerName : Js.field;
  subject : string;
  content : string;
  urgency : string;
  pdfBase64 : option string;
  pdfSize : option nat;
  pdfError : option string
}.

(** An element of [errors]. *)
Record LetterError : Type := {
  customer : Js.field;
  error : string
}.

Record Statistics : Type := {
  totalRequested : nat;
  successful : nat;
  failed : nat
}.

(** The reply of [POST /generate]; the processing time and the metadata
    are left out. *)
Record Reply : Type := {
  count : nat;
  letters : list LetterResult;
  errors : option (list LetterError);   (** [undefined] when there is none *)
  statistics : Statistics
}.

Record Options : Type := {
  generatePDF : option bool;
  batchSize : option Z
}.

Record Request : Type := {
  customers : list Customer;
  issueType : string;
  customMessage : string;
  options : Options
}.

Section Generate.

Context {W : Type}.

(** [generateLetterContent(customer, issueType, customMessage)] *)
Variable generateLetterContent : Customer -> string -> string -> M W LetterData.

(** [pdfService.generateLetterPDF(content, customer)] *)
Variable generateLetterPDF : string -> Customer -> M W Buffer.

Variable body : Request.

(** [letterResult], before any PDF. *)
Definition letterResult (customer : Customer) (i : nat)
    (letterData : LetterData) : LetterResult :=
  {| customerId := get customer "ACCOUNT_NO" <||> Some (Js.VNum (Js.int (Z.of_nat i)));
     customerName := get customer "NAME";
     subject := ld_subject letterData;
     content := ld_content letterData;
     urgency := match ld_urgency letterData with
                | Some u => if nonEmpty u then u else "medium"
                | None => "medium"
                end;
     pdfBase64 := None;
     pdfSize := None;
     pdfError := None |}.

Definition withPdf (r : LetterResult) (pdfBuffer : Buffer) : LetterResult :=
  {| customerId := customerId r; customerName := customerName r;
     subject := subject r; content := content r; urgency := urgency r;
     pdfBase64 := Some (base64 pdfBuffer);
     pdfSize := Some (size pdfBuffer);
     pdfError := pdfError r |}.

Definition withPdfError (r : LetterResult) (e : Error) : LetterResult :=
  {| customerId := customerId r; customerName := customerName r;
     subject := subject r; content := content r; urgency := urgency r;
     pdfBase64 := pdfBase64 r;
     pdfSize := pdfSize r;
     pdfError := Some (message e) |}.

Definition letterError (customer : Customer) (e : Error) : LetterError :=
  {| customer := get customer "ACCOUNT_NO" <||> get customer "NAME";
     error := message e |}.

Definition pdfRequested : bool :=
  match generatePDF (options body) with Some b => b | None => false end.

(** The loop over the customers, entered at index [i] with the letters
    and the errors collected so far. *)
Fixpoint generateLoop (cs : list Customer) (i : nat)
    (letters : list LetterResult) (errors : list LetterError)
    (w : W) : (list LetterResult * list LetterError) * W :=
  match cs with
  | [] => ((letters, errors), w)
  | customer :: rest =>
      match generateLetterContent customer (issueType body)
              (customMessage body) w with
      | (Ret letterData, w1) =>
          let r := letterResult customer i letterData in
          if pdfRequested then
            match generateLetterPDF (ld_content letterData) customer w1 with
            | (Ret pdfBuffer, w2) =>
                generateLoop rest (S i) (letters ++ [withPdf r pdfBuffer])
                  errors w2
            | (Throw pdfError, w2) =>
                generateLoop rest (S i) (letters ++ [withPdfError r pdfError])
                  errors w2
            end
          else generateLoop rest (S i) (letters ++ [r]) errors w1
      | (Throw e, w1) =>
          generateLoop rest (S i) letters (errors ++ [letterError customer e])
            w1
      end
  end.

(** What one turn of the loop produces for [customer]: a letter, or an
    error. *)
Definition step (customer : Customer) (i : nat) (w : W)
    : (LetterResult + LetterError) * W :=
  match generateLetterContent customer (issueType body)
          (customMessage body) w with
  | (Ret letterData, w1) =>
      let r := letterResult customer i letterData in
      if pdfRequested then
        match generateLetterPDF (ld_content letterData) customer w1 with
        | (Ret pdfBuffer, w2) => (inl (withPdf r pdfBuffer), w2)
        | (Throw pdfError, w2) => (inl (withPdfError r pdfError), w2)
        end
      else (inl r, w1)
  | (Throw e, w1) => (inr (letterError customer e), w1)
  end.

(** [letters] after one turn. *)
Definition pushLetter (letters : list LetterResult)
    (o : LetterResult + LetterError) :=
  match o with
  | inl r => (letters ++ [r])%list
  | inr _ => letters
  end.

(** [errors] after one turn. *)
Definition pushError (errors : list LetterError)
    (o : LetterResult + LetterError) :=
  match o with
  | inl _ => errors
  | inr e => (errors ++ [e])%list
  end.

(** [errors.length > 0 ? errors : undefined], read back as a list. *)
Definition errorList (errors : option (list LetterError)) : list LetterError :=
  match errors with
  | Some l => l
  | None => []
  end.

(** The handler of [POST /generate], after validation. *)
Definition generateHandler : Handler W Reply :=
  fun w =>
    let '((letters, errors), w') := generateLoop (customers body) 0 [] [] w in
    (Ok200
       {| count := length letters;
          letters := letters;
          errors := match errors with [] => None | _ :: _ => Some errors end;
          statistics :=
            {| totalRequested := length (customers body);
               successful := length letters;
               failed := length errors |} |}, w').

(** The batches of [POST /bulk-generate]. *)
Definition bulkBatches : option (list (list Customer)) :=
  Batch.split (customers body) (Batch.batchSizeOr (batchSize (options body)) 10).

End Generate.

End Letters.

(* --------------------------------------------------------------------- *)
(** ** [backend/routes/email.js] *)
(* --------------------------------------------------------------------- *)

Module Email.

Inductive Status : Type := sent | failed | skipped.

Definition Status_eqb (a b : Status) : bool :=
  match a, b with
  | sent, sent | failed, failed | skipped, skipped => true
  | _, _ => false
  end.

(** An element of [results].  The time of sending is left out. *)
Record EmailResult : Type := {
  customer : Js.field;
  email : Js.field;
  status : Status;
  reason : option string;
  error : option string;
  errorCode : option string
}.

Record Statistics : Type := {
  total : nat;
  sentCount : nat;       (** [stats.sent] *)
  failedCount : nat;     (** [stats.failed] *)
  skippedCount : nat     (** [stats.skipped] *)
}.

(** The reply of [POST /send]; the times and the summary computed from
    the statistics are left out. *)
Record Reply : Type := {
  statistics : Statistics;
  results : list EmailResult
}.

Record Options : Type := {
  delayMs : option Js.num;
  batchSize : option Z
}.

Record Request : Type := {
  customers : list Customer;
  subject : string;
  content : string;
  issueType : string;
  options : Options
}.

Section Send.

Context {W : Type}.

(** [emailService.sendLetter(customer, subject, content, issueType,
    options)]: it resolves, or throws an [Error] ("Email service not
    configured...", "Email delivery failed: ..."). *)
Variable sendLetter :
  Customer -> string -> string -> string -> Options -> M W unit.

(** [await new Promise(resolve => setTimeout(resolve, ms))]: time
    passes. *)
Variable delay : Js.num -> W -> W.

Variable body : Request.

(** [options.delayMs || 1000] *)
Definition delayBetweenEmails : Js.num :=
  match delayMs (options body) with
  | Some d => Js.num_or d (Js.int 1000)
  | None => Js.int 1000
  end.

Definition customerKey (customer : Customer) : Js.field :=
  get customer "ACCOUNT_NO" <||> get customer "NAME".

Definition skippedResult (customer : Customer) : EmailResult :=
  {| customer := customerKey customer;
     email := Some (Js.VStr "N/A");
     status := skipped;
     reason := Some "No email address provided";
     error := None;
     errorCode := None |}.

Definition sentResult (customer : Customer) : EmailResult :=
  {| customer := customerKey customer;
     email := get customer "EMAIL";
     status := sent;
     reason := None;
     error := None;
     errorCode := None |}.

Definition failedResult (customer : Customer) (emailError : Error)
    : EmailResult :=
  {| customer := customerKey customer;
     email := get customer "EMAIL";
     status := failed;
     reason := None;
     error := Some (message emailError);
     errorCode := Some (match code emailError with
                        | Some c => if nonEmpty c then c else "UNKNOWN"
                        | None => "UNKNOWN"
                        end) |}.

(** The loop over the customers, entered at index [i] with the results
    collected so far. *)
Fixpoint sendLoop (cs : list Customer) (i : nat) (results : list EmailResult)
    (w : W) : list EmailResult * W :=
  match cs with
  | [] => (results, w)
  | customer :: rest =>
      if negb (Js.truthy (get customer "EMAIL")) then
        sendLoop rest (S i) (results ++ [skippedResult customer]) w
      else
        let w0 := if (0 <? i)%nat then delay delayBetweenEmails w else w in
        match sendLetter customer (subject body) (content body)
                (issueType body) (options body) w0 with
        | (Ret _, w1) =>
            sendLoop rest (S i) (results ++ [sentResult customer]) w1
        | (Throw emailError, w1) =>
            sendLoop rest (S i) (results ++ [failedResult customer emailError])
              w1
        end
  end.

(** One call of the mailer for [customer], made from the world [w] at
    index [i] of the loop: the delay comes first, except at index 0. *)
Definition attempt (customer : Customer) (i : nat) (w : W) : Result unit * W :=
  sendLetter customer (subject body) (content body)
    (issueType body) (options body)
    (if (0 <? i)%nat then delay delayBetweenEmails w else w).

(** What the loop adds to [results] for one customer. *)
Definition outcome (customer : Customer) (i : nat) (w : W)
    : EmailResult * W :=
  if negb (Js.truthy (get customer "EMAIL")) then
    (skippedResult customer, w)
  else
    match attempt customer i w with
    | (Ret _, w1) => (sentResult customer, w1)
    | (Throw e, w1) => (failedResult customer e, w1)
    end.

(** [results.filter(r => r.status === s).length] *)
Definition countStatus (s : Status) (results : list EmailResult) : nat :=
  length (filter (fun r => Status_eqb (status r) s) results).

(** The handler of [POST /send], after validation. *)
Definition sendHandler : Handler W Reply :=
  fun w =>
    let '(results, w') := sendLoop (customers body) 0 [] w in
    (Ok200
       {| statistics :=
            {| total := length (customers body);
               sentCount := countStatus sent results;
               failedCount := countStatus failed results;
               skippedCount := countStatus skipped results |};
          results := results |}, w').

(** The batches of [POST /bulk-send]. *)
Definition bulkBatches : option (list (list Customer)) :=
  Batch.split (customers body) (Batch.batchSizeOr (batchSize (options body)) 5).

End Send.

End Email.

(* --------------------------------------------------------------------- *)
(** ** An instance of the platform functions *)
(* --------------------------------------------------------------------- *)

(** The platform functions on the inputs the examples below run on:
    decimal numerals, integers and short decimals printed back, and
    calendar dates written [YYYY-MM-DD].  Numbers are not rounded to the
    nearest double, hexadecimal numerals and the other date formats are
    not recognised. *)

Module Node.

Definition isDigit (c : ascii) : bool :=
  (48 <=? nat_of_ascii c)%nat && (nat_of_ascii c <=? 57)%nat.

Definition digitValue (c : ascii) : Z := Z.of_nat (nat_of_ascii c) - 48.

Definition isSpace (c : ascii) : bool :=
  let n := nat_of_ascii c in
  (n =? 32)%nat || ((9 <=? n)%nat && (n <=? 13)%nat).

Fixpoint trimStart (s : string) : string :=
  match s with
  | String c r => if isSpace c then trimStart r else s
  | EmptyString => s
  end.

(** Reads the longest run of digits: its value after [acc], how many
    digits were read after [n], and what follows. *)
Fixpoint digits (s : string) (acc : Z) (n : nat) : Z * nat * string :=
  match s with
  | String c r =>
      if isDigit c then digits r (10 * acc + digitValue c) (S n)
      else (acc, n, s)
  | EmptyString => (acc, n, s)
  end.

(** An optional sign. *)
Definition sign (s : string) : Z * string :=
  match s with
  | String "-" r => (-1, r)
  | String "+" r => (1, r)
  | _ => (1, s)
  end.

(** An optional exponent part; without digits there is none. *)
Definition exponent (s : string) : Z * string :=
  match s with
  | String c r =>
      if Ascii.eqb c "e" || Ascii.eqb c "E" then
        let (sg, r1) := sign r in
        let '(e, n, r2) := digits r1 0 0 in
        if (n =? 0)%nat then (0, s) else (sg * e, r2)
      else (0, s)
  | EmptyString => (0, s)
  end.

(** [m * 10^e] *)
Definition scale (m e : Z) : Q :=
  if 0 <=? e then inject_Z (m * 10 ^ e)
  else Qmake m (Z.to_pos (10 ^ (- e))).

(** The longest decimal literal [s] starts with, and what follows. *)
Definition decimalLiteral (s : string) : Js.num * string :=
  let (sg, s1) := sign s in
  if Str.startsWith "Infinity" s1 then
    ((if sg =? 1 then Js.PosInf else Js.NegInf),
     match Str.dropPrefix "Infinity" s1 with
     | Some r => r
     | None => s1
     end)
  else
    let '(ip, n1, r1) := digits s1 0 0 in
    let '(fp, n2, r2) :=
      match r1 with
      | String "." r => digits r 0 0
      | _ => (0, O, r1)
      end in
    if (n1 + n2 =? 0)%nat then (Js.NaN, s)
    else
      let (e, r3) := exponent r2 in
      (Js.Fin (scale (sg * (ip * 10 ^ Z.of_nat n2 + fp)) (e - Z.of_nat n2)), r3).

Definition parseFloat_str (s : string) : Js.num :=
  fst (decimalLiteral (trimStart s)).

Definition parseInt_str (s : string) : Js.num :=
  let (sg, s1) := sign (trimStart s) in
  let '(v, n, _) := digits s1 0 0 in
  if (n =? 0)%nat then Js.NaN else Js.int (sg * v).

Definition toNumber_str (s : string) : Js.num :=
  let t := trimStart s in
  match t with
  | EmptyString => Js.int 0
  | _ =>
      let (v, r) := decimalLiteral t in
      match trimStart r with
      | EmptyString => v
      | _ => Js.NaN
      end
  end.

(** The decimal digits of a natural number. *)
Definition natDigits (z : Z) : string :=
  NilZero.string_of_uint (N.to_uint (Z.to_N z)).

(** The digits of [r / d] after the decimal point, [fuel] of them at
    most. *)
Fixpoint fraction (fuel : nat) (r d : Z) : string :=
  match fuel with
  | O => EmptyString
  | S fuel' =>
      if r =? 0 then EmptyString
      else String (ascii_of_nat (Z.to_nat (10 * r / d) + 48))
             (fraction fuel' (10 * r mod d) d)
  end.

Definition numberToString (n : Js.num) : string :=
  match n with
  | Js.NaN => "NaN"
  | Js.PosInf => "Infinity"
  | Js.NegInf => "-Infinity"
  | Js.Fin q =>
      let d := Z.pos (Qden q) in
      let a := Z.abs (Qnum q) in
      let body :=
        natDigits (a / d) ++
        (if a mod d =? 0 then "" else "." ++ fraction 20 (a mod d) d) in
      if (Qnum q <? 0) then "-" ++ body else body
  end.

(** The number of days from 1970-01-01 to a date of the Gregorian
    calendar. *)
Definition daysFromCivil (y m d : Z) : Z :=
  let y' := if m <=? 2 then y - 1 else y in
  let era := y' / 400 in
  let yoe := y' - era * 400 in
  let doy := (153 * (if 2 <? m then m - 3 else m + 9) + 2) / 5 + d - 1 in
  let doe := yoe * 365 + yoe / 4 - yoe / 100 + doy in
  era * 146097 + doe - 719468.

Definition daysInMonth (y m : Z) : Z :=
  if m =? 2 then
    if ((y mod 4 =? 0) && negb (y mod 100 =? 0)) || (y mod 400 =? 0)
    then 29 else 28
  else if (m =? 4) || (m =? 6) || (m =? 9) || (m =? 11) then 30 else 31.

(** [Date.parse] on [YYYY-MM-DD]: midnight UTC of that day. *)
Definition dateParse (s : string) : option Z :=
  let '(y, n1, r1) := digits s 0 0 in
  match r1 with
  | String "-" r1' =>
      let '(m, n2, r2) := digits r1' 0 0 in
      match r2 with
      | String "-" r2' =>
          let '(d, n3, r3) := digits r2' 0 0 in
          if (n1 =? 4)%nat && (n2 =? 2)%nat && (n3 =? 2)%nat
             && String.eqb r3 ""
             && (1 <=? m) && (m <=? 12) && (1 <=? d) && (d <=? daysInMonth y m)
          then Some (daysFromCivil y m d * 86400000)
          else None
      | _ => None
      end
  | _ => None
  end.

#[export] Instance builtins : Builtins :=
  Build_Builtins parseFloat_str parseInt_str toNumber_str numberToString
    dateParse.

End Node.

(* --------------------------------------------------------------------- *)
(** ** The rules in the words of the specification *)
(* --------------------------------------------------------------------- *)

(** These definitions follow the specification, not the code; Part II
    compares them with [Customers.matchesRule]. *)

Module Spec.

Section Rules.

Context {B : Builtins}.

(** The current time, in milliseconds since the epoch. *)
Variable now : Z.

(** A field that is missing or empty. *)
Definition emptyOrMissing (v : Js.field) : Prop :=
  v = None \/ v = Some Js.VNull \/ v = Some (Js.VStr "").

(** The result of a parser, [d] when the text did not parse. *)
Definition parsedOr (d : Z) (n : Js.num) : Js.num :=
  match n with
  | Js.NaN => Js.int d
  | _ => n
  end.

(** The number a field parses to as a decimal, [0] when the field is
    missing or does not parse. *)
Definition parsedOrZero (v : Js.field) : Js.num :=
  match v with
  | None => Js.int 0
  | Some _ => parsedOr 0 (parseFloat v)
  end.

(** The integer a field parses to, [d] when the field is missing or does
    not parse. *)
Definition parsedIntOr (d : Z) (v : Js.field) : Js.num :=
  match v with
  | None => Js.int d
  | Some _ => parsedOr d (parseInt v)
  end.

(** The number of whole days from the date a field parses to until
    [now]; 9999 when the field is missing or does not parse. *)
Definition daysSince (v : Js.field) : Z :=
  match v with
  | None => 9999
  | Some _ =>
      match newDate v with
      | Some t => (now - t) / Customers.msPerDay
      | None => 9999
      end
  end.

(** [account_closure]: [BALANCE <= 100] or more than 90 days since
    [LAST_TRANSACTION]. *)
Definition account_closure (c : Customer) : Prop :=
  Js.leb (parsedOrZero (get c "BALANCE")) (Js.int 100) = true
  \/ 90 < daysSince (get c "LAST_TRANSACTION").

(** The first of the properties [ks] of [c] that holds a truthy value. *)
Fixpoint firstTruthy (c : Customer) (ks : list string) : Js.field :=
  match ks with
  | [] => None
  | k :: r => if Js.truthy (get c k) then get c k else firstTruthy c r
  end.

(** [account_closure] where the balance is the first truthy value among
    [BALANCE] and [balance], and the date the first truthy value among
    [LAST_TRANSACTION], [last_transaction] and [lastTransaction]. *)
Definition account_closure_aliases (c : Customer) : Prop :=
  Js.leb (parsedOrZero (firstTruthy c ["BALANCE"; "balance"])) (Js.int 100)
    = true
  \/ 90 < daysSince
            (firstTruthy c
               ["LAST_TRANSACTION"; "last_transaction"; "lastTransaction"]).

(** [kyc_update]: [EMAIL] empty or missing, or [MOBILE] empty or
    missing, or [KYC_STATUS] matches [/expired|pending/i], or
    [KYC_STATUS] empty or missing. *)
Definition kyc_update (c : Customer) : Prop :=
  emptyOrMissing (get c "EMAIL")
  \/ emptyOrMissing (get c "MOBILE")
  \/ Customers.re_expired_pending (String_ (get c "KYC_STATUS")) = true
  \/ emptyOrMissing (get c "KYC_STATUS").

(** [document_expiry]: [DOC_STATUS] is "expiring" or "expired" whatever
    the case of its letters, or [DAYS_TO_EXPIRY], parsed as an integer
    with default 9999, is at most 60. *)
Definition document_expiry (c : Customer) : Prop :=
  Str.toLowerCase (String_ (get c "DOC_STATUS")) = "expiring"
  \/ Str.toLowerCase (String_ (get c "DOC_STATUS")) = "expired"
  \/ Js.leb (parsedIntOr 9999 (get c "DAYS_TO_EXPIRY")) (Js.int 60) = true.

End Rules.

(** The scoring service throws: it is not configured, the call throws
    (a network error, a timeout), the reply holds no JSON object, or the
    object in it does not parse. *)
Definition scoringThrows (modelConfigured : bool) (reply : Result string)
    (JSON_parse : string -> Result Customers.AiResponse) : Prop :=
  modelConfigured = false
  \/ (exists e, reply = Throw e)
  \/ (exists text, reply = Ret text /\ AiService.jsonMatch text = None)
  \/ (exists text json e,
        reply = Ret text /\ AiService.jsonMatch text = Some json
        /\ JSON_parse json = Throw e).

(** What the scoring service hands to the handler cannot be merged: it
    throws, or it resolves to a value without an [analysis] array, or
    the array holds a [null]. *)
Definition replyUnusable (o : Result Customers.AiResponse) : Prop :=
  match o with
  | Throw _ => True
  | Ret Customers.AiOther => True
  | Ret (Customers.AiAnalysis analysis _) => In None analysis
  end.





End Spec.

(* --------------------------------------------------------------------- *)
(** ** Sample data *)
(* --------------------------------------------------------------------- *)

(** Customers, requests and collaborators to run the routes on. *)

Module Sample.

Definition str (s : string) : Js.value := Js.VStr s.
Definition number (z : Z) : Js.value := Js.VNum (Js.int z).

Definition amit : Customer :=
  [("NAME", str "Amit Sharma"); ("ACCOUNT_NO", str "SBIN0001001");
   ("BALANCE", number 12500); ("EMAIL", str "amit@example.com");
   ("MOBILE", str "9876543210"); ("AGE", number 35);
   ("KYC_STATUS", str "Verified")].

Definition sita : Customer :=
  [("NAME", str "Sita Rao"); ("ACCOUNT_NO", str "SBIN0001002");
   ("BALANCE", number 2500); ("EMAIL", str "sita@example.com");
   ("MOBILE", str "9876501234"); ("AGE", number 62);
   ("KYC_STATUS", str "Expired")].

Definition ramesh : Customer :=
  [("NAME", str "Ramesh Gupta"); ("ACCOUNT_NO", str "SBIN0001003");
   ("BALANCE", number (-500)); ("EMAIL", str "ramesh@example.com");
   ("MOBILE", str "9876512345"); ("AGE", number 45);
   ("KYC_STATUS", str "Pending")].

(** 2025-01-01T00:00:00Z *)
Definition newYear2025 : Z := 1735689600000.

(** The two customers of the scenario of the specification. *)
Definition a1 : Customer :=
  [("ACCOUNT_NO", str "A1"); ("BALANCE", number 0)].

Definition a2 : Customer :=
  [("ACCOUNT_NO", str "A2"); ("BALANCE", number 500);
   ("LAST_TRANSACTION", str "2024-01-01")].

(** A record that spells its balance in lower case; the last
    transaction was the day before [newYear2025]. *)
Definition lowerCaseBalance : Customer :=
  [("NAME", str "Kiran Rao"); ("ACCOUNT_NO", str "SBIN0001004");
   ("balance", number 500); ("LAST_TRANSACTION", str "2024-12-31")].

(** A record with an address and a mobile number, without a KYC
    status. *)
Definition noKycStatus : Customer :=
  [("NAME", str "Meera Nair"); ("ACCOUNT_NO", str "SBIN0001005");
   ("EMAIL", str "meera@example.com"); ("MOBILE", str "9876523456")].

(** A record whose document expires in 30 days, in the column the
    validation schema and the letter template name. *)
Definition expiresIn30Days : Customer :=
  [("NAME", str "Vikram Shah"); ("ACCOUNT_NO", str "SBIN0001006");
   ("DOC_STATUS", str "Valid"); ("DAYS_TO_EXPIRY", number 30)].

(** A record whose document expires today, in the column the filter
    reads. *)
Definition expiresToday : Customer :=
  [("NAME", str "Anita Das"); ("ACCOUNT_NO", str "SBIN0001007");
   ("DOC_STATUS", str "Valid"); ("DOC_EXPIRY_DAYS", number 0)].

(** The world of the sample collaborators: the number of calls made so
    far. *)
Definition Calls : Type := nat.

Definition deliveryFailed : Error :=
  {| name := "Error";
     message := "Email delivery failed: Connection timeout";
     code := None |}.

(** A mailer that throws on its second call. *)
Definition mailerDownOnce
    : Customer -> string -> string -> string -> Email.Options -> M Calls unit :=
  fun _ _ _ _ _ calls =>
    (if (calls =? 1)%nat then Throw deliveryFailed else Ret tt, S calls).

(** A timer that leaves the world as it is. *)
Definition noDelay : Js.num -> Calls -> Calls := fun _ calls => calls.

Definition emailRequest : Email.Request :=
  {| Email.customers := [amit; sita; ramesh];
     Email.subject := "";
     Email.content := "Please update your KYC documents.";
     Email.issueType := "kyc_update";
     Email.options := {| Email.delayMs := None; Email.batchSize := None |} |}.

Definition pdfFailed : Error :=
  {| name := "Error";
     message := "PDF generation failed: out of memory";
     code := None |}.

(** A template renderer that always returns. *)
Definition renderer : Customer -> string -> string -> M Calls Letters.LetterData :=
  fun customer issueType _ calls =>
    (Ret {| Letters.ld_subject := "Notice - " ++ issueType;
            Letters.ld_content :=
              match get customer "NAME" with
              | Some (Js.VStr n) => "Dear " ++ n
              | _ => "Dear Customer"
              end;
            Letters.ld_urgency := Some "high" |}, calls).

(** A PDF renderer that throws on its second call. *)
Definition pdfDownOnce : string -> Customer -> M Calls Letters.Buffer :=
  fun text _ calls =>
    (if (calls =? 1)%nat then Throw pdfFailed
     else Ret {| Letters.base64 := ""; Letters.size := String.length text |},
     S calls).

Definition letterRequest : Letters.Request :=
  {| Letters.customers := [amit; sita; ramesh];
     Letters.issueType := "kyc_update";
     Letters.customMessage := "";
     Letters.options :=
       {| Letters.generatePDF := Some true; Letters.batchSize := None |} |}.

Definition scoringFailed : Error :=
  {| name := "Error";
     message := "AI analysis failed: request timed out";
     code := None |}.

(** A scoring service that throws. *)
Definition scoringDown : list Customer -> string -> M Calls Customers.AiResponse :=
  fun _ _ calls => (Throw scoringFailed, S calls).

(** A scoring service that resolves to [{analysis: [null]}]. *)
Definition scoringNullEntry
    : list Customer -> string -> M Calls Customers.AiResponse :=
  fun _ _ calls => (Ret (Customers.AiAnalysis [None] None), S calls).

(** Two entries of an analysis: Sita at 0.5 and Ramesh at 0.9. *)
Definition twoScores : list Customers.AiEntry :=
  [Some [("account_no", str "sbin0001002");
         ("confidence", Js.VNum (Js.Fin (1 # 2)));
         ("priority", str "low");
         ("reason", str "KYC expired recently")];
   Some [("account_no", str "SBIN0001003");
         ("confidence", Js.VNum (Js.Fin (9 # 10)));
         ("priority", str "high");
         ("reason", str "KYC pending for long")]].

(** A scoring service that returns [twoScores] and no summary. *)
Definition scoringTwo : list Customer -> string -> M Calls Customers.AiResponse :=
  fun _ _ calls => (Ret (Customers.AiAnalysis twoScores None), S calls).

Definition aiOptions : Customers.AnalysisOptions :=
  {| Customers.useAI := Some true;
     Customers.aiProvider := None;
     Customers.confidenceThreshold := None;
     Customers.maxResults := None;
     Customers.otherOptions := [] |}.

(** A request to analyse the three customers for [kyc_update] with the
    scoring service. *)
Definition kycRequest : Customers.AnalysisRequest :=
  {| Customers.customers := [amit; sita; ramesh];
     Customers.issueType := "kyc_update";
     Customers.options := Some aiOptions |}.

(** A request with an issue type that is not one of the five. *)
Definition unknownIssueRequest : Customers.AnalysisRequest :=
  {| Customers.customers := [amit; sita; ramesh];
     Customers.issueType := "address_change";
     Customers.options := None |}.

(** The prompt of the samples. *)
Definition prompt : list Customer -> string -> string :=
  fun _ issueType => "Analyze the customers for " ++ issueType.

Definition timedOut : Error :=
  {| name := "Error"; message := "Request timed out"; code := None |}.

(** A model whose call times out. *)
Definition geminiTimesOut : string -> M Calls string :=
  fun _ calls => (Throw timedOut, S calls).

(** A model that replies with the given text. *)
Definition geminiSays (text : string) : string -> M Calls string :=
  fun _ calls => (Ret text, S calls).

Definition syntaxError : Error :=
  {| name := "SyntaxError"; message := "Unexpected token in JSON";
     code := None |}.

(** [JSON.parse] on the replies of the samples: the empty object is the
    only JSON among them. *)
Definition parseSample : string -> Result Customers.AiResponse :=
  fun json =>
    if String.eqb json "{}" then Ret Customers.AiOther else Throw syntaxError.

End Sample.

(* --------------------------------------------------------------------- *)
(** ** Regular expressions *)
(* --------------------------------------------------------------------- *)

(** The regular expressions of the validation helpers are kept as
    expressions and run by a matcher, Brzozowski's derivatives.  A
    pattern between [^] and [$] is tested against the whole string. *)

Module Regex.

Inductive re : Type :=
| Void                          (** matches nothing *)
| Eps                           (** the empty pattern *)
| Class (p : ascii -> bool)     (** a character class *)
| Cat (r1 r2 : re)              (** [r1 r2] *)
| Alt (r1 r2 : re)              (** [r1|r2] *)
| Star (r : re).                (** [r*] *)

(** A literal character. *)
Definition Chr (c : ascii) : re := Class (Ascii.eqb c).

(** A literal text. *)
Fixpoint Lit (s : string) : re :=
  match s with
  | EmptyString => Eps
  | String c r => Cat (Chr c) (Lit r)
  end.

(** [[\s\S]]: any character. *)
Definition any : re := Class (fun _ => true).

(** [r+] *)
Definition Plus (r : re) : re := Cat r (Star r).

(** [r{n}] *)
Fixpoint Times (n : nat) (r : re) : re :=
  match n with
  | O => Eps
  | S n' => Cat r (Times n' r)
  end.

(** [r{0,n}] *)
Fixpoint AtMost (n : nat) (r : re) : re :=
  match n with
  | O => Eps
  | S n' => Alt Eps (Cat r (AtMost n' r))
  end.

(** [r{lo,hi}] *)
Definition Between (lo hi : nat) (r : re) : re :=
  Cat (Times lo r) (AtMost (hi - lo) r).

(** The pattern matches the empty string. *)
Fixpoint nullable (r : re) : bool :=
  match r with
  | Void => false
  | Eps => true
  | Class _ => false
  | Cat r1 r2 => nullable r1 && nullable r2
  | Alt r1 r2 => nullable r1 || nullable r2
  | Star _ => true
  end.

(** What is left of the pattern after the character [c]. *)
Fixpoint deriv (c : ascii) (r : re) : re :=
  match r with
  | Void => Void
  | Eps => Void
  | Class p => if p c then Eps else Void
  | Cat r1 r2 =>
      if nullable r1 then Alt (Cat (deriv c r1) r2) (deriv c r2)
      else Cat (deriv c r1) r2
  | Alt r1 r2 => Alt (deriv c r1) (deriv c r2)
  | Star r' => Cat (deriv c r') (Star r')
  end.

(** [/^r$/.test(s)] *)
Fixpoint test (r : re) (s : string) : bool :=
  match s with
  | EmptyString => nullable r
  | String c s' => test (deriv c r) s'
  end.

(** The strings a pattern denotes. *)
Inductive Match : re -> string -> Prop :=
| MEps : Match Eps ""
| MClass (p : ascii -> bool) (c : ascii) :
    p c = true -> Match (Class p) (String c "")
| MCat (r1 r2 : re) (s1 s2 : string) :
    Match r1 s1 -> Match r2 s2 -> Match (Cat r1 r2) (s1 ++ s2)
| MAltL (r1 r2 : re) (s : string) : Match r1 s -> Match (Alt r1 r2) s
| MAltR (r1 r2 : re) (s : string) : Match r2 s -> Match (Alt r1 r2) s
| MStar0 (r : re) : Match (Star r) ""
| MStarS (r : re) (s1 s2 : string) :
    Match r s1 -> Match (Star r) s2 -> Match (Star r) (s1 ++ s2).

(** The characters of [\s] and of [\d] in the ASCII range. *)
Definition whitespace (c : ascii) : bool :=
  let n := nat_of_ascii c in
  (n =? 32)%nat || ((9 <=? n)%nat && (n <=? 13)%nat).

Definition digit (c : ascii) : bool :=
  (48 <=? nat_of_ascii c)%nat && (nat_of_ascii c <=? 57)%nat.

(** Every character of [s] satisfies [p]. *)
Fixpoint all (p : ascii -> bool) (s : string) : bool :=
  match s with
  | EmptyString => true
  | String c r => p c && all p r
  end.

(** The number of characters of [s] that satisfy [p]. *)
Fixpoint count (p : ascii -> bool) (s : string) : nat :=
  match s with
  | EmptyString => O
  | String c r => ((if p c then 1 else 0) + count p r)%nat
  end.

(** [s.replace(/[p]/g, '')]: [s] without the characters of the class. *)
Fixpoint removeAll (p : ascii -> bool) (s : string) : string :=
  match s with
  | EmptyString => EmptyString
  | String c r => if p c then removeAll p r else String c (removeAll p r)
  end.

End Regex.

(** Text in the ASCII range.  A string of this development is the text
    of the program character by character as long as the text is ASCII.
    Outside that range the class [\s], [toLowerCase] and the flag [i] of
    the program know characters (the no-break space U+00A0, the Kelvin
    sign U+212A) that the definitions here leave alone, so what is
    stated about them is stated for ASCII text. *)
Module Text.

Definition isAsciiChar (c : ascii) : bool := (nat_of_ascii c <? 128)%nat.

Definition isAscii (s : string) : bool := Regex.all isAsciiChar s.

End Text.

(* --------------------------------------------------------------------- *)
(** ** The patterns of [customers.js] and [ai-service.js] *)
(* --------------------------------------------------------------------- *)

(** The regular expressions that [Customers] and [AiService] decide by
    hand, as expressions.  They are written for lower-cased text, which
    is how the flag [i] reads ASCII letters; a pattern that does not
    start with [^] may start anywhere, and one that does not end with
    [$] may end anywhere. *)

Module Patterns.

Import Regex.

(** [[_\s-]*] *)
Definition separators : re := Star (Class Str.is_sep).

(** [/account[_\s-]*no$|^accountno$|^account$/i] *)
Definition accountKey : re :=
  Alt (Cat (Star any) (Cat (Lit "account") (Cat separators (Lit "no"))))
    (Alt (Lit "accountno") (Lit "account")).

(** [/acc(?:ount)?[_\s-]*no|accno|accountnumber/i] *)
Definition altAccountKey : re :=
  Cat (Star any)
    (Cat (Alt (Cat (Lit "acc")
                 (Cat (Alt (Lit "ount") Eps) (Cat separators (Lit "no"))))
            (Alt (Lit "accno") (Lit "accountnumber")))
       (Star any)).

(** [/expired|pending/i] *)
Definition expiredOrPending : re :=
  Cat (Star any) (Cat (Alt (Lit "expired") (Lit "pending")) (Star any)).

(** [/\{[\s\S]*\}/] *)
Definition jsonObject : re :=
  Cat (Chr "{") (Cat (Star any) (Chr "}")).

End Patterns.

(* --------------------------------------------------------------------- *)
(** ** [backend/middleware/validation.js]: the utility functions *)
(* --------------------------------------------------------------------- *)

Module Validation.

(** [[^\s@]] *)
Definition notSpaceOrAt (c : ascii) : bool :=
  negb (Regex.whitespace c || Ascii.eqb c "@").

(** [/^[^\s@]+@[^\s@]+\.[^\s@]+$/] *)
Definition emailRegex : Regex.re :=
  Regex.Cat (Regex.Plus (Regex.Class notSpaceOrAt))
    (Regex.Cat (Regex.Chr "@")
       (Regex.Cat (Regex.Plus (Regex.Class notSpaceOrAt))
          (Regex.Cat (Regex.Chr ".")
             (Regex.Plus (Regex.Class notSpaceOrAt))))).

Definition isValidEmail (email : string) : bool :=
  Regex.test emailRegex email.

(** [[\s\-\(\)\+]] *)
Definition mobilePunctuation (c : ascii) : bool :=
  Regex.whitespace c || Ascii.eqb c "-" || Ascii.eqb c "("
  || Ascii.eqb c ")" || Ascii.eqb c "+".

(** [/^\d{10,15}$/] *)
Definition mobileRegex : Regex.re :=
  Regex.Between 10 15 (Regex.Class Regex.digit).

Definition isValidMobile (mobile : string) : bool :=
  let cleaned := Regex.removeAll mobilePunctuation mobile in
  Regex.test mobileRegex cleaned.

End Validation.

(* --------------------------------------------------------------------- *)
(** ** [validation.js]: [validateCustomerData] *)
(* --------------------------------------------------------------------- *)

Module CustomerData.

(** What [validateCustomerData] returns. *)
Record Report : Type := {
  isValid : bool;
  errors : list string;
  validatedRows : option nat;     (** absent when the checks stop early *)
  totalRows : option nat
}.

(** [TypeError]: [mobile.replace] is called on a value that is no
    string. *)
Definition replaceIsNotAFunction : Error :=
  {| name := "TypeError";
     message := "mobile.replace is not a function";
     code := None |}.

Section Validate.

Context {B : Builtins}.

(** [customerSchema.validate(customer, { allowUnknown: true }).error]:
    the message of the first detail, [None] when the schema is
    satisfied. *)
Variable schemaError : Customer -> option string.

(** [field in firstCustomer] *)
Definition hasColumn (customer : Customer) (field : string) : bool :=
  existsb (String.eqb field) (keys customer).

(** The errors of the required columns, in the order of
    [requiredFields]. *)
Definition missingColumns (firstCustomer : Customer) : list string :=
  map (fun field => "Missing required column: " ++ field)
    (filter (fun field => negb (hasColumn firstCustomer field))
       ["NAME"; "ACCOUNT_NO"]).

(** [`Row ${i + 1}: `] *)
Definition row (i : nat) : string :=
  "Row " ++ numberToString (Js.int (Z.of_nat i + 1)) ++ ": ".

(** [if (error) errors.push(`Row ${i + 1}: ${error.details[0].message}`)] *)
Definition schemaErrors (i : nat) (customer : Customer) : list string :=
  match schemaError customer with
  | Some m => [row i ++ m]
  | None => []
  end.

(** [customer.EMAIL && !isValidEmail(customer.EMAIL)]; the test of the
    regular expression reads its argument as a string. *)
Definition emailErrors (i : nat) (customer : Customer) : list string :=
  if Js.truthy (get customer "EMAIL")
     && negb (Validation.isValidEmail (String_ (get customer "EMAIL")))
  then [row i ++ "Invalid email format"]
  else [].

(** [customer.MOBILE && !isValidMobile(customer.MOBILE)]: the error of
    the mobile number for row [i], or the exception of [mobile.replace]
    when the value is a number or [true]. *)
Definition mobileErrors (i : nat) (customer : Customer)
    : Result (list string) :=
  if Js.truthy (get customer "MOBILE") then
    match get customer "MOBILE" with
    | Some (Js.VStr mobile) =>
        Ret (if Validation.isValidMobile mobile then []
             else [row i ++ "Invalid mobile number format"])
    | _ => Throw replaceIsNotAFunction
    end
  else Ret [].

Definition tooManyErrors : string :=
  "... and possibly more errors. Please fix the above issues first.".

(** The loop over the rows [i, i + 1, ...] still to validate, entered
    with the errors found so far. *)
Fixpoint validateRows (rows : list Customer) (i : nat) (errors : list string)
    : Result (list string) :=
  match rows with
  | [] => Ret errors
  | customer :: rest =>
      let errors1 :=
        ((errors ++ schemaErrors i customer) ++ emailErrors i customer)%list in
      match mobileErrors i customer with
      | Throw e => Throw e
      | Ret m =>
          let errors2 := (errors1 ++ m)%list in
          if (5 <=? length errors2)%nat
          then Ret (errors2 ++ [tooManyErrors])%list
          else validateRows rest (S i) errors2
      end
  end.

Definition validateCustomerData (customers : list Customer) : Result Report :=
  match customers with
  | [] =>
      Ret {| isValid := false;
             errors := ["Customer data must be a non-empty array"];
             validatedRows := None; totalRows := None |}
  | firstCustomer :: _ =>
      match missingColumns firstCustomer with
      | (_ :: _) as errors =>
          Ret {| isValid := false; errors := errors;
                 validatedRows := None; totalRows := None |}
      | [] =>
          let samplesToValidate := Nat.min (length customers) 10 in
          match validateRows (firstn samplesToValidate customers) 0 [] with
          | Throw e => Throw e
          | Ret errors =>
              Ret {| isValid := match errors with [] => true | _ => false end;
                     errors := errors;
                     validatedRows := Some samplesToValidate;
                     totalRows := Some (length customers) |}
          end
      end
  end.

End Validate.

End CustomerData.

(* --------------------------------------------------------------------- *)
(** ** [customers.js]: [GET /], [GET /:accountNo] and [POST /upload] *)
(* --------------------------------------------------------------------- *)

Module Lookup.

Definition sampleCustomers : list Customer :=
  [[("NAME", Js.VStr "Amit Sharma"); ("ACCOUNT_NO", Js.VStr "SBIN0001001");
    ("BALANCE", Js.VNum (Js.Fin (25001 # 2)));
    ("EMAIL", Js.VStr "amit@example.com"); ("MOBILE", Js.VStr "9876543210");
    ("AGE", Js.VNum (Js.int 35)); ("KYC_STATUS", Js.VStr "Verified")];
   [("NAME", Js.VStr "Sita Rao"); ("ACCOUNT_NO", Js.VStr "SBIN0001002");
    ("BALANCE", Js.VNum (Js.Fin (10003 # 4)));
    ("EMAIL", Js.VStr "sita@example.com"); ("MOBILE", Js.VStr "9876501234");
    ("AGE", Js.VNum (Js.int 62)); ("KYC_STATUS", Js.VStr "Expired")];
   [("NAME", Js.VStr "Ramesh Gupta"); ("ACCOUNT_NO", Js.VStr "SBIN0001003");
    ("BALANCE", Js.VNum (Js.int (-500)));
    ("EMAIL", Js.VStr "ramesh@example.com"); ("MOBILE", Js.VStr "9876512345");
    ("AGE", Js.VNum (Js.int 45)); ("KYC_STATUS", Js.VStr "Pending")]].

(** What [JSON.parse] makes of [database/customers.json]; the elements
    of an array of customers are taken to be objects. *)
Inductive Parsed : Type :=
| AnArray (customers : list Customer)
| WithCustomers (customers : list Customer)
    (** an object whose [customers] is an array *)
| OtherShape.

(** The file [database/customers.json]. *)
Inductive DataFile : Type :=
| Missing                      (** [fs.existsSync] answers [false] *)
| Unreadable (e : Error)       (** [fs.readFileSync] throws *)
| Unparsable (e : Error)       (** [JSON.parse] throws *)
| Holds (parsed : Parsed).

(** [GET /]: reading the file is outside the inner [try]. *)
Definition listRoute (dataFile : DataFile) : Response (list Customer) :=
  match dataFile with
  | Holds (AnArray customers) => Ok200 customers
  | Holds (WithCustomers customers) => Ok200 customers
  | Holds OtherShape => Ok200 sampleCustomers
  | Unparsable _ => Ok200 sampleCustomers
  | Unreadable _ => Failed500
  | Missing => Ok200 sampleCustomers
  end.

(** The customers [GET /:accountNo] searches: reading and parsing are
    both inside the [try] whose [catch] keeps the sample. *)
Definition customersOf (dataFile : DataFile) : list Customer :=
  match dataFile with
  | Holds (AnArray customers) => customers
  | Holds (WithCustomers customers) => customers
  | _ => sampleCustomers
  end.

(** The replies of [GET /:accountNo]. *)
Inductive Reply : Type :=
| Found (customer : Customer)
| NotFound404.

Section Route.

Context {B : Builtins}.

(** The callback of [customers.find]. *)
Definition hasAccount (lower : string) (c : Customer) : bool :=
  let acct :=
    Str.toLowerCase
      (String_ (Customers.getAccountValue c <||> Some (Js.VStr ""))) in
  String.eqb acct lower.

Definition lookupRoute (dataFile : DataFile) (accountNo : string) : Reply :=
  let customers := customersOf dataFile in
  let lower := Str.toLowerCase accountNo in
  match find (hasAccount lower) customers with
  | Some found => Found found
  | None => NotFound404
  end.

End Route.

End Lookup.

Module Upload.

(** The body of a successful reply; the names of the sheets and the
    message are left out. *)
Record Uploaded : Type := {
  count : nat;
  customers : list Customer;
  columns : list string;
  sampleData : list Customer
}.

Inductive Reply : Type :=
| Ok (body : Uploaded)
| BadRequest400 (error : string) (details : list string)
| Failed500.

Section Route.

Context {B : Builtins}.

Variable schemaError : Customer -> option string.

(** The handler of [POST /upload] from the rows
    [XLSX.utils.sheet_to_json] returns for the sheet chosen. *)
Definition uploadRows (customers : list Customer) : Reply :=
  match customers with
  | [] => BadRequest400 "Empty file or no rows" []
  | _ :: _ =>
      let normalizedCustomers := map Customers.normalizeAccountKey customers in
      match CustomerData.validateCustomerData schemaError normalizedCustomers with
      | Throw _ => Failed500
      | Ret validation =>
          if negb (CustomerData.isValid validation)
          then BadRequest400 "Invalid data format"
                 (CustomerData.errors validation)
          else
            Ok {| count := length normalizedCustomers;
                  customers := normalizedCustomers;
                  columns := match normalizedCustomers with
                             | first :: _ => keys first
                             | [] => []
                             end;
                  sampleData := Batch.slice normalizedCustomers 0 3 |}
      end
  end.

End Route.

End Upload.

(* --------------------------------------------------------------------- *)
(** ** [validation.js]: [validateLetterRequest], [validateEmailRequest] *)
(* --------------------------------------------------------------------- *)

(** [Joi.string().required()]: a string that is not empty. *)
Definition requiredString (v : Js.field) : bool :=
  match v with
  | Some (Js.VStr s) => nonEmpty s
  | _ => false
  end.

Module LetterValidation.

(** The [options] of the body; [otherOptions] holds the properties the
    schema does not name. *)
Record OptionsBody : Type := {
  generatePDF : option bool;
  includeHeader : option bool;
  includeFooter : option bool;
  batchSize : option Z;
  otherOptions : Customer
}.

(** The body of the request.  It is typed: [customers] is an array of
    objects, [issueType] a string, [customMessage] a string when present,
    the switches of [options] booleans and its batch size an integer. *)
Record Body : Type := {
  customers : list Customer;
  issueType : string;
  customMessage : option string;
  options : option OptionsBody
}.

Section Validate.

(** The number of UTF-16 code units of a string, which is what
    [Joi.string().max] counts. *)
Variable length16 : string -> nat.

(** The schema of an item of [customers]. *)
Definition validCustomer (c : Customer) : bool :=
  requiredString (get c "NAME") && requiredString (get c "ACCOUNT_NO").

Definition validOptions (o : OptionsBody) : bool :=
  Customers.optionHolds (fun n => (1 <=? n) && (n <=? 100)) (batchSize o)
  && match otherOptions o with [] => true | _ :: _ => false end.

(** The options the handlers read, with the defaults of the schema. *)
Definition withDefaults (o : OptionsBody) : Letters.Options :=
  {| Letters.generatePDF :=
       Some (match generatePDF o with Some b => b | None => false end);
     Letters.batchSize :=
       Some (match batchSize o with Some n => n | None => 10 end) |}.

(** [validateLetterRequest]: the body the handler receives, or the first
    property that fails, in the order of the schema.  A body without
    [options] gets the default [{}] as it is, without the defaults of
    the properties inside. *)
Definition validateLetterRequest (body : Body) : string + Letters.Request :=
  let n := Z.of_nat (length (customers body)) in
  if negb (forallb validCustomer (customers body) && (1 <=? n) && (n <=? 1000))
  then inl "customers"
  else if negb (validIssueType (issueType body)) then inl "issueType"
  else if negb (Customers.optionHolds (fun m => Z.of_nat (length16 m) <=? 500)
                  (customMessage body))
  then inl "customMessage"
  else
    let message := match customMessage body with Some m => m | None => "" end in
    match options body with
    | None =>
        inr {| Letters.customers := customers body;
               Letters.issueType := issueType body;
               Letters.customMessage := message;
               Letters.options :=
                 {| Letters.generatePDF := None; Letters.batchSize := None |} |}
    | Some o =>
        if validOptions o
        then inr {| Letters.customers := customers body;
                    Letters.issueType := issueType body;
                    Letters.customMessage := message;
                    Letters.options := withDefaults o |}
        else inl "options"
    end.

End Validate.

End LetterValidation.

Module EmailValidation.

Record OptionsBody : Type := {
  includeAttachment : option bool;
  sendCopy : option bool;
  priority : option string;
  delayMs : option Js.num;
  batchSize : option Z;
  batchDelayMs : option Js.num;
  otherOptions : Customer
}.

(** The body of the request, typed like the one of a letter request;
    the delays are numbers and the batch size is an integer. *)
Record Body : Type := {
  customers : list Customer;
  subject : option string;
  content : string;
  issueType : string;
  options : option OptionsBody
}.

(** The body after validation: what [POST /send] reads of it, and the
    delay between the batches that [POST /bulk-send] reads. *)
Record Value : Type := {
  request : Email.Request;
  valueBatchDelayMs : option Js.num
}.

Section Validate.

(** The number of UTF-16 code units of a string. *)
Variable length16 : string -> nat.

(** [Joi.string().email()] on a string that is not empty. *)
Variable joiEmail : string -> bool.

(** [EMAIL: Joi.string().email().allow('', null)] *)
Definition validAddress (v : Js.field) : bool :=
  match v with
  | None | Some Js.VNull => true
  | Some (Js.VStr s) => negb (nonEmpty s) || joiEmail s
  | Some _ => false
  end.

Definition validCustomer (c : Customer) : bool :=
  requiredString (get c "NAME") && requiredString (get c "ACCOUNT_NO")
  && validAddress (get c "EMAIL").

Definition validOptions (o : OptionsBody) : bool :=
  Customers.optionHolds
    (fun p => String.eqb p "high" || String.eqb p "normal" || String.eqb p "low")
    (priority o)
  && Customers.optionHolds (Customers.numberBetween 500 10000) (delayMs o)
  && Customers.optionHolds (fun n => (1 <=? n) && (n <=? 10)) (batchSize o)
  && Customers.optionHolds (Customers.numberBetween 1000 30000) (batchDelayMs o)
  && match otherOptions o with [] => true | _ :: _ => false end.

(** [validateEmailRequest]: the body the handlers receive, or the first
    property that fails, in the order of the schema.  A [subject] that
    is present may not be empty; a missing one becomes [''].  *)
Definition validateEmailRequest (body : Body) : string + Value :=
  let n := Z.of_nat (length (customers body)) in
  if negb (forallb validCustomer (customers body) && (1 <=? n) && (n <=? 500))
  then inl "customers"
  else if negb (Customers.optionHolds
                  (fun s => nonEmpty s && (Z.of_nat (length16 s) <=? 200))
                  (subject body))
  then inl "subject"
  else if negb (nonEmpty (content body)
                && (Z.of_nat (length16 (content body)) <=? 10000))
  then inl "content"
  else if negb (validIssueType (issueType body)) then inl "issueType"
  else
    let subject := match subject body with Some s => s | None => "" end in
    match options body with
    | None =>
        inr {| request :=
                 {| Email.customers := customers body;
                    Email.subject := subject;
                    Email.content := content body;
                    Email.issueType := issueType body;
                    Email.options :=
                      {| Email.delayMs := None; Email.batchSize := None |} |};
               valueBatchDelayMs := None |}
    | Some o =>
        if validOptions o
        then inr {| request :=
                      {| Email.customers := customers body;
                         Email.subject := subject;
                         Email.content := content body;
                         Email.issueType := issueType body;
                         Email.options :=
                           {| Email.delayMs :=
                                Some (match delayMs o with
                                      | Some d => d
                                      | None => Js.int 1000
                                      end);
                              Email.batchSize :=
                                Some (match batchSize o with
                                      | Some b => b
                                      | None => 5
                                      end) |} |};
                    valueBatchDelayMs :=
                      Some (match batchDelayMs o with
                            | Some d => d
                            | None => Js.int 5000
                            end) |}
        else inl "options"
    end.

End Validate.

End EmailValidation.

(* --------------------------------------------------------------------- *)
(** ** [letters.js]: [POST /bulk-generate] *)
(* --------------------------------------------------------------------- *)

Module BulkLetters.

(** An element of [letters]: [{customerId, customerName, ...letterData}].
    The properties of [letterData] come after the two of the customer;
    none of them bears one of these two names. *)
Record Letter : Type := {
  customerId : Js.field;
  customerName : Js.field;
  letterData : Letters.LetterData
}.

Record Summary : Type := {
  totalRequested : nat;
  totalGenerated : nat;
  totalErrors : nat;
  batchesProcessed : nat;
  batchSize : Z
}.

(** The reply; the time of completion is left out. *)
Record Reply : Type := {
  summary : Summary;
  letters : list Letter;
  errors : option (list Letters.LetterError)
}.

Section Generate.

Context {W : Type}.

Variable generateLetterContent :
  Customer -> string -> string -> M W Letters.LetterData.

Variable body : Letters.Request.

(** [for (const customer of batch)], entered with the letters of the
    batch and all errors so far. *)
Fixpoint batchLoop (batch : list Customer) (batchLetters : list Letter)
    (allErrors : list Letters.LetterError) (w : W)
    : (list Letter * list Letters.LetterError) * W :=
  match batch with
  | [] => ((batchLetters, allErrors), w)
  | customer :: rest =>
      match generateLetterContent customer (Letters.issueType body)
              (Letters.customMessage body) w with
      | (Ret letterData, w1) =>
          batchLoop rest
            (batchLetters
               ++ [{| customerId := get customer "ACCOUNT_NO";
                      customerName := get customer "NAME";
                      letterData := letterData |}])%list
            allErrors w1
      | (Throw error, w1) =>
          batchLoop rest batchLetters
            (allErrors
               ++ [{| Letters.customer :=
                        get customer "ACCOUNT_NO" <||> get customer "NAME";
                      Letters.error := message error |}])%list
            w1
      end
  end.

(** The loop over the batches.  Nothing in its body throws outside the
    inner [try], so the [catch] of a batch is never entered. *)
Fixpoint batchesLoop (batches : list (list Customer))
    (allLetters : list Letter) (allErrors : list Letters.LetterError) (w : W)
    : (list Letter * list Letters.LetterError) * W :=
  match batches with
  | [] => ((allLetters, allErrors), w)
  | batch :: rest =>
      let '((batchLetters, allErrors'), w') := batchLoop batch [] allErrors w in
      batchesLoop rest (allLetters ++ batchLetters)%list allErrors' w'
  end.

(** The handler of [POST /bulk-generate], after validation; [None] when
    the loop that splits the customers does not end. *)
Definition bulkGenerateHandler (w : W) : option (Response Reply * W) :=
  let batchSize := Batch.batchSizeOr (Letters.batchSize (Letters.options body)) 10 in
  match Letters.bulkBatches body with
  | None => None
  | Some batches =>
      let '((allLetters, allErrors), w') := batchesLoop batches [] [] w in
      Some
        (Ok200
           {| summary :=
                {| totalRequested := length (Letters.customers body);
                   totalGenerated := length allLetters;
                   totalErrors := length allErrors;
                   batchesProcessed := length batches;
                   batchSize := batchSize |};
              letters := allLetters;
              errors := match allErrors with
                        | [] => None
                        | _ :: _ => Some allErrors
                        end |}, w')
  end.

End Generate.

End BulkLetters.

(* --------------------------------------------------------------------- *)
(** ** [email.js]: [POST /bulk-send] *)
(* --------------------------------------------------------------------- *)

Module BulkEmail.

(** The reply; the time of completion is left out. *)
Record Reply : Type := {
  statistics : Email.Statistics;
  results : list Email.EmailResult;
  batchesProcessed : nat
}.

Section Send.

Context {W : Type}.

Variable sendLetter :
  Customer -> string -> string -> string -> Email.Options -> M W unit.

Variable delay : Js.num -> W -> W.

Variable body : Email.Request.

(** [options.batchDelayMs] *)
Variable batchDelayMs : option Js.num.

(** [options.batchDelayMs || 5000] *)
Definition delayBetweenBatches : Js.num :=
  match batchDelayMs with
  | Some d => Js.num_or d (Js.int 5000)
  | None => Js.int 5000
  end.

(** The mailer is called with four arguments: its [options] are [{}]. *)
Definition noOptions : Email.Options :=
  {| Email.delayMs := None; Email.batchSize := None |}.

Definition skippedResult (customer : Customer) : Email.EmailResult :=
  {| Email.customer := get customer "ACCOUNT_NO";
     Email.email := None;
     Email.status := Email.skipped;
     Email.reason := Some "No email address";
     Email.error := None;
     Email.errorCode := None |}.

Definition sentResult (customer : Customer) : Email.EmailResult :=
  {| Email.customer := get customer "ACCOUNT_NO";
     Email.email := get customer "EMAIL";
     Email.status := Email.sent;
     Email.reason := None;
     Email.error := None;
     Email.errorCode := None |}.

Definition failedResult (customer : Customer) (error : Error)
    : Email.EmailResult :=
  {| Email.customer := get customer "ACCOUNT_NO";
     Email.email := get customer "EMAIL";
     Email.status := Email.failed;
     Email.reason := None;
     Email.error := Some (message error);
     Email.errorCode := None |}.

(** [for (const customer of batch)]: half a second passes after every
    call of the mailer. *)
Fixpoint batchLoop (batch : list Customer)
    (batchResults : list Email.EmailResult) (w : W)
    : list Email.EmailResult * W :=
  match batch with
  | [] => (batchResults, w)
  | customer :: rest =>
      if negb (Js.truthy (get customer "EMAIL")) then
        batchLoop rest (batchResults ++ [skippedResult customer])%list w
      else
        match sendLetter customer (Email.subject body) (Email.content body)
                (Email.issueType body) noOptions w with
        | (Ret _, w1) =>
            batchLoop rest (batchResults ++ [sentResult customer])%list
              (delay (Js.int 500) w1)
        | (Throw error, w1) =>
            batchLoop rest (batchResults ++ [failedResult customer error])%list
              (delay (Js.int 500) w1)
        end
  end.

(** The loop over the batches, entered at [batchIndex]; [total] is
    [batches.length].  Time passes between two batches, not after the
    last one. *)
Fixpoint batchesLoop (batches : list (list Customer)) (batchIndex total : nat)
    (allResults : list Email.EmailResult) (w : W)
    : list Email.EmailResult * W :=
  match batches with
  | [] => (allResults, w)
  | batch :: rest =>
      let '(batchResults, w1) := batchLoop batch [] w in
      let w2 :=
        if (Z.of_nat batchIndex <? Z.of_nat total - 1)
        then delay delayBetweenBatches w1 else w1 in
      batchesLoop rest (S batchIndex) total (allResults ++ batchResults)%list w2
  end.

(** The handler of [POST /bulk-send], after validation; [None] when the
    loop that splits the customers does not end. *)
Definition bulkSendHandler (w : W) : option (Response Reply * W) :=
  match Email.bulkBatches body with
  | None => None
  | Some batches =>
      let '(allResults, w') := batchesLoop batches 0 (length batches) [] w in
      Some
        (Ok200
           {| statistics :=
                {| Email.total := length (Email.customers body);
                   Email.sentCount := Email.countStatus Email.sent allResults;
                   Email.failedCount := Email.countStatus Email.failed allResults;
                   Email.skippedCount :=
                     Email.countStatus Email.skipped allResults |};
              results := allResults;
              batchesProcessed := length batches |}, w')
  end.

End Send.

End BulkEmail.

(* --------------------------------------------------------------------- *)
(** ** The routes behind their validation *)
(* --------------------------------------------------------------------- *)

Module Routes.

Section Routes.

Context {W : Type}.

Variable length16 : string -> nat.
Variable joiEmail : string -> bool.
Variable generateLetterContent :
  Customer -> string -> string -> M W Letters.LetterData.
Variable generateLetterPDF : string -> Customer -> M W Letters.Buffer.
Variable sendLetter :
  Customer -> string -> string -> string -> Email.Options -> M W unit.
Variable delay : Js.num -> W -> W.

(** [router.post('/generate', validateLetterRequest, ...)] *)
Definition generateRoute (body : LetterValidation.Body)
    : Handler W Letters.Reply :=
  match LetterValidation.validateLetterRequest length16 body with
  | inl path => fun w => (ValidationFailed400 path, w)
  | inr value =>
      Letters.generateHandler generateLetterContent generateLetterPDF value
  end.

(** [router.post('/bulk-generate', validateLetterRequest, ...)] *)
Definition bulkGenerateRoute (body : LetterValidation.Body) (w : W)
    : option (Response BulkLetters.Reply * W) :=
  match LetterValidation.validateLetterRequest length16 body with
  | inl path => Some (ValidationFailed400 path, w)
  | inr value => BulkLetters.bulkGenerateHandler generateLetterContent value w
  end.

(** [router.post('/send', validateEmailRequest, ...)] *)
Definition sendRoute (body : EmailValidation.Body) : Handler W Email.Reply :=
  match EmailValidation.validateEmailRequest length16 joiEmail body with
  | inl path => fun w => (ValidationFailed400 path, w)
  | inr value =>
      Email.sendHandler sendLetter delay (EmailValidation.request value)
  end.

(** [router.post('/bulk-send', validateEmailRequest, ...)] *)
Definition bulkSendRoute (body : EmailValidation.Body) (w : W)
    : option (Response BulkEmail.Reply * W) :=
  match EmailValidation.validateEmailRequest length16 joiEmail body with
  | inl path => Some (ValidationFailed400 path, w)
  | inr value =>
      BulkEmail.bulkSendHandler sendLetter delay
        (EmailValidation.request value)
        (EmailValidation.valueBatchDelayMs value) w
  end.

End Routes.

End Routes.

(* --------------------------------------------------------------------- *)
(** ** Scenarios *)
(* --------------------------------------------------------------------- *)

Module Scenario.

(** Two customers without an address. *)
Definition noAddressRequest : Email.Request :=
  {| Email.customers :=
       [[("NAME", Js.VStr "Kiran Rao"); ("ACCOUNT_NO", Js.VStr "SBIN0001004")];
        [("NAME", Js.VStr "Meera Nair"); ("ACCOUNT_NO", Js.VStr "SBIN0001005");
         ("EMAIL", Js.VStr "")]];
     Email.subject := "";
     Email.content := "Please update your KYC documents.";
     Email.issueType := "kyc_update";
     Email.options := {| Email.delayMs := None; Email.batchSize := None |} |}.

(** The three sample customers in batches of two. *)
Definition batchesOfTwo : Email.Request :=
  {| Email.customers := [Sample.amit; Sample.sita; Sample.ramesh];
     Email.subject := "";
     Email.content := "Please update your KYC documents.";
     Email.issueType := "kyc_update";
     Email.options := {| Email.delayMs := None; Email.batchSize := Some 2 |} |}.

(** What [POST /bulk-send] replies to [batchesOfTwo] when the mailer
    fails on its second call. *)
Definition bulkReply : BulkEmail.Reply :=
  {| BulkEmail.statistics :=
       {| Email.total := 3; Email.sentCount := 2; Email.failedCount := 1;
          Email.skippedCount := 0 |};
     BulkEmail.results :=
       [BulkEmail.sentResult Sample.amit;
        BulkEmail.failedResult Sample.sita Sample.deliveryFailed;
        BulkEmail.sentResult Sample.ramesh];
     BulkEmail.batchesProcessed := 2 |}.

(** A request for letters without PDF. *)
Definition lettersWithoutPdf : Letters.Request :=
  {| Letters.customers := [Sample.amit; Sample.sita; Sample.ramesh];
     Letters.issueType := "kyc_update";
     Letters.customMessage := "";
     Letters.options :=
       {| Letters.generatePDF := None; Letters.batchSize := Some 2 |} |}.

(** A row of a sheet whose account column is headed "Account No". *)
Definition sheetRow : Customer :=
  [("NAME", Js.VStr "Kiran Rao"); ("Account No", Js.VStr "SBIN0002001");
   ("MOBILE", Js.VNum (Js.int 9876543210))].

(** A row with two columns for the account number. *)
Definition twoAccountColumns : Customer :=
  [("NAME", Js.VStr "Kiran Rao"); ("Account No", Js.VStr "SBIN0002001");
   ("ACCOUNT_NO", Js.VStr "SBIN0009999")].

(** A row whose mobile number is a number, as a sheet stores it. *)
Definition numericMobile : Customer :=
  [("NAME", Js.VStr "Kiran Rao"); ("ACCOUNT_NO", Js.VStr "SBIN0002001");
   ("MOBILE", Js.VNum (Js.int 9876543210))].

(** A row with an address without a dot and a mobile number that is too
    short, and what [validateCustomerData] reports for it. *)
Definition badContact : Customer :=
  [("NAME", Js.VStr "Kiran Rao"); ("ACCOUNT_NO", Js.VStr "SBIN0002001");
   ("EMAIL", Js.VStr "kiran@example"); ("MOBILE", Js.VStr "98765")].

Definition twoErrors : CustomerData.Report :=
  {| CustomerData.isValid := false;
     CustomerData.errors :=
       ["Row 1: Invalid email format"; "Row 1: Invalid mobile number format"];
     CustomerData.validatedRows := Some 1%nat;
     CustomerData.totalRows := Some 1%nat |}.

(** The body of a request for three letters with PDF. *)
Definition letterBody : LetterValidation.Body :=
  {| LetterValidation.customers := [Sample.amit; Sample.sita; Sample.ramesh];
     LetterValidation.issueType := "kyc_update";
     LetterValidation.customMessage := None;
     LetterValidation.options :=
       Some {| LetterValidation.generatePDF := Some true;
               LetterValidation.includeHeader := None;
               LetterValidation.includeFooter := None;
               LetterValidation.batchSize := None;
               LetterValidation.otherOptions := [] |} |}.

(** A scoring service that answers like [Sample.scoringTwo] on lists of
    at most 100 customers and throws on longer ones. *)
Definition scoringUpTo100
    : list Customer -> string -> M Sample.Calls Customers.AiResponse :=
  fun cs t calls =>
    if (length cs <=? 100)%nat then Sample.scoringTwo cs t calls
    else Sample.scoringDown cs t calls.

(** A scoring service that returns an empty analysis. *)
Definition scoringNothing
    : list Customer -> string -> M Sample.Calls Customers.AiResponse :=
  fun _ _ calls => (Ret (Customers.AiAnalysis [] None), S calls).

(** The request [Sample.kycRequest] with a confidence threshold. *)
Definition kycAbove (t : option Js.num) : Customers.AnalysisRequest :=
  {| Customers.customers := [Sample.amit; Sample.sita; Sample.ramesh];
     Customers.issueType := "kyc_update";
     Customers.options :=
       Some {| Customers.useAI := Some true;
               Customers.aiProvider := None;
               Customers.confidenceThreshold := t;
               Customers.maxResults := None;
               Customers.otherOptions := [] |} |}.

(** The body of a request to send mail to the three sample customers in
    batches of [size]. *)
Definition emailBody (size : Z) : EmailValidation.Body :=
  {| EmailValidation.customers := [Sample.amit; Sample.sita; Sample.ramesh];
     EmailValidation.subject := None;
     EmailValidation.content := "Please update your KYC documents.";
     EmailValidation.issueType := "kyc_update";
     EmailValidation.options :=
       Some {| EmailValidation.includeAttachment := None;
               EmailValidation.sendCopy := None;
               EmailValidation.priority := None;
               EmailValidation.delayMs := None;
               EmailValidation.batchSize := Some size;
               EmailValidation.batchDelayMs := None;
               EmailValidation.otherOptions := [] |} |}.

(** An address check for the scenarios: the one of [isValidEmail]. *)
Definition addressCheck : string -> bool := Validation.isValidEmail.

(** An error of the template renderer. *)
Definition templateFailed : Error :=
  {| name := "TypeError";
     message := "Cannot read properties of undefined (reading 'split')";
     code := None |}.

(** A template renderer that throws for the account of
    [Sample.sita]. *)
Definition rendererFailsForSita
    : Customer -> string -> string -> M Sample.Calls Letters.LetterData :=
  fun customer issueType customMessage calls =>
    match get customer "ACCOUNT_NO" with
    | Some (Js.VStr accountNo) =>
        if String.eqb accountNo "SBIN0001002" then (Throw templateFailed, calls)
        else Sample.renderer customer issueType customMessage calls
    | _ => Sample.renderer customer issueType customMessage calls
    end.





(** The result of the rules on [Sample.kycRequest]. *)
Definition kycRuleBased {B : Builtins} : Customers.AnalysisResult :=
  Customers.ruleBasedResult (Customers.normalizedOf Sample.kycRequest)
    (Customers.ruleFilteredOf Sample.newYear2025 Sample.kycRequest).

End Scenario.

(* ===================================================================== *)
(** * Part II. Properties *)
(* ===================================================================== *)

Local Open Scope list_scope.

(** ** Batch splitting *)

Section SplitFacts.

Context {A : Type}.

Lemma firstn_plus (a b : nat) (l : list A) :
  firstn (a + b) l = firstn a l ++ firstn b (skipn a l).
Proof.
  revert l. induction a as [|a IH]; intros l.
  - reflexivity.
  - destruct l as [|x l].
    + simpl. now rewrite firstn_nil.
    + simpl. now rewrite IH.
Qed.

(** A slice that starts at [a] and is [b] long, both within the natural
    numbers, takes [b] elements after dropping [a]. *)
Lemma slice_nat (l : list A) (a b : nat) :
  Batch.slice l (Z.of_nat a) (Z.of_nat a + Z.of_nat b) = firstn b (skipn a l).
Proof.
  unfold Batch.slice.
  destruct (Z.ltb_spec (Z.of_nat a) 0) as [H|_]; [lia|].
  destruct (Z.ltb_spec (Z.of_nat a + Z.of_nat b) 0) as [H|_]; [lia|].
  destruct (Nat.le_gt_cases a (length l)) as [Ha|Ha].
  - rewrite (Z.min_l (Z.of_nat a)) by lia.
    rewrite Nat2Z.id.
    destruct (Nat.le_gt_cases (a + b) (length l)) as [Hb|Hb].
    + rewrite Z.min_l by lia.
      replace (Z.to_nat (Z.of_nat a + Z.of_nat b - Z.of_nat a)) with b by lia.
      reflexivity.
    + rewrite Z.min_r by lia.
      replace (Z.to_nat (Z.of_nat (length l) - Z.of_nat a))
        with (length l - a)%nat by lia.
      rewrite !firstn_all2; try reflexivity; rewrite length_skipn; lia.
  - rewrite !Z.min_r by lia.
    rewrite Z.sub_diag. simpl firstn.
    rewrite (skipn_all2 (n := a) l) by lia.
    now rewrite firstn_nil.
Qed.

(** The loop, entered before the end of the list with full batches that
    make up its first [k] elements and enough fuel for what is left,
    returns them followed by further full batches and one last batch. *)
Lemma splitLoop_spec (items : list A) (n : nat) :
  (1 <= n)%nat ->
  forall (fuel k : nat) (batches : list (list A)),
    (k < length items)%nat ->
    (length items - k <= fuel)%nat ->
    concat batches = firstn k items ->
    Forall (fun b => length b = n) batches ->
    exists init last,
      Batch.splitLoop fuel items (Z.of_nat n) (Z.of_nat k) batches
        = Some (init ++ [last])
      /\ concat (init ++ [last]) = items
      /\ Forall (fun b => length b = n) init
      /\ last <> []
      /\ (length last <= n)%nat.
Proof.
  intros Hn. induction fuel as [|fuel IH]; intros k batches Hk Hfuel Hcat Hfull.
  - lia.
  - cbn [Batch.splitLoop].
    destruct (Z.ltb_spec (Z.of_nat k) (Z.of_nat (length items))) as [_|H]; [|lia].
    rewrite slice_nat.
    replace (Z.of_nat k + Z.of_nat n) with (Z.of_nat (k + n)) by lia.
    destruct (Nat.lt_ge_cases (k + n) (length items)) as [Hmore|Hlast].
    + apply IH; try lia.
      * rewrite concat_app, Hcat. simpl. rewrite app_nil_r.
        symmetry. apply firstn_plus.
      * apply Forall_app. split; [assumption|].
        constructor; [|constructor].
        rewrite length_firstn, length_skipn. lia.
    + exists batches, (firstn n (skipn k items)).
      assert (Hall : firstn n (skipn k items) = skipn k items).
      { apply firstn_all2. rewrite length_skipn. lia. }
      repeat split.
      * destruct fuel; cbn [Batch.splitLoop];
          destruct (Z.ltb_spec (Z.of_nat (k + n)) (Z.of_nat (length items)));
          try lia; reflexivity.
      * rewrite concat_app, Hcat, Hall. simpl. rewrite app_nil_r.
        apply firstn_skipn.
      * assumption.
      * rewrite Hall. intros E.
        apply (f_equal (@length A)) in E. rewrite length_skipn in E.
        simpl in E. lia.
      * apply firstn_le_length.
Qed.

(** Without customers the loop is not entered. *)
Lemma split_nil (n : Z) : Batch.split (@nil A) n = Some [].
Proof. reflexivity. Qed.

End SplitFacts.

(** The loop from the start: it ends, and its batches are full ones
    followed by one last batch. *)
Lemma split_spec (A : Type) (items : list A) (n : Z) :
  items <> [] ->
  1 <= n ->
  exists init last,
    Batch.split items n = Some (init ++ [last])
    /\ concat (init ++ [last]) = items
    /\ Forall (fun b => Z.of_nat (length b) = n) init
    /\ last <> []
    /\ Z.of_nat (length last) <= n.
Proof.
  intros Hne Hn.
  destruct (splitLoop_spec items (Z.to_nat n) ltac:(lia)
              (length items) 0 [])
    as (init & last & Hrun & Hcat & Hfull & Hlast & Hlen).
  - destruct items; [congruence | simpl; lia].
  - lia.
  - reflexivity.
  - constructor.
  - exists init, last. unfold Batch.split.
    rewrite Z2Nat.id in Hrun by lia.
    repeat split; try assumption.
    + eapply Forall_impl; [|exact Hfull]. simpl. intros b Hb. lia.
    + lia.
Qed.

(** [options.batchSize || d] is a batch size of at least 1 when the
    option is, and when the default is. *)
Lemma batchSizeOr_positive (batchSize : option Z) (d : Z) :
  1 <= d ->
  match batchSize with Some n => 1 <= n | None => True end ->
  1 <= Batch.batchSizeOr batchSize d.
Proof.
  intros Hd Hn. destruct batchSize as [n|]; simpl; [|exact Hd].
  destruct (Z.eqb_spec n 0); lia.
Qed.

(** The batches of [POST /bulk-generate] make up the customers of the
    request. *)
Lemma letters_bulkBatches_spec (body : Letters.Request) :
  Letters.customers body <> [] ->
  match Letters.batchSize (Letters.options body) with
  | Some n => 1 <= n
  | None => True
  end ->
  exists init last,
    Letters.bulkBatches body = Some (init ++ [last])
    /\ concat (init ++ [last]) = Letters.customers body.
Proof.
  intros Hne Hn.
  destruct (split_spec _ (Letters.customers body)
              (Batch.batchSizeOr (Letters.batchSize (Letters.options body)) 10)
              Hne (batchSizeOr_positive _ 10 ltac:(lia) Hn))
    as (init & last & Hrun & Hcat & _).
  now exists init, last.
Qed.

(** The batches of [POST /bulk-send] make up the customers of the
    request. *)
Lemma email_bulkBatches_spec (body : Email.Request) :
  Email.customers body <> [] ->
  match Email.batchSize (Email.options body) with
  | Some n => 1 <= n
  | None => True
  end ->
  exists init last,
    Email.bulkBatches body = Some (init ++ [last])
    /\ concat (init ++ [last]) = Email.customers body.
Proof.
  intros Hne Hn.
  destruct (split_spec _ (Email.customers body)
              (Batch.batchSizeOr (Email.batchSize (Email.options body)) 5)
              Hne (batchSizeOr_positive _ 5 ltac:(lia) Hn))
    as (init & last & Hrun & Hcat & _).
  now exists init, last.
Qed.

(** C2.  For every non-empty list of items and every batch size
    [n >= 1], the splitting loop ends and returns batches whose
    concatenation is the original list in the original order; every
    batch has at most [n] items, and every batch but the last has exactly
    [n]. *)
Theorem split_reconstructs_items (A : Type) (items : list A) (n : Z) :
  items <> [] ->
  1 <= n ->
  exists batches init last,
    Batch.split items n = Some batches
    /\ concat batches = items
    /\ Forall (fun b => Z.of_nat (length b) <= n) batches
    /\ batches = init ++ [last]
    /\ Forall (fun b => Z.of_nat (length b) = n) init
    /\ last <> [].
Proof.
  intros Hne Hn.
  destruct (split_spec A items n Hne Hn)
    as (init & last & Hrun & Hcat & Hfull & Hlast & Hlen).
  exists (init ++ [last]), init, last. repeat split; try assumption.
  apply Forall_app. split.
  - eapply Forall_impl; [|exact Hfull]. simpl. intros b Hb. lia.
  - constructor; [exact Hlen | constructor].
Qed.

(** The theorem at seven items and batches of three. *)
Lemma split_reconstructs_items_witness :
  exists batches init last,
    Batch.split [1; 2; 3; 4; 5; 6; 7] 3 = Some batches
    /\ concat batches = [1; 2; 3; 4; 5; 6; 7]
    /\ Forall (fun b => Z.of_nat (length b) <= 3) batches
    /\ batches = init ++ [last]
    /\ Forall (fun b => Z.of_nat (length b) = 3) init
    /\ last <> [].
Proof.
  apply (split_reconstructs_items Z [1; 2; 3; 4; 5; 6; 7] 3).
  - discriminate.
  - lia.
Defined.

Example split_seven_by_three :
  Batch.split [1; 2; 3; 4; 5; 6; 7] 3 = Some [[1; 2; 3]; [4; 5; 6]; [7]].
Proof. reflexivity. Qed.

(** ** Email dispatch ([POST /send]) *)

Section SendFacts.

Context {W : Type}.
Variable sendLetter :
  Customer -> string -> string -> string -> Email.Options -> M W unit.
Variable delay : Js.num -> W -> W.
Variable body : Email.Request.

#[local] Abbreviation sendLoop := (Email.sendLoop sendLetter delay body).
#[local] Abbreviation outcome := (Email.outcome sendLetter delay body).
#[local] Abbreviation attempt := (Email.attempt sendLetter delay body).

Lemma sendLoop_cons customer rest i results w :
  sendLoop (customer :: rest) i results w =
  sendLoop rest (S i) (results ++ [fst (outcome customer i w)])
    (snd (outcome customer i w)).
Proof.
  unfold Email.outcome, Email.attempt. cbn [Email.sendLoop].
  destruct (negb (Js.truthy (get customer "EMAIL"))); [reflexivity|].
  destruct (sendLetter _ _ _ _ _ _) as [[u|e] w1]; reflexivity.
Qed.

(** The results collected before the loop is entered stay in front. *)
Lemma sendLoop_acc cs : forall i results w,
  sendLoop cs i results w =
  (results ++ fst (sendLoop cs i [] w), snd (sendLoop cs i [] w)).
Proof.
  induction cs as [|customer rest IH]; intros i results w.
  - simpl. now rewrite app_nil_r.
  - rewrite !sendLoop_cons.
    rewrite IH. rewrite (IH _ ([] ++ _)). simpl.
    now rewrite <- app_assoc.
Qed.

(** The loop over two lists in a row. *)
Lemma sendLoop_app pre : forall suf i results w,
  sendLoop (pre ++ suf) i results w =
  sendLoop suf (length pre + i)
    (fst (sendLoop pre i results w)) (snd (sendLoop pre i results w)).
Proof.
  induction pre as [|customer rest IH]; intros suf i results w.
  - reflexivity.
  - rewrite <- app_comm_cons. rewrite !sendLoop_cons. rewrite IH.
    simpl length. now rewrite Nat.add_succ_r.
Qed.

(** The customers the results stand for, in the order of the input. *)
Lemma sendLoop_customers cs : forall i results w,
  map Email.customer (fst (sendLoop cs i results w)) =
  map Email.customer results ++ map (Email.customerKey) cs.
Proof.
  induction cs as [|customer rest IH]; intros i results w.
  - simpl. now rewrite app_nil_r.
  - rewrite sendLoop_cons, IH. rewrite map_app, <- app_assoc. simpl.
    do 2 f_equal.
    unfold Email.outcome.
    destruct (negb (Js.truthy (get customer "EMAIL"))); [reflexivity|].
    destruct (attempt customer i w) as [[u|e] w1]; reflexivity.
Qed.

Lemma sendLoop_length cs i results w :
  length (fst (sendLoop cs i results w)) = (length results + length cs)%nat.
Proof.
  rewrite <- (length_map Email.customer), sendLoop_customers.
  now rewrite length_app, !length_map.
Qed.

(** Every result has one of the three statuses. *)
Lemma countStatus_total (results : list Email.EmailResult) :
  (Email.countStatus Email.sent results
   + Email.countStatus Email.failed results
   + Email.countStatus Email.skipped results)%nat = length results.
Proof.
  unfold Email.countStatus.
  induction results as [|r results IH]; [reflexivity|].
  simpl. destruct (Email.status r); simpl; lia.
Qed.

Lemma countStatus_app s (xs ys : list Email.EmailResult) :
  Email.countStatus s (xs ++ ys)
  = (Email.countStatus s xs + Email.countStatus s ys)%nat.
Proof.
  unfold Email.countStatus. now rewrite filter_app, length_app.
Qed.

#[local] Abbreviation sendHandler := (Email.sendHandler sendLetter delay body).

(** The handler replies with the results of the loop and their counts. *)
Lemma sendHandler_reply (w : W) :
  sendHandler w =
  (Ok200
     {| Email.statistics :=
          {| Email.total := length (Email.customers body);
             Email.sentCount :=
               Email.countStatus Email.sent
                 (fst (sendLoop (Email.customers body) 0 [] w));
             Email.failedCount :=
               Email.countStatus Email.failed
                 (fst (sendLoop (Email.customers body) 0 [] w));
             Email.skippedCount :=
               Email.countStatus Email.skipped
                 (fst (sendLoop (Email.customers body) 0 [] w)) |};
        Email.results := fst (sendLoop (Email.customers body) 0 [] w) |},
   snd (sendLoop (Email.customers body) 0 [] w)).
Proof.
  unfold Email.sendHandler.
  destruct (sendLoop (Email.customers body) 0 [] w) as [results w'].
  reflexivity.
Qed.

(** C10.  Whatever the customers and whatever the mailer does on each
    call, the handler replies with one result for each customer, in the
    order of the input; [total] is the number of customers and is the sum
    of [sent], [failed] and [skipped], each of which is the number of
    results of that status. *)
Theorem send_one_result_per_customer (w : W) :
  exists reply w',
    sendHandler w = (Ok200 reply, w')
    /\ length (Email.results reply) = length (Email.customers body)
    /\ map Email.customer (Email.results reply)
       = map Email.customerKey (Email.customers body)
    /\ Email.total (Email.statistics reply) = length (Email.customers body)
    /\ Email.total (Email.statistics reply)
       = (Email.sentCount (Email.statistics reply)
          + Email.failedCount (Email.statistics reply)
          + Email.skippedCount (Email.statistics reply))%nat
    /\ Email.sentCount (Email.statistics reply)
       = Email.countStatus Email.sent (Email.results reply)
    /\ Email.failedCount (Email.statistics reply)
       = Email.countStatus Email.failed (Email.results reply)
    /\ Email.skippedCount (Email.statistics reply)
       = Email.countStatus Email.skipped (Email.results reply).
Proof.
  eexists. eexists. split; [apply sendHandler_reply|]. simpl.
  repeat split.
  - now rewrite sendLoop_length.
  - now rewrite sendLoop_customers.
  - rewrite countStatus_total. now rewrite sendLoop_length.
Qed.

(** A failure of the mailer for one customer, in the handler: the
    customers before it have the results they have without it, its own
    result is [failed] with the message of the error, and the customers
    after it are processed from the world the failed call left. *)
Lemma send_failure_isolated (pre suf : list Customer) (c : Customer)
    (e : Error) (w w2 : W) :
  Email.customers body = pre ++ c :: suf ->
  Js.truthy (get c "EMAIL") = true ->
  attempt c (length pre) (snd (sendLoop pre 0 [] w)) = (Throw e, w2) ->
  exists reply w',
    sendHandler w = (Ok200 reply, w')
    /\ Email.results reply
       = fst (sendLoop pre 0 [] w)
         ++ Email.failedResult c e
         :: fst (sendLoop suf (S (length pre)) [] w2)
    /\ w' = snd (sendLoop suf (S (length pre)) [] w2).
Proof.
  intros Hcs Hemail Hfail.
  eexists. eexists. split; [apply sendHandler_reply|]. simpl.
  assert (Hout : outcome c (length pre) (snd (sendLoop pre 0 [] w))
                 = (Email.failedResult c e, w2)).
  { unfold Email.outcome. now rewrite Hemail, Hfail. }
  rewrite Hcs, sendLoop_app, sendLoop_cons.
  rewrite Nat.add_0_r, Hout. simpl.
  rewrite sendLoop_acc. simpl.
  split; [|reflexivity].
  now rewrite <- app_assoc.
Qed.

(** Three customers with an address, the mailer throws for the second
    one only. *)
Lemma send_second_of_three_fails (c1 c2 c3 : Customer) (e : Error)
    (w0 w1 w2 w3 : W) :
  Email.customers body = [c1; c2; c3] ->
  Js.truthy (get c1 "EMAIL") = true ->
  Js.truthy (get c2 "EMAIL") = true ->
  Js.truthy (get c3 "EMAIL") = true ->
  attempt c1 0 w0 = (Ret tt, w1) ->
  attempt c2 1 w1 = (Throw e, w2) ->
  attempt c3 2 w2 = (Ret tt, w3) ->
  sendHandler w0 =
  (Ok200
     {| Email.statistics :=
          {| Email.total := 3; Email.sentCount := 2;
             Email.failedCount := 1; Email.skippedCount := 0 |};
        Email.results :=
          [Email.sentResult c1; Email.failedResult c2 e;
           Email.sentResult c3] |}, w3).
Proof.
  intros Hcs H1 H2 H3 A1 A2 A3.
  rewrite sendHandler_reply, Hcs.
  rewrite !sendLoop_cons. unfold Email.outcome.
  rewrite H1, A1. simpl. rewrite H2, A2. simpl. rewrite H3, A3. simpl.
  reflexivity.
Qed.

(** C3.  A failure of the mailer for one customer is caught and recorded
    as a [failed] result for that customer only, and the customers after
    it are still processed.  With three customers who have an address and
    a mailer that throws for the second one only, the statistics are
    [{total: 3, sent: 2, failed: 1, skipped: 0}] and the results follow
    the order of the input. *)
Theorem send_failure_does_not_stop_the_rest :
  (forall (pre suf : list Customer) (c : Customer) (e : Error) (w w2 : W),
      Email.customers body = pre ++ c :: suf ->
      Js.truthy (get c "EMAIL") = true ->
      attempt c (length pre) (snd (sendLoop pre 0 [] w)) = (Throw e, w2) ->
      exists reply w',
        sendHandler w = (Ok200 reply, w')
        /\ Email.results reply
           = fst (sendLoop pre 0 [] w)
             ++ Email.failedResult c e
             :: fst (sendLoop suf (S (length pre)) [] w2)
        /\ w' = snd (sendLoop suf (S (length pre)) [] w2)
        /\ length (Email.results reply) = length (Email.customers body))
  /\
  (forall (c1 c2 c3 : Customer) (e : Error) (w0 w1 w2 w3 : W),
      Email.customers body = [c1; c2; c3] ->
      Js.truthy (get c1 "EMAIL") = true ->
      Js.truthy (get c2 "EMAIL") = true ->
      Js.truthy (get c3 "EMAIL") = true ->
      attempt c1 0 w0 = (Ret tt, w1) ->
      attempt c2 1 w1 = (Throw e, w2) ->
      attempt c3 2 w2 = (Ret tt, w3) ->
      exists reply,
        sendHandler w0 = (Ok200 reply, w3)
        /\ Email.statistics reply
           = {| Email.total := 3; Email.sentCount := 2;
                Email.failedCount := 1; Email.skippedCount := 0 |}
        /\ map Email.status (Email.results reply)
           = [Email.sent; Email.failed; Email.sent]
        /\ map Email.customer (Email.results reply)
           = map Email.customerKey [c1; c2; c3]
        /\ map Email.error (Email.results reply)
           = [None; Some (message e); None]).
Proof.
  split.
  - intros pre suf c e w w2 Hcs Hemail Hfail.
    destruct (send_failure_isolated pre suf c e w w2 Hcs Hemail Hfail)
      as (reply & w' & Hrun & Hres & Hw).
    exists reply, w'. repeat split; try assumption.
    rewrite sendHandler_reply in Hrun. injection Hrun as <- _. simpl.
    now rewrite sendLoop_length.
  - intros c1 c2 c3 e w0 w1 w2 w3 Hcs H1 H2 H3 A1 A2 A3.
    eexists. split.
    + apply (send_second_of_three_fails c1 c2 c3 e w0 w1 w2 w3); assumption.
    + repeat split.
Qed.

End SendFacts.

(** The theorem on the sample request: the mailer throws for the second
    of three customers. *)
Lemma send_failure_does_not_stop_the_rest_witness :
  (exists reply w',
      Email.sendHandler Sample.mailerDownOnce Sample.noDelay
        Sample.emailRequest 0%nat = (Ok200 reply, w')
      /\ Email.results reply
         = fst (Email.sendLoop Sample.mailerDownOnce Sample.noDelay
                  Sample.emailRequest [Sample.amit] 0 [] 0%nat)
           ++ Email.failedResult Sample.sita Sample.deliveryFailed
           :: fst (Email.sendLoop Sample.mailerDownOnce Sample.noDelay
                     Sample.emailRequest [Sample.ramesh] 2 [] 2%nat)
      /\ w' = snd (Email.sendLoop Sample.mailerDownOnce Sample.noDelay
                     Sample.emailRequest [Sample.ramesh] 2 [] 2%nat)
      /\ length (Email.results reply) = 3%nat)
  /\
  (exists reply,
      Email.sendHandler Sample.mailerDownOnce Sample.noDelay
        Sample.emailRequest 0%nat = (Ok200 reply, 3%nat)
      /\ Email.statistics reply
         = {| Email.total := 3; Email.sentCount := 2;
              Email.failedCount := 1; Email.skippedCount := 0 |}
      /\ map Email.status (Email.results reply)
         = [Email.sent; Email.failed; Email.sent]
      /\ map Email.customer (Email.results reply)
         = map Email.customerKey [Sample.amit; Sample.sita; Sample.ramesh]
      /\ map Email.error (Email.results reply)
         = [None; Some (message Sample.deliveryFailed); None]).
Proof.
  split.
  - apply (proj1 (send_failure_does_not_stop_the_rest Sample.mailerDownOnce
                    Sample.noDelay Sample.emailRequest)
             [Sample.amit] [Sample.ramesh] Sample.sita Sample.deliveryFailed
             0%nat 2%nat); reflexivity.
  - apply (proj2 (send_failure_does_not_stop_the_rest Sample.mailerDownOnce
                    Sample.noDelay Sample.emailRequest)
             Sample.amit Sample.sita Sample.ramesh Sample.deliveryFailed
             0%nat 1%nat 2%nat 3%nat); reflexivity.
Defined.

(** ** Letter generation ([POST /generate]) *)

Section GenerateFacts.

Context {W : Type}.
Variable generateLetterContent : Customer -> string -> string -> M W Letters.LetterData.
Variable generateLetterPDF : string -> Customer -> M W Letters.Buffer.
Variable body : Letters.Request.

#[local] Abbreviation generateLoop :=
  (Letters.generateLoop generateLetterContent generateLetterPDF body).
#[local] Abbreviation step :=
  (Letters.step generateLetterContent generateLetterPDF body).
#[local] Abbreviation generateHandler :=
  (Letters.generateHandler generateLetterContent generateLetterPDF body).
#[local] Abbreviation render :=
  (fun customer => generateLetterContent customer (Letters.issueType body)
                     (Letters.customMessage body)).

Lemma generateLoop_cons customer rest i letters errors w :
  generateLoop (customer :: rest) i letters errors w =
  generateLoop rest (S i)
    (Letters.pushLetter letters (fst (step customer i w)))
    (Letters.pushError errors (fst (step customer i w)))
    (snd (step customer i w)).
Proof.
  unfold Letters.step. cbn [Letters.generateLoop].
  destruct (generateLetterContent _ _ _ _) as [[letterData|e] w1];
    [|reflexivity].
  destruct (Letters.pdfRequested body); [|reflexivity].
  destruct (generateLetterPDF _ _ _) as [[pdfBuffer|pdfError] w2]; reflexivity.
Qed.

(** What was collected before the loop is entered stays in front. *)
Lemma generateLoop_acc cs : forall i letters errors w,
  generateLoop cs i letters errors w =
  ((letters ++ fst (fst (generateLoop cs i [] [] w)),
    errors ++ snd (fst (generateLoop cs i [] [] w))),
   snd (generateLoop cs i [] [] w)).
Proof.
  induction cs as [|customer rest IH]; intros i letters errors w.
  - simpl. now rewrite !app_nil_r.
  - rewrite !generateLoop_cons.
    rewrite IH. rewrite (IH _ (Letters.pushLetter [] _) (Letters.pushError [] _)).
    destruct (step customer i w) as [[r|e] w1]; simpl;
      now rewrite <- ?app_assoc, ?app_nil_r.
Qed.

(** The loop over two lists in a row. *)
Lemma generateLoop_app pre : forall suf i letters errors w,
  generateLoop (pre ++ suf) i letters errors w =
  generateLoop suf (length pre + i)
    (fst (fst (generateLoop pre i letters errors w)))
    (snd (fst (generateLoop pre i letters errors w)))
    (snd (generateLoop pre i letters errors w)).
Proof.
  induction pre as [|customer rest IH]; intros suf i letters errors w.
  - reflexivity.
  - rewrite <- app_comm_cons. rewrite !generateLoop_cons. rewrite IH.
    simpl length. now rewrite Nat.add_succ_r.
Qed.

(** Every customer ends up in exactly one of the two lists. *)
Lemma generateLoop_length cs : forall i letters errors w,
  (length (fst (fst (generateLoop cs i letters errors w)))
   + length (snd (fst (generateLoop cs i letters errors w))))%nat
  = (length letters + length errors + length cs)%nat.
Proof.
  induction cs as [|customer rest IH]; intros i letters errors w.
  - simpl. lia.
  - rewrite generateLoop_cons, IH.
    destruct (step customer i w) as [[r|e] w1]; simpl;
      rewrite length_app; simpl; lia.
Qed.

(** A turn of the loop produces an error exactly when the template
    renderer throws. *)
Lemma step_error_iff_render_throws customer i w :
  (exists e w', fst (step customer i w) = inr (Letters.letterError customer e)
                /\ render customer w = (Throw e, w'))
  <-> (exists err, fst (step customer i w) = inr err).
Proof.
  unfold Letters.step.
  destruct (generateLetterContent _ _ _ _) as [[letterData|e] w1] eqn:Hr.
  - split.
    + intros (e & w' & _ & H). discriminate.
    + intros (err & H). exfalso.
      destruct (Letters.pdfRequested body);
        [destruct (generateLetterPDF _ _ _) as [[?|?] ?]|]; discriminate.
  - split.
    + intros _. eexists. reflexivity.
    + intros _. exists e, w1. split; reflexivity.
Qed.

(** The handler replies with what the loop collected. *)
Lemma generateHandler_reply (w : W) :
  exists reply,
    generateHandler w
      = (Ok200 reply, snd (generateLoop (Letters.customers body) 0 [] [] w))
    /\ Letters.letters reply
       = fst (fst (generateLoop (Letters.customers body) 0 [] [] w))
    /\ Letters.errorList (Letters.errors reply)
       = snd (fst (generateLoop (Letters.customers body) 0 [] [] w))
    /\ Letters.count reply = length (Letters.letters reply)
    /\ Letters.successful (Letters.statistics reply)
       = length (Letters.letters reply)
    /\ Letters.failed (Letters.statistics reply)
       = length (Letters.errorList (Letters.errors reply))
    /\ Letters.totalRequested (Letters.statistics reply)
       = length (Letters.customers body).
Proof.
  unfold Letters.generateHandler.
  destruct (generateLoop (Letters.customers body) 0 [] [] w)
    as [[letters errors] w'].
  eexists. split; [reflexivity|]. simpl.
  repeat split; destruct errors; reflexivity.
Qed.

(** A failure of the PDF renderer for one customer, in the handler: the
    letter stays in [letters] with the error noted, nothing is added to
    [errors], and the loop goes on with the customers after it. *)
Lemma generate_pdf_failure_kept (pre suf : list Customer) (c : Customer)
    (letterData : Letters.LetterData) (pdfError : Error) (w w1 w2 : W) :
  Letters.customers body = pre ++ c :: suf ->
  Letters.pdfRequested body = true ->
  render c (snd (generateLoop pre 0 [] [] w)) = (Ret letterData, w1) ->
  generateLetterPDF (Letters.ld_content letterData) c w1 = (Throw pdfError, w2) ->
  exists reply w',
    generateHandler w = (Ok200 reply, w')
    /\ Letters.letters reply
       = fst (fst (generateLoop pre 0 [] [] w))
         ++ Letters.withPdfError
              (Letters.letterResult c (length pre) letterData) pdfError
         :: fst (fst (generateLoop suf (S (length pre)) [] [] w2))
    /\ Letters.errorList (Letters.errors reply)
       = snd (fst (generateLoop pre 0 [] [] w))
         ++ snd (fst (generateLoop suf (S (length pre)) [] [] w2)).
Proof.
  intros Hcs Hpdf Hrender Hfail.
  destruct (generateHandler_reply w)
    as (reply & Hrun & Hletters & Herrors & _).
  exists reply. eexists. split; [exact Hrun|].
  rewrite Hletters, Herrors.
  assert (Hstep : step c (length pre) (snd (generateLoop pre 0 [] [] w))
                  = (inl (Letters.withPdfError
                            (Letters.letterResult c (length pre) letterData)
                            pdfError), w2)).
  { unfold Letters.step. rewrite Hrender, Hpdf, Hfail. reflexivity. }
  rewrite Hcs, generateLoop_app, generateLoop_cons.
  rewrite Nat.add_0_r, Hstep. simpl.
  rewrite generateLoop_acc. simpl.
  split; [now rewrite <- app_assoc | reflexivity].
Qed.

(** A failure of the template renderer for one customer, in the handler:
    no letter is filed for the customer, the error is added to [errors]
    under the account number (or the name), and the loop goes on with
    the customers after it. *)
Lemma generate_template_failure_filed (pre suf : list Customer) (c : Customer)
    (e : Error) (w w2 : W) :
  Letters.customers body = pre ++ c :: suf ->
  render c (snd (generateLoop pre 0 [] [] w)) = (Throw e, w2) ->
  exists reply w',
    generateHandler w = (Ok200 reply, w')
    /\ Letters.letters reply
       = fst (fst (generateLoop pre 0 [] [] w))
         ++ fst (fst (generateLoop suf (S (length pre)) [] [] w2))
    /\ Letters.errorList (Letters.errors reply)
       = snd (fst (generateLoop pre 0 [] [] w))
         ++ Letters.letterError c e
         :: snd (fst (generateLoop suf (S (length pre)) [] [] w2)).
Proof.
  intros Hcs Hrender.
  destruct (generateHandler_reply w)
    as (reply & Hrun & Hletters & Herrors & _).
  exists reply. eexists. split; [exact Hrun|].
  rewrite Hletters, Herrors.
  assert (Hstep : step c (length pre) (snd (generateLoop pre 0 [] [] w))
                  = (inr (Letters.letterError c e), w2)).
  { unfold Letters.step. rewrite Hrender. reflexivity. }
  rewrite Hcs, generateLoop_app, generateLoop_cons.
  rewrite Nat.add_0_r, Hstep. simpl.
  rewrite generateLoop_acc. simpl.
  split; [reflexivity | now rewrite <- app_assoc].
Qed.

(** The world in which the loop reaches the customers after the first. *)
Lemma generateLoop_world_cons customer pre i w :
  snd (generateLoop (customer :: pre) i [] [] w)
  = snd (generateLoop pre (S i) [] [] (snd (step customer i w))).
Proof.
  rewrite generateLoop_cons, generateLoop_acc. reflexivity.
Qed.

(** Every element of [errors] comes from a throw of the template
    renderer, for the customer it names. *)
Lemma generateLoop_errors_are_template_failures cs : forall i w err,
  In err (snd (fst (generateLoop cs i [] [] w))) ->
  exists pre c suf e w2,
    cs = pre ++ c :: suf
    /\ render c (snd (generateLoop pre i [] [] w)) = (Throw e, w2)
    /\ err = Letters.letterError c e.
Proof.
  induction cs as [|customer rest IH]; intros i w err Hin.
  - destruct Hin.
  - rewrite generateLoop_cons, generateLoop_acc in Hin. cbn [fst snd] in Hin.
    apply in_app_or in Hin.
    assert (Hrest : In err (snd (fst (generateLoop rest (S i) [] []
                                      (snd (step customer i w))))) ->
                    exists pre c suf e w2,
                      customer :: rest = pre ++ c :: suf
                      /\ render c (snd (generateLoop pre i [] [] w))
                         = (Throw e, w2)
                      /\ err = Letters.letterError c e).
    { intros H. apply IH in H.
      destruct H as (pre & c & suf & e & w2 & -> & Hr & ->).
      exists (customer :: pre), c, suf, e, w2.
      split; [reflexivity|]. split; [|reflexivity].
      now rewrite generateLoop_world_cons. }
    destruct Hin as [Hin|Hin]; [|now apply Hrest].
    unfold Letters.step in Hin.
    destruct (generateLetterContent customer _ _ w) as [[letterData|e] w1] eqn:Hr.
    + exfalso.
      destruct (Letters.pdfRequested body);
        [destruct (generateLetterPDF _ _ _) as [[?|?] ?]|]; destruct Hin.
    + destruct Hin as [<-|[]].
      exists [], customer, rest, e, w1. repeat split. exact Hr.
Qed.

(** Every element of [letters] comes from a return of the template
    renderer, for the customer it names, and carries the subject and
    the content the renderer returned. *)
Lemma generateLoop_letters_are_rendered cs : forall i w r,
  In r (fst (fst (generateLoop cs i [] [] w))) ->
  exists pre c suf letterData w1,
    cs = pre ++ c :: suf
    /\ render c (snd (generateLoop pre i [] [] w)) = (Ret letterData, w1)
    /\ Letters.customerName r = get c "NAME"
    /\ Letters.subject r = Letters.ld_subject letterData
    /\ Letters.content r = Letters.ld_content letterData.
Proof.
  induction cs as [|customer rest IH]; intros i w r Hin.
  - destruct Hin.
  - rewrite generateLoop_cons, generateLoop_acc in Hin. cbn [fst snd] in Hin.
    apply in_app_or in Hin.
    destruct Hin as [Hin|Hin].
    + unfold Letters.step in Hin.
      destruct (generateLetterContent customer _ _ w) as [[letterData|e] w1] eqn:Hr;
        [|destruct Hin].
      exists [], customer, rest, letterData, w1.
      split; [reflexivity|]. split; [exact Hr|].
      destruct (Letters.pdfRequested body);
        [destruct (generateLetterPDF _ _ _) as [[?|?] ?]|];
        destruct Hin as [<-|[]]; repeat split.
    + apply IH in Hin.
      destruct Hin as (pre & c & suf & letterData & w1 & -> & Hr & H).
      exists (customer :: pre), c, suf, letterData, w1.
      split; [reflexivity|]. split; [|exact H].
      now rewrite generateLoop_world_cons.
Qed.

(** C9.  With PDF output requested, a failure of the PDF renderer for
    one customer leaves the letter of that customer in [letters], with
    its subject and content and the message of the error as [pdfError];
    the customer is not counted as failed, and the customers after it
    are processed.  A failure of the template renderer for one customer
    files no letter for it: the reply holds the letters of the customers
    before and after it, and its [errors] hold one element for the
    customer, under its account number (or name) with the message of
    the error.  In every reply each element of [errors] comes from a
    throw of the template renderer for one of the customers, each
    element of [letters] carries the subject and the content the
    template renderer returned for one of the customers, and every
    customer is counted once, as successful or as failed. *)
Theorem pdf_failure_keeps_the_letter :
  (forall (pre suf : list Customer) (c : Customer)
          (letterData : Letters.LetterData) (pdfError : Error) (w w1 w2 : W),
      Letters.customers body = pre ++ c :: suf ->
      Letters.pdfRequested body = true ->
      render c (snd (generateLoop pre 0 [] [] w)) = (Ret letterData, w1) ->
      generateLetterPDF (Letters.ld_content letterData) c w1
        = (Throw pdfError, w2) ->
      exists reply w' kept,
        generateHandler w = (Ok200 reply, w')
        /\ Letters.letters reply
           = fst (fst (generateLoop pre 0 [] [] w))
             ++ kept :: fst (fst (generateLoop suf (S (length pre)) [] [] w2))
        /\ Letters.subject kept = Letters.ld_subject letterData
        /\ Letters.content kept = Letters.ld_content letterData
        /\ Letters.pdfError kept = Some (message pdfError)
        /\ Letters.errorList (Letters.errors reply)
           = snd (fst (generateLoop pre 0 [] [] w))
             ++ snd (fst (generateLoop suf (S (length pre)) [] [] w2))
        /\ Letters.successful (Letters.statistics reply)
           = length (Letters.letters reply)
        /\ Letters.failed (Letters.statistics reply)
           = length (Letters.errorList (Letters.errors reply)))
  /\
  (forall (pre suf : list Customer) (c : Customer) (e : Error) (w w2 : W),
      Letters.customers body = pre ++ c :: suf ->
      render c (snd (generateLoop pre 0 [] [] w)) = (Throw e, w2) ->
      exists reply w' filed,
        generateHandler w = (Ok200 reply, w')
        /\ Letters.letters reply
           = fst (fst (generateLoop pre 0 [] [] w))
             ++ fst (fst (generateLoop suf (S (length pre)) [] [] w2))
        /\ Letters.errorList (Letters.errors reply)
           = snd (fst (generateLoop pre 0 [] [] w))
             ++ filed :: snd (fst (generateLoop suf (S (length pre)) [] [] w2))
        /\ Letters.customer filed = (get c "ACCOUNT_NO" <||> get c "NAME")
        /\ Letters.error filed = message e
        /\ Letters.successful (Letters.statistics reply)
           = length (Letters.letters reply)
        /\ Letters.failed (Letters.statistics reply)
           = length (Letters.errorList (Letters.errors reply)))
  /\
  (forall w : W,
      exists reply w',
        generateHandler w = (Ok200 reply, w')
        /\ (forall err,
              In err (Letters.errorList (Letters.errors reply)) ->
              exists pre c suf e w2,
                Letters.customers body = pre ++ c :: suf
                /\ render c (snd (generateLoop pre 0 [] [] w)) = (Throw e, w2)
                /\ err = Letters.letterError c e)
        /\ (forall r,
              In r (Letters.letters reply) ->
              exists pre c suf letterData w1,
                Letters.customers body = pre ++ c :: suf
                /\ render c (snd (generateLoop pre 0 [] [] w))
                   = (Ret letterData, w1)
                /\ Letters.customerName r = get c "NAME"
                /\ Letters.subject r = Letters.ld_subject letterData
                /\ Letters.content r = Letters.ld_content letterData)
        /\ (Letters.successful (Letters.statistics reply)
            + Letters.failed (Letters.statistics reply))%nat
           = Letters.totalRequested (Letters.statistics reply)).
Proof.
  split; [|split].
  - intros pre suf c letterData pdfError w w1 w2 Hcs Hpdf Hrender Hfail.
    destruct (generate_pdf_failure_kept pre suf c letterData pdfError
                w w1 w2 Hcs Hpdf Hrender Hfail)
      as (reply & w' & Hrun & Hletters & Herrors).
    destruct (generateHandler_reply w)
      as (reply' & Hrun' & _ & _ & _ & Hok & Hfailed & _).
    rewrite Hrun in Hrun'. injection Hrun' as <- _.
    exists reply, w'. eexists.
    repeat split; first [eassumption | reflexivity].
  - intros pre suf c e w w2 Hcs Hrender.
    destruct (generate_template_failure_filed pre suf c e w w2 Hcs Hrender)
      as (reply & w' & Hrun & Hletters & Herrors).
    destruct (generateHandler_reply w)
      as (reply' & Hrun' & _ & _ & _ & Hok & Hfailed & _).
    rewrite Hrun in Hrun'. injection Hrun' as <- _.
    exists reply, w'. eexists.
    repeat split; first [eassumption | reflexivity].
  - intros w.
    destruct (generateHandler_reply w)
      as (reply & Hrun & Hletters & Herrors & _ & Hok & Hfailed & Htotal).
    exists reply. eexists. split; [exact Hrun|].
    split; [|split].
    + intros err Hin. rewrite Herrors in Hin.
      now apply generateLoop_errors_are_template_failures.
    + intros r Hin. rewrite Hletters in Hin.
      now apply generateLoop_letters_are_rendered.
    + rewrite Hok, Hfailed, Htotal, Hletters, Herrors.
      now rewrite generateLoop_length.
Qed.

End GenerateFacts.

(** The theorem on the sample request: the PDF renderer throws for the
    second of three customers; and on the same request with a template
    renderer that throws for the second customer. *)
Lemma pdf_failure_keeps_the_letter_witness :
  (exists reply w' kept,
      Letters.generateHandler Sample.renderer Sample.pdfDownOnce
        Sample.letterRequest 0%nat = (Ok200 reply, w')
      /\ Letters.letters reply
         = fst (fst (Letters.generateLoop Sample.renderer Sample.pdfDownOnce
                       Sample.letterRequest [Sample.amit] 0 [] [] 0%nat))
           ++ kept
           :: fst (fst (Letters.generateLoop Sample.renderer Sample.pdfDownOnce
                          Sample.letterRequest [Sample.ramesh] 2 [] [] 2%nat))
      /\ Letters.subject kept = "Notice - kyc_update"%string
      /\ Letters.content kept = "Dear Sita Rao"%string
      /\ Letters.pdfError kept = Some (message Sample.pdfFailed)
      /\ Letters.errorList (Letters.errors reply) = []
      /\ Letters.successful (Letters.statistics reply)
         = length (Letters.letters reply)
      /\ Letters.failed (Letters.statistics reply)
         = length (Letters.errorList (Letters.errors reply)))
  /\
  (exists reply w' filed,
      Letters.generateHandler Scenario.rendererFailsForSita Sample.pdfDownOnce
        Sample.letterRequest 0%nat = (Ok200 reply, w')
      /\ Letters.letters reply
         = fst (fst (Letters.generateLoop Scenario.rendererFailsForSita
                       Sample.pdfDownOnce Sample.letterRequest
                       [Sample.amit] 0 [] [] 0%nat))
           ++ fst (fst (Letters.generateLoop Scenario.rendererFailsForSita
                          Sample.pdfDownOnce Sample.letterRequest
                          [Sample.ramesh] 2 [] [] 1%nat))
      /\ Letters.errorList (Letters.errors reply)
         = [] ++ filed :: []
      /\ Letters.customer filed = Some (Sample.str "SBIN0001002")
      /\ Letters.error filed = message Scenario.templateFailed
      /\ Letters.successful (Letters.statistics reply)
         = length (Letters.letters reply)
      /\ Letters.failed (Letters.statistics reply)
         = length (Letters.errorList (Letters.errors reply))).
Proof.
  split.
  - apply (proj1 (pdf_failure_keeps_the_letter Sample.renderer
                    Sample.pdfDownOnce Sample.letterRequest)
             [Sample.amit] [Sample.ramesh] Sample.sita
             {| Letters.ld_subject := "Notice - kyc_update";
                Letters.ld_content := "Dear Sita Rao";
                Letters.ld_urgency := Some "high"%string |}
             Sample.pdfFailed 0%nat 1%nat 2%nat); reflexivity.
  - apply (proj1 (proj2 (pdf_failure_keeps_the_letter
                           Scenario.rendererFailsForSita
                           Sample.pdfDownOnce Sample.letterRequest))
             [Sample.amit] [Sample.ramesh] Sample.sita
             Scenario.templateFailed 0%nat 1%nat); reflexivity.
Defined.

(** With that template renderer the reply holds two letters and one
    error. *)
Example generate_template_failure_statistics :
  exists reply,
    fst (Letters.generateHandler Scenario.rendererFailsForSita
           Sample.pdfDownOnce Sample.letterRequest 0%nat) = Ok200 reply
    /\ map Letters.customerId (Letters.letters reply)
       = [Some (Sample.str "SBIN0001001"); Some (Sample.str "SBIN0001003")]
    /\ Letters.errors reply
       = Some [{| Letters.customer := Some (Sample.str "SBIN0001002");
                  Letters.error := message Scenario.templateFailed |}]
    /\ Letters.statistics reply
       = {| Letters.totalRequested := 3; Letters.successful := 2;
            Letters.failed := 1 |}.
Proof. eexists. split; [reflexivity|]. repeat split. Qed.

Example generate_sample_statistics :
  fst (Letters.generateHandler Sample.renderer Sample.pdfDownOnce
         Sample.letterRequest 0%nat)
  = Ok200
      {| Letters.count := 3;
         Letters.letters :=
           fst (fst (Letters.generateLoop Sample.renderer Sample.pdfDownOnce
                       Sample.letterRequest
                       [Sample.amit; Sample.sita; Sample.ramesh] 0 [] []
                       0%nat));
         Letters.errors := None;
         Letters.statistics :=
           {| Letters.totalRequested := 3; Letters.successful := 3;
              Letters.failed := 0 |} |}.
Proof. reflexivity. Qed.

(** ** The rules *)

Section RuleFacts.

Context {B : Builtins}.

(** A truthy value is not [undefined]. *)
Lemma truthy_defined (v : Js.field) :
  Js.truthy v = true -> exists x, v = Some x.
Proof. destruct v as [x|]; [now exists x | discriminate]. Qed.

(** [n || 0] and [n] with [NaN] replaced by [0] compare alike. *)
Lemma leb_num_or_zero (n : Js.num) (z : Z) :
  0 <= z ->
  Js.leb (Js.num_or n (Js.int 0)) (Js.int z)
  = Js.leb (Spec.parsedOr 0 n) (Js.int z).
Proof.
  intros Hz. destruct n as [| |q|]; try reflexivity.
  unfold Js.num_or. simpl.
  destruct (Qeq_bool q 0) eqn:E; [|reflexivity].
  simpl. apply Qeq_bool_iff in E.
  transitivity true.
  - apply Qle_bool_iff. unfold Qle. simpl. lia.
  - symmetry. apply Qle_bool_iff. rewrite E. unfold Qle. simpl. lia.
Qed.

(** The balance the code computes compares with 100 like the parsed
    value of the first truthy property among [BALANCE] and [balance]. *)
Lemma accountBalance_aliases (c : Customer) :
  Js.leb (Customers.accountBalance c) (Js.int 100)
  = Js.leb (Spec.parsedOrZero (Spec.firstTruthy c ["BALANCE"; "balance"]))
      (Js.int 100).
Proof.
  unfold Customers.accountBalance, Js.or_else. cbn [Spec.firstTruthy].
  destruct (Js.truthy (get c "BALANCE")) eqn:E1.
  - destruct (truthy_defined _ E1) as [x Hx]. rewrite Hx in *.
    rewrite E1. unfold Spec.parsedOrZero. apply leb_num_or_zero. lia.
  - destruct (Js.truthy (get c "balance")) eqn:E2.
    + destruct (truthy_defined _ E2) as [x Hx]. rewrite Hx in *.
      unfold Spec.parsedOrZero. apply leb_num_or_zero. lia.
    + reflexivity.
Qed.

(** The days the code computes are those of the first truthy property
    among the three spellings of the last transaction. *)
Lemma daysSinceLastTransaction_aliases (now : Z) (c : Customer) :
  Customers.daysSinceLastTransaction now c
  = Spec.daysSince now
      (Spec.firstTruthy c
         ["LAST_TRANSACTION"; "last_transaction"; "lastTransaction"]).
Proof.
  assert (Hdef : forall v, Js.truthy v = true ->
            match newDate v with
            | Some t => (now - t) / Customers.msPerDay
            | None => 9999
            end = Spec.daysSince now v).
  { intros v Hv. destruct (truthy_defined _ Hv) as [x ->]. reflexivity. }
  unfold Customers.daysSinceLastTransaction, Js.or_else.
  cbn [Spec.firstTruthy].
  destruct (Js.truthy (get c "LAST_TRANSACTION")) eqn:E1.
  - repeat (rewrite ?E1; cbv iota). now apply Hdef.
  - destruct (Js.truthy (get c "last_transaction")) eqn:E2.
    + repeat (rewrite ?E2; cbv iota). now apply Hdef.
    + destruct (Js.truthy (get c "lastTransaction")) eqn:E3.
      * repeat (rewrite ?E3; cbv iota). now apply Hdef.
      * reflexivity.
Qed.

Lemma rule_account_closure_aliases (now : Z) (c : Customer) :
  Customers.rule_account_closure now c = true
  <-> Spec.account_closure_aliases now c.
Proof.
  unfold Customers.rule_account_closure, Spec.account_closure_aliases.
  rewrite orb_true_iff, accountBalance_aliases,
    daysSinceLastTransaction_aliases, Z.ltb_lt.
  reflexivity.
Qed.

(** On a record that has none of the lower-case spellings, whose balance
    is missing, a number or a non-empty text, and whose last transaction
    is missing or a non-empty text, the rule is the one the
    specification states on [BALANCE] and [LAST_TRANSACTION]. *)
Lemma account_closure_canonical (now : Z) (c : Customer) :
  get c "balance" = None ->
  get c "last_transaction" = None ->
  get c "lastTransaction" = None ->
  get c "BALANCE" = None
    \/ (exists n, get c "BALANCE" = Some (Js.VNum n))
    \/ Js.truthy (get c "BALANCE") = true ->
  get c "LAST_TRANSACTION" = None
    \/ Js.truthy (get c "LAST_TRANSACTION") = true ->
  Customers.rule_account_closure now c = true <-> Spec.account_closure now c.
Proof.
  intros H1 H2 H3 Hb Hd.
  unfold Customers.rule_account_closure, Spec.account_closure.
  rewrite orb_true_iff, Z.ltb_lt, daysSinceLastTransaction_aliases.
  cbn [Spec.firstTruthy]. rewrite H2, H3. cbn [Js.truthy].
  assert (Hdays : (if Js.truthy (get c "LAST_TRANSACTION")
                   then get c "LAST_TRANSACTION" else None)
                  = get c "LAST_TRANSACTION").
  { destruct Hd as [Hd|Hd]; rewrite Hd; reflexivity. }
  rewrite Hdays.
  assert (Hbal : Js.leb (Customers.accountBalance c) (Js.int 100)
                 = Js.leb (Spec.parsedOrZero (get c "BALANCE")) (Js.int 100)).
  { destruct Hb as [Hb|[(n & Hb)|Hb]].
    - rewrite accountBalance_aliases. cbn [Spec.firstTruthy].
      now rewrite Hb, H1.
    - unfold Customers.accountBalance, Js.or_else. rewrite Hb, H1.
      cbn [Js.truthy]. unfold Spec.parsedOrZero.
      destruct (Js.num_truthy n) eqn:E; cbn [Js.truthy parseFloat].
      + rewrite E. apply leb_num_or_zero. lia.
      + destruct n as [| |q|]; try discriminate; try reflexivity.
        simpl in E. apply negb_false_iff, Qeq_bool_iff in E.
        transitivity true.
        * reflexivity.
        * symmetry. simpl. apply Qle_bool_iff. rewrite E.
          unfold Qle. simpl. lia.
    - rewrite accountBalance_aliases. cbn [Spec.firstTruthy].
      now rewrite Hb. }
  rewrite Hbal. reflexivity.
Qed.

(** C1.  For every customer record and every fixed current time, the
    [account_closure] rule matches exactly when the balance, parsed
    with 0 for a value that is missing or does not parse, is at most
    100, or more than 90 whole days lie between the last transaction
    and the current time, a date that is missing or does not parse
    counting as 9999 days.  On every record this holds of the two fields
    as the code looks them up: [BALANCE], or [balance] when [BALANCE] is
    missing or falsy, and [LAST_TRANSACTION], then [last_transaction],
    then [lastTransaction].  On a record that has none of the lower-case
    spellings, it holds of the properties [BALANCE] and
    [LAST_TRANSACTION] themselves. *)
Theorem account_closure_rule (now : Z) (c : Customer) :
  (Customers.rule_account_closure now c = true
   <-> Spec.account_closure_aliases now c)
  /\
  (get c "balance" = None ->
   get c "last_transaction" = None ->
   get c "lastTransaction" = None ->
   get c "BALANCE" = None
     \/ (exists n, get c "BALANCE" = Some (Js.VNum n))
     \/ Js.truthy (get c "BALANCE") = true ->
   get c "LAST_TRANSACTION" = None
     \/ Js.truthy (get c "LAST_TRANSACTION") = true ->
   (Customers.rule_account_closure now c = true
    <-> Spec.account_closure now c)).
Proof.
  split.
  - apply rule_account_closure_aliases.
  - apply account_closure_canonical.
Qed.

End RuleFacts.

(** The lower-case spelling is read when [BALANCE] is missing: a
    balance of 500 under [balance] and a transaction one day old do not
    match. *)
Example account_closure_lower_case_balance :
  Customers.rule_account_closure (B := Node.builtins)
    Sample.newYear2025 Sample.lowerCaseBalance = false.
Proof. reflexivity. Qed.

(** The theorem on the second customer of the scenario of the
    specification: a balance of 500 and a last transaction 366 days
    before the current time. *)
Lemma account_closure_rule_witness :
  (Customers.rule_account_closure (B := Node.builtins) Sample.newYear2025
     Sample.a2 = true
   <-> Spec.account_closure_aliases (B := Node.builtins) Sample.newYear2025
         Sample.a2)
  /\
  (Customers.rule_account_closure (B := Node.builtins) Sample.newYear2025
     Sample.a2 = true
   <-> Spec.account_closure (B := Node.builtins) Sample.newYear2025
         Sample.a2).
Proof.
  split.
  - apply (proj1 (account_closure_rule (B := Node.builtins)
                    Sample.newYear2025 Sample.a2)).
  - apply (proj2 (account_closure_rule (B := Node.builtins)
                    Sample.newYear2025 Sample.a2)).
    + reflexivity.
    + reflexivity.
    + reflexivity.
    + right. left. now exists (Js.int 500).
    + right. reflexivity.
Defined.

Example account_closure_scenario :
  Customers.filterCustomersByRule (B := Node.builtins) Sample.newYear2025
    [Sample.a1; Sample.a2] "account_closure"
  = [Sample.a1; Sample.a2]
  /\ Customers.daysSinceLastTransaction (B := Node.builtins)
       Sample.newYear2025 Sample.a2 = 366.
Proof. split; reflexivity. Qed.

(** C7, on the code.  A customer with an address and a mobile number and
    without a KYC status is a match in the words of the specification,
    and is not matched by the filter. *)
Theorem kyc_update_misses_missing_status :
  Customers.rule_kyc_update (B := Node.builtins) Sample.noKycStatus = false
  /\ Spec.kyc_update (B := Node.builtins) Sample.noKycStatus.
Proof.
  split; [reflexivity|].
  right. right. right. left. reflexivity.
Qed.

(** Whatever the platform functions, the filter does not match a record
    that has an address and a mobile number and no KYC status under any
    of the three spellings. *)
Lemma kyc_update_without_status {B : Builtins} (c : Customer) :
  Js.truthy (get c "EMAIL") = true ->
  Js.truthy (get c "MOBILE") = true ->
  get c "KYC_STATUS" = None ->
  get c "kyc_status" = None ->
  get c "kycStatus" = None ->
  Customers.rule_kyc_update c = false.
Proof.
  intros He Hm H1 H2 H3. unfold Customers.rule_kyc_update, Js.or_else.
  rewrite H1, H2, H3. simpl.
  repeat (rewrite ?He, ?Hm; cbv iota). reflexivity.
Qed.

(** Reading a property other than the one assigned. *)
Lemma get_assign_other (c : Customer) (k k' : string) (v : Js.value) :
  k <> k' -> get (assign c k v) k' = get c k'.
Proof.
  intros Hk. induction c as [|[k0 v0] c IH]; simpl.
  - destruct (String.eqb_spec k' k); [congruence | reflexivity].
  - destruct (String.eqb_spec k k0) as [->|Hk0]; simpl.
    + destruct (String.eqb_spec k' k0); [congruence | reflexivity].
    + destruct (String.eqb_spec k' k0); [reflexivity | exact IH].
Qed.

(** The [document_expiry] case does not read [DAYS_TO_EXPIRY]: whatever
    is stored there, the answer is the same. *)
Lemma document_expiry_ignores_DAYS_TO_EXPIRY {B : Builtins} (c : Customer)
    (v : Js.value) :
  Customers.rule_document_expiry (assign c "DAYS_TO_EXPIRY" v)
  = Customers.rule_document_expiry c.
Proof.
  unfold Customers.rule_document_expiry, Customers.documentStatus,
    Customers.documentDays.
  rewrite !get_assign_other by discriminate. reflexivity.
Qed.

(** C6, on the code.  A customer whose [DAYS_TO_EXPIRY] is 30 is a match
    in the words of the specification, and is not matched by the filter,
    which reads [DOC_EXPIRY_DAYS]. *)
Theorem document_expiry_misses_days_to_expiry :
  Customers.rule_document_expiry (B := Node.builtins) Sample.expiresIn30Days
    = false
  /\ Spec.document_expiry (B := Node.builtins) Sample.expiresIn30Days.
Proof.
  split; [reflexivity|].
  right. right. reflexivity.
Qed.

(** In the column the filter reads, 30 days match and 0 days do not:
    [parseInt(...) || 9999] replaces the 0. *)
Example document_expiry_thirty_days :
  Customers.rule_document_expiry (B := Node.builtins)
    [("DOC_STATUS", Sample.str "Valid"); ("DOC_EXPIRY_DAYS", Sample.number 30)]
  = true.
Proof. reflexivity. Qed.

Example document_expiry_zero_days :
  Customers.rule_document_expiry (B := Node.builtins) Sample.expiresToday
  = false.
Proof. reflexivity. Qed.

(** ** [POST /analyze] *)

Section AnalyzeFacts.

Context {B : Builtins}.
Context {W : Type}.
Variable analyzeCustomers : list Customer -> string -> M W Customers.AiResponse.
Variable GEMINI_API_KEY : bool.
Variable currentDate : Z.

#[local] Abbreviation analyzeHandler :=
  (Customers.analyzeHandler analyzeCustomers GEMINI_API_KEY currentDate).
#[local] Abbreviation analyzeRoute :=
  (Customers.analyzeRoute analyzeCustomers GEMINI_API_KEY currentDate).
#[local] Abbreviation ruleFilteredOf := (Customers.ruleFilteredOf currentDate).
#[local] Abbreviation scoringCalled :=
  (Customers.scoringCalled GEMINI_API_KEY currentDate).
#[local] Abbreviation scoring :=
  (Customers.scoring analyzeCustomers currentDate).
#[local] Abbreviation ruleBased :=
  (fun body => Customers.ruleBasedResult (Customers.normalizedOf body)
                 (ruleFilteredOf body)).

(** No customer matches an issue type that is not one of the five. *)
Lemma matchesRule_unknown (t : string) (c : Customer) :
  validIssueType t = false -> Customers.matchesRule currentDate t c = false.
Proof.
  unfold validIssueType, issueTypes. simpl. intros H.
  repeat (apply orb_false_iff in H; destruct H as [? H]).
  unfold Customers.matchesRule.
  repeat match goal with E : String.eqb _ _ = false |- _ =>
    rewrite E; clear E end.
  reflexivity.
Qed.

Lemma filterCustomersByRule_unknown (t : string) (cs : list Customer) :
  validIssueType t = false ->
  Customers.filterCustomersByRule currentDate cs t = [].
Proof.
  intros H. unfold Customers.filterCustomersByRule.
  induction cs as [|c cs IH]; [reflexivity|].
  simpl. now rewrite matchesRule_unknown.
Qed.

(** The handler when the scoring service is not called. *)
Lemma analyzeHandler_rules_only (body : Customers.AnalysisRequest) (w : W) :
  scoringCalled body = false ->
  analyzeHandler body w = (Ok200 (ruleBased body), w).
Proof.
  unfold Customers.scoringCalled, Customers.analyzeHandler,
    Customers.ruleFilteredOf, Customers.normalizedOf, Customers.optionsOf.
  intros H. rewrite H. reflexivity.
Qed.

(** The handler when the scoring service is called, by what the service
    answers. *)
Lemma analyzeHandler_scoring (body : Customers.AnalysisRequest) (w : W) :
  scoringCalled body = true ->
  analyzeHandler body w =
  match scoring body w with
  | (Throw e, w') => (Ok200 (Customers.withAiError (ruleBased body) e), w')
  | (Ret Customers.AiOther, w') => (Ok200 (ruleBased body), w')
  | (Ret (Customers.AiAnalysis analysis summary), w') =>
      let enhanced :=
        {| Customers.totalCustomers := length (Customers.normalizedOf body);
           Customers.ruleBasedMatches := length (ruleFilteredOf body);
           Customers.finalMatches := length (ruleFilteredOf body);
           Customers.matched := ruleFilteredOf body;
           Customers.confidence := "rule-based";
           Customers.aiEnhanced := true;
           Customers.aiInsights :=
             Some (match summary with Some s => s | None => [] end);
           Customers.aiError := None |} in
      match Customers.buildAiMap analysis [] with
      | Throw e => (Ok200 (Customers.withAiError enhanced e), w')
      | Ret aiMap =>
          let merged := map (Customers.mergeAi aiMap) (ruleFilteredOf body) in
          (Ok200
             {| Customers.totalCustomers :=
                  length (Customers.normalizedOf body);
                Customers.ruleBasedMatches := length (ruleFilteredOf body);
                Customers.finalMatches :=
                  length (filter (Customers.aboveThreshold
                                    (Customers.optionsOf body)) merged);
                Customers.matched := merged;
                Customers.confidence := "ai-enhanced";
                Customers.aiEnhanced := true;
                Customers.aiInsights :=
                  Some (match summary with Some s => s | None => [] end);
                Customers.aiError := None |}, w')
      end
  end.
Proof.
  unfold Customers.scoringCalled, Customers.analyzeHandler, Customers.scoring,
    Customers.ruleFilteredOf, Customers.normalizedOf, Customers.optionsOf.
  intros H. rewrite H.
  destruct (analyzeCustomers _ _ w) as [[[analysis summary|]|e] w'];
    reflexivity.
Qed.

(** A [null] among the entries makes the [forEach] throw. *)
Lemma buildAiMap_null (analysis : list Customers.AiEntry) :
  In None analysis ->
  forall aiMap,
    Customers.buildAiMap analysis aiMap = Throw (Customers.typeErrorNull "account_no").
Proof.
  induction analysis as [|[a|] rest IH]; intros Hin aiMap.
  - destruct Hin.
  - simpl. apply IH. destruct Hin as [H|H]; [discriminate | exact H].
  - reflexivity.
Qed.


(** A request the validation admits has no unknown option, so no
    [minConfidence]. *)
Lemma validated_without_minConfidence (body value : Customers.AnalysisRequest) :
  Customers.validateAnalysisRequest body = inr value ->
  get (Customers.otherOptions (Customers.optionsOf value)) "minConfidence"
  = None.
Proof.
  unfold Customers.validateAnalysisRequest, Customers.optionsOf.
  destruct (negb _); [discriminate|].
  destruct (negb _); [discriminate|].
  destruct (Customers.options body) as [o|].
  - destruct (Customers.validOptions o) eqn:Hv; [|discriminate].
    intros [= <-]. simpl.
    unfold Customers.validOptions in Hv.
    destruct (Customers.otherOptions o); [reflexivity|].
    now rewrite andb_false_r in Hv.
  - intros [= <-]. reflexivity.
Qed.

(** A request the validation admits has one of the five issue types. *)
Lemma validated_issue_type (body value : Customers.AnalysisRequest) :
  Customers.validateAnalysisRequest body = inr value ->
  validIssueType (Customers.issueType value) = true.
Proof.
  unfold Customers.validateAnalysisRequest.
  destruct (negb _); [discriminate|].
  destruct (validIssueType (Customers.issueType body)) eqn:Ht;
    [|discriminate].
  simpl. destruct (Customers.options body) as [o|].
  - destruct (Customers.validOptions o); [|discriminate].
    now intros [= <-].
  - now intros [= <-].
Qed.

(** C8, as the code has it.  For every list of customers and every
    issue type that is not one of the five, the filter returns no match
    and raises no error, and so would the handler; the route does not
    get that far: the validation rejects the request with status 400. *)
Theorem unknown_issue_type_is_rejected (body : Customers.AnalysisRequest)
    (w : W) :
  validIssueType (Customers.issueType body) = false ->
  (forall cs : list Customer,
      Customers.filterCustomersByRule currentDate cs (Customers.issueType body)
      = [])
  /\ (exists r,
        analyzeHandler body w = (Ok200 r, w)
        /\ Customers.matched r = []
        /\ Customers.finalMatches r = 0%nat
        /\ Customers.aiError r = None)
  /\ (exists path, analyzeRoute body w = (ValidationFailed400 path, w)).
Proof.
  intros Ht. split; [|split].
  - intros cs. now apply filterCustomersByRule_unknown.
  - assert (Hrf : ruleFilteredOf body = []).
    { unfold Customers.ruleFilteredOf.
      now apply filterCustomersByRule_unknown. }
    exists (ruleBased body). split.
    + apply analyzeHandler_rules_only. unfold Customers.scoringCalled.
      rewrite Hrf. simpl. apply andb_false_r.
    + simpl. rewrite Hrf. repeat split.
  - unfold Customers.analyzeRoute, Customers.validateAnalysisRequest.
    destruct (negb _); [now exists "customers"%string|].
    rewrite Ht. now exists "issueType"%string.
Qed.

(** Whatever the scoring service hands over that cannot be merged, the
    handler replies with status 200, the matches of the rules and their
    counts.  What is thrown, by the service or by the merge on a [null]
    entry, is recorded under [aiError]; a value without an [analysis]
    array is passed over. *)
Lemma analyzeHandler_reply_unusable (body : Customers.AnalysisRequest)
    (w : W) :
  scoringCalled body = true ->
  Spec.replyUnusable (fst (scoring body w)) ->
  exists r,
    analyzeHandler body w = (Ok200 r, snd (scoring body w))
    /\ Customers.matched r = ruleFilteredOf body
    /\ Customers.totalCustomers r = length (Customers.customers body)
    /\ Customers.ruleBasedMatches r = length (ruleFilteredOf body)
    /\ Customers.finalMatches r = length (ruleFilteredOf body)
    /\ Customers.confidence r = "rule-based"%string
    /\ Customers.aiError r
       = match fst (scoring body w) with
         | Throw e => Some (errorText e)
         | Ret Customers.AiOther => None
         | Ret (Customers.AiAnalysis _ _) =>
             Some (errorText (Customers.typeErrorNull "account_no"))
         end.
Proof.
  intros Hcalled Hfails.
  rewrite (analyzeHandler_scoring body w Hcalled).
  destruct (scoring body w) as [[[analysis summary|]|e] w']; simpl in *.
  - rewrite (buildAiMap_null analysis Hfails).
    eexists. split; [reflexivity|]. simpl.
    unfold Customers.normalizedOf. rewrite length_map. repeat split.
  - eexists. split; [reflexivity|]. simpl.
    unfold Customers.normalizedOf. rewrite length_map. repeat split.
  - eexists. split; [reflexivity|]. simpl.
    unfold Customers.normalizedOf. rewrite length_map. repeat split.
Qed.

Lemma get_remove_other (c : Customer) (k k' : string) :
  k <> k' -> get (remove c k) k' = get c k'.
Proof.
  intros Hk. induction c as [|[k0 v0] c IH]; simpl; [reflexivity|].
  destruct (String.eqb_spec k k0) as [->|Hk0]; simpl.
  - destruct (String.eqb_spec k' k0); [congruence | exact IH].
  - destruct (String.eqb_spec k' k0); [reflexivity | exact IH].
Qed.

Lemma get_set_other (c : Customer) (k k' : string) (v : Js.field) :
  k <> k' -> get (set c k v) k' = get c k'.
Proof.
  intros Hk. destruct v; simpl.
  - now apply get_assign_other.
  - now apply get_remove_other.
Qed.




End AnalyzeFacts.

(** C8, as stated.  The issue type of [Sample.unknownIssueRequest] is
    not one of the five, and the route does not reply with a result,
    empty or not: the validation signals an error. *)
Lemma unknown_issue_type_counterexample :
  validIssueType (Customers.issueType Sample.unknownIssueRequest) = false
  /\ ~ (exists r w',
          Customers.analyzeRoute (B := Node.builtins) Sample.scoringDown true
            Sample.newYear2025 Sample.unknownIssueRequest 0%nat
          = (Ok200 r, w')
          /\ Customers.matched r = []).
Proof.
  split; [reflexivity|].
  intros (r & w' & H & _).
  assert (Hcode : Customers.analyzeRoute (B := Node.builtins)
                    Sample.scoringDown true Sample.newYear2025
                    Sample.unknownIssueRequest 0%nat
                  = (ValidationFailed400 "issueType", 0%nat)) by reflexivity.
  rewrite Hcode in H. discriminate.
Qed.

(** The theorem on the sample request. *)
Lemma unknown_issue_type_is_rejected_witness :
  (forall cs : list Customer,
      Customers.filterCustomersByRule (B := Node.builtins) Sample.newYear2025
        cs "address_change" = [])
  /\ (exists r,
        Customers.analyzeHandler (B := Node.builtins) Sample.scoringDown true
          Sample.newYear2025 Sample.unknownIssueRequest 0%nat = (Ok200 r, 0%nat)
        /\ Customers.matched r = []
        /\ Customers.finalMatches r = 0%nat
        /\ Customers.aiError r = None)
  /\ (exists path,
        Customers.analyzeRoute (B := Node.builtins) Sample.scoringDown true
          Sample.newYear2025 Sample.unknownIssueRequest 0%nat
        = (ValidationFailed400 path, 0%nat)).
Proof.
  apply (unknown_issue_type_is_rejected (B := Node.builtins)
           Sample.scoringDown true Sample.newYear2025
           Sample.unknownIssueRequest 0%nat).
  reflexivity.
Defined.

Example scoring_null_entry :
  exists r,
    Customers.analyzeHandler (B := Node.builtins) Sample.scoringNullEntry true
      Sample.newYear2025 Sample.kycRequest 0%nat = (Ok200 r, 1%nat)
    /\ length (Customers.matched r) = 2%nat
    /\ Customers.finalMatches r = 2%nat
    /\ Customers.aiEnhanced r = true
    /\ Customers.aiError r
       = Some "Cannot read properties of null (reading 'account_no')"%string.
Proof. eexists. repeat split. Qed.


Example final_matches_sample :
  exists r,
    Customers.analyzeHandler (B := Node.builtins) Sample.scoringTwo true
      Sample.newYear2025 Sample.kycRequest 0%nat = (Ok200 r, 1%nat)
    /\ Customers.ruleBasedMatches r = 2%nat
    /\ length (Customers.matched r) = 2%nat
    /\ Customers.finalMatches r = 1%nat
    /\ map (fun c => get c "aiConfidence") (Customers.matched r)
       = [Some (Js.VNum (Js.Fin (1 # 2))); Some (Js.VNum (Js.Fin (9 # 10)))].
Proof. eexists. repeat split. Qed.

(** ** [POST /analyze] with the scoring service of the backend *)

Section ServiceFacts.

Context {B : Builtins}.
Context {W : Type}.
Variable modelConfigured : bool.
Variable createAnalysisPrompt : list Customer -> string -> string.
Variable generateContent : string -> M W string.
Variable JSON_parse : string -> Result Customers.AiResponse.
Variable GEMINI_API_KEY : bool.
Variable currentDate : Z.

#[local] Abbreviation analyzeCustomers :=
  (AiService.analyzeCustomers modelConfigured createAnalysisPrompt
     generateContent JSON_parse).
#[local] Abbreviation analyzeHandler :=
  (Customers.analyzeHandler analyzeCustomers GEMINI_API_KEY currentDate).
#[local] Abbreviation ruleFilteredOf := (Customers.ruleFilteredOf currentDate).
#[local] Abbreviation scoringCalled :=
  (Customers.scoringCalled GEMINI_API_KEY currentDate).
#[local] Abbreviation ruleBased :=
  (fun body => Customers.ruleBasedResult (Customers.normalizedOf body)
                 (ruleFilteredOf body)).

#[local] Abbreviation promptOf :=
  (fun body => createAnalysisPrompt (firstn 100 (ruleFilteredOf body))
                 (Customers.issueType body)).

(** When the service throws, what it throws has a message. *)
Lemma service_failure_is_thrown (customers : list Customer)
    (issueType : string) (w : W) :
  Spec.scoringThrows modelConfigured
    (fst (generateContent (createAnalysisPrompt customers issueType) w))
    JSON_parse ->
  exists e w',
    analyzeCustomers customers issueType w = (Throw e, w')
    /\ nonEmpty (message e) = true.
Proof.
  unfold AiService.analyzeCustomers.
  intros [Hc|[(e & He)|[(text & Ht & Hm)|(text & json & e & Ht & Hm & Hp)]]].
  - rewrite Hc. simpl. now exists AiService.notConfigured, w.
  - destruct modelConfigured; simpl;
      [|now exists AiService.notConfigured, w].
    destruct (generateContent _ w) as [r w']. simpl in He. subst r.
    now exists (AiService.analysisFailed e), w'.
  - destruct modelConfigured; simpl;
      [|now exists AiService.notConfigured, w].
    destruct (generateContent _ w) as [r w']. simpl in Ht. subst r.
    rewrite Hm. now exists (AiService.analysisFailed AiService.invalidJson), w'.
  - destruct modelConfigured; simpl;
      [|now exists AiService.notConfigured, w].
    destruct (generateContent _ w) as [r w']. simpl in Ht. subst r.
    rewrite Hm, Hp. now exists (AiService.analysisFailed e), w'.
Qed.


(** When the service throws, the handler replies with the result of the
    rules, to which the failure adds nothing but its message under
    [aiError]. *)
Lemma scoring_throw_falls_back_to_rules
    (body : Customers.AnalysisRequest) (w : W) :
  scoringCalled body = true ->
  Spec.scoringThrows modelConfigured
    (fst (generateContent (promptOf body) w)) JSON_parse ->
  exists r e w',
    analyzeHandler body w = (Ok200 r, w')
    /\ r = Customers.withAiError (ruleBased body) e
    /\ Customers.matched r = ruleFilteredOf body
    /\ Customers.totalCustomers r = length (Customers.customers body)
    /\ Customers.ruleBasedMatches r = length (ruleFilteredOf body)
    /\ Customers.finalMatches r = length (ruleFilteredOf body)
    /\ Customers.confidence r = "rule-based"%string
    /\ Customers.aiEnhanced r = false
    /\ Customers.aiInsights r = None
    /\ Customers.aiError r = Some (message e).
Proof.
  intros Hcalled Hfails.
  destruct (service_failure_is_thrown
              (firstn 100 (ruleFilteredOf body)) (Customers.issueType body)
              w Hfails) as (e & w' & Hthrow & Hmsg).
  exists (Customers.withAiError (ruleBased body) e), e, w'.
  split.
  - rewrite (analyzeHandler_scoring _ _ _ body w Hcalled).
    unfold Customers.scoring. now rewrite Hthrow.
  - simpl. unfold Customers.normalizedOf, errorText.
    rewrite length_map, Hmsg. repeat split.
Qed.


End ServiceFacts.



(** The same with a model whose call times out: the service throws. *)
Example scoring_throw_on_the_sample :
  exists r e w',
    Customers.analyzeHandler (B := Node.builtins)
      (AiService.analyzeCustomers true Sample.prompt Sample.geminiTimesOut
         Sample.parseSample)
      true Sample.newYear2025 Sample.kycRequest 0%nat = (Ok200 r, w')
    /\ r = Customers.withAiError
             (Scenario.kycRuleBased (B := Node.builtins)) e
    /\ Customers.aiEnhanced r = false
    /\ Customers.aiInsights r = None
    /\ Customers.aiError r = Some (message e).
Proof.
  destruct (scoring_throw_falls_back_to_rules (B := Node.builtins)
              true Sample.prompt Sample.geminiTimesOut Sample.parseSample
              true Sample.newYear2025 Sample.kycRequest 0%nat)
    as (r & e & w' & Hrun & Hr & _ & _ & _ & _ & _ & Henh & Hins & Herr).
  - reflexivity.
  - right. left. exists Sample.timedOut. reflexivity.
  - exists r, e, w'. repeat split; assumption.
Qed.

(** The message recorded when the call times out, and when the reply
    holds no JSON object. *)
Example scoring_times_out :
  exists r,
    Customers.analyzeHandler (B := Node.builtins)
      (AiService.analyzeCustomers true Sample.prompt Sample.geminiTimesOut
         Sample.parseSample)
      true Sample.newYear2025 Sample.kycRequest 0%nat = (Ok200 r, 1%nat)
    /\ Customers.finalMatches r = 2%nat
    /\ Customers.aiError r
       = Some "AI analysis failed: Request timed out"%string.
Proof. eexists. repeat split. Qed.

Example scoring_replies_without_json :
  exists r,
    Customers.analyzeHandler (B := Node.builtins)
      (AiService.analyzeCustomers true Sample.prompt
         (Sample.geminiSays "I am sorry, I cannot help with that.")
         Sample.parseSample)
      true Sample.newYear2025 Sample.kycRequest 0%nat = (Ok200 r, 1%nat)
    /\ Customers.finalMatches r = 2%nat
    /\ Customers.aiError r
       = Some "AI analysis failed: Invalid JSON response from AI"%string.
Proof. eexists. repeat split. Qed.

(** A reply that is JSON and has no [analysis] array is no failure for
    the service, and the handler passes it over: the result of the rules
    comes back as it is. *)
Example scoring_replies_empty_object :
  Customers.analyzeHandler (B := Node.builtins)
    (AiService.analyzeCustomers true Sample.prompt
       (Sample.geminiSays "Here you are: {}") Sample.parseSample)
    true Sample.newYear2025 Sample.kycRequest 0%nat
  = (Ok200
       (Customers.ruleBasedResult
          (Customers.normalizedOf Sample.kycRequest)
          (Customers.ruleFilteredOf (B := Node.builtins) Sample.newYear2025
             Sample.kycRequest)), 1%nat).
Proof. reflexivity. Qed.

(* --------------------------------------------------------------------- *)
(** ** Regular expressions: the matcher and what a pattern denotes *)
(* --------------------------------------------------------------------- *)

Section RegexFacts.

Import Regex.

Lemma string_app_nil_r (s : string) : (s ++ "")%string = s.
Proof. induction s as [|c s IH]; simpl; [reflexivity | now rewrite IH]. Qed.

Lemma string_app_assoc (a b c : string) :
  ((a ++ b) ++ c)%string = (a ++ (b ++ c))%string.
Proof. induction a as [|x a IH]; simpl; [reflexivity | now rewrite IH]. Qed.

Lemma string_app_empty (a b : string) :
  (a ++ b)%string = "" -> a = "" /\ b = "".
Proof. destruct a; simpl; [auto | discriminate]. Qed.

Lemma Match_Eps (s : string) : Match Eps s <-> s = "".
Proof.
  split.
  - intros H. now inversion H.
  - intros ->. constructor.
Qed.

Lemma Match_Void (s : string) : ~ Match Void s.
Proof. intros H. inversion H. Qed.

Lemma Match_Class (p : ascii -> bool) (s : string) :
  Match (Class p) s <-> exists c, s = String c "" /\ p c = true.
Proof.
  split.
  - intros H. inversion H; subst. eauto.
  - intros (c & -> & Hc). now constructor.
Qed.

Lemma Match_Cat (r1 r2 : re) (s : string) :
  Match (Cat r1 r2) s
  <-> exists s1 s2, s = (s1 ++ s2)%string /\ Match r1 s1 /\ Match r2 s2.
Proof.
  split.
  - intros H. inversion H; subst. eauto.
  - intros (s1 & s2 & -> & H1 & H2). now constructor.
Qed.

Lemma Match_Alt (r1 r2 : re) (s : string) :
  Match (Alt r1 r2) s <-> Match r1 s \/ Match r2 s.
Proof.
  split.
  - intros H. inversion H; subst; auto.
  - intros [H|H]; [now apply MAltL | now apply MAltR].
Qed.

(** A non-empty match of [r*] starts with a non-empty match of [r]. *)
Lemma Match_Star_cons (r : re) (c : ascii) (s : string) :
  Match (Star r) (String c s)
  <-> exists s1 s2,
        s = (s1 ++ s2)%string /\ Match r (String c s1) /\ Match (Star r) s2.
Proof.
  split.
  - intros H. remember (Star r) as r' eqn:Er. remember (String c s) as t eqn:Et.
    induction H as [| | | | | |r0 s1 s2 H1 _ H2 IH2]; try discriminate.
    injection Er as ->.
    destruct s1 as [|c1 s1].
    + simpl in Et. now apply IH2.
    + simpl in Et. injection Et as -> <-. eauto.
  - intros (s1 & s2 & -> & H1 & H2).
    change (String c (s1 ++ s2)%string) with ((String c s1) ++ s2)%string.
    now constructor.
Qed.

Lemma nullable_Match (r : re) : nullable r = true <-> Match r "".
Proof.
  induction r as [| |p|r1 IH1 r2 IH2|r1 IH1 r2 IH2|r IH]; simpl.
  - split; [discriminate | intros H; inversion H].
  - split; [constructor | reflexivity].
  - split; [discriminate | intros H; inversion H].
  - rewrite andb_true_iff, IH1, IH2, Match_Cat. split.
    + intros [H1 H2]. exists "", "". auto.
    + intros (s1 & s2 & E & H1 & H2).
      symmetry in E. apply string_app_empty in E as [-> ->]. auto.
  - now rewrite orb_true_iff, IH1, IH2, Match_Alt.
  - split; [constructor | reflexivity].
Qed.

Lemma deriv_Match (r : re) : forall (c : ascii) (s : string),
  Match (deriv c r) s <-> Match r (String c s).
Proof.
  induction r as [| |p|r1 IH1 r2 IH2|r1 IH1 r2 IH2|r IH]; intros c s; simpl.
  - split; intros H; inversion H.
  - split; intros H; inversion H.
  - rewrite Match_Class. destruct (p c) eqn:Hc.
    + rewrite Match_Eps. split.
      * intros ->. eauto.
      * intros (c' & E & _). now injection E.
    + split; [intros H; inversion H|].
      intros (c' & E & Hc'). injection E as -> _. congruence.
  - assert (Hcat :
      Match (Cat (deriv c r1) r2) s
      <-> exists s1 s2,
            s = (s1 ++ s2)%string /\ Match r1 (String c s1) /\ Match r2 s2).
    { rewrite Match_Cat. split.
      - intros (s1 & s2 & E & H1 & H2). apply IH1 in H1. eauto.
      - intros (s1 & s2 & E & H1 & H2). apply IH1 in H1. eauto. }
    rewrite (Match_Cat r1 r2).
    destruct (nullable r1) eqn:Hn.
    + rewrite Match_Alt, Hcat, IH2. split.
      * intros [(s1 & s2 & -> & H1 & H2)|H].
        -- exists (String c s1), s2. auto.
        -- exists "", (String c s). repeat split; [|assumption].
           now apply nullable_Match.
      * intros (s1 & s2 & E & H1 & H2). destruct s1 as [|c1 s1].
        -- simpl in E. subst s2. now right.
        -- simpl in E. injection E as <- ->. left. eauto.
    + rewrite Hcat. split.
      * intros (s1 & s2 & -> & H1 & H2). exists (String c s1), s2. auto.
      * intros (s1 & s2 & E & H1 & H2). destruct s1 as [|c1 s1].
        -- apply nullable_Match in H1. congruence.
        -- simpl in E. injection E as <- ->. eauto.
  - now rewrite !Match_Alt, IH1, IH2.
  - rewrite Match_Star_cons, Match_Cat. split.
    + intros (s1 & s2 & E & H1 & H2). apply IH in H1. eauto.
    + intros (s1 & s2 & E & H1 & H2). apply IH in H1. eauto.
Qed.

(** The matcher answers [true] exactly on the strings the pattern
    denotes. *)
Lemma test_Match (s : string) : forall r : re,
  test r s = true <-> Match r s.
Proof.
  induction s as [|c s IH]; intros r; simpl.
  - apply nullable_Match.
  - now rewrite IH, deriv_Match.
Qed.

Lemma all_app (p : ascii -> bool) (a b : string) :
  all p (a ++ b)%string = all p a && all p b.
Proof.
  induction a as [|c a IH]; simpl; [reflexivity|].
  now rewrite IH, andb_assoc.
Qed.

Lemma Match_Star_Class (p : ascii -> bool) (s : string) :
  Match (Star (Class p)) s <-> all p s = true.
Proof.
  revert p. induction s as [|c s IH]; intros p; simpl.
  - split; [reflexivity | constructor].
  - rewrite Match_Star_cons, andb_true_iff. split.
    + intros (s1 & s2 & -> & H1 & H2).
      apply Match_Class in H1 as (c' & E & Hc). injection E as <- ->.
      simpl. split; [assumption | now apply IH].
    + intros [Hc Hs]. exists "", s. repeat split.
      * now constructor.
      * now apply IH.
Qed.

Lemma Match_Plus_Class (p : ascii -> bool) (s : string) :
  Match (Plus (Class p)) s <-> s <> "" /\ all p s = true.
Proof.
  unfold Plus. rewrite Match_Cat. split.
  - intros (s1 & s2 & -> & H1 & H2).
    apply Match_Class in H1 as (c & -> & Hc). apply Match_Star_Class in H2.
    simpl. rewrite Hc, H2. split; [discriminate | reflexivity].
  - intros [Hne Hall]. destruct s as [|c s]; [congruence|].
    simpl in Hall. apply andb_true_iff in Hall as [Hc Hs].
    exists (String c ""), s. repeat split.
    + now constructor.
    + now apply Match_Star_Class.
Qed.

Lemma Match_Chr (c : ascii) (s : string) :
  Match (Chr c) s <-> s = String c "".
Proof.
  unfold Chr. rewrite Match_Class. split.
  - intros (c' & -> & H). apply Ascii.eqb_eq in H. now subst.
  - intros ->. exists c. split; [reflexivity | apply Ascii.eqb_refl].
Qed.

Lemma Match_Times_Class (p : ascii -> bool) (n : nat) : forall s : string,
  Match (Times n (Class p)) s <-> String.length s = n /\ all p s = true.
Proof.
  induction n as [|n IH]; intros s; simpl.
  - rewrite Match_Eps. split.
    + intros ->. auto.
    + intros [H _]. now destruct s.
  - rewrite Match_Cat. split.
    + intros (s1 & s2 & -> & H1 & H2).
      apply Match_Class in H1 as (c & -> & Hc). apply IH in H2 as [Hl Ha].
      simpl. rewrite Hl, Hc, Ha. auto.
    + intros [Hl Ha]. destruct s as [|c s]; [discriminate|].
      simpl in Hl, Ha. apply andb_true_iff in Ha as [Hc Ha].
      exists (String c ""), s. repeat split.
      * now constructor.
      * apply IH. split; [lia | assumption].
Qed.

Lemma Match_AtMost_Class (p : ascii -> bool) (n : nat) : forall s : string,
  Match (AtMost n (Class p)) s
  <-> (String.length s <= n)%nat /\ all p s = true.
Proof.
  induction n as [|n IH]; intros s; simpl.
  - rewrite Match_Eps. split.
    + intros ->. auto.
    + intros [H _]. destruct s; [reflexivity | simpl in H; lia].
  - rewrite Match_Alt, Match_Eps, Match_Cat. split.
    + intros [->|(s1 & s2 & -> & H1 & H2)].
      * simpl. split; [lia | reflexivity].
      * apply Match_Class in H1 as (c & -> & Hc). apply IH in H2 as [Hl Ha].
        simpl. rewrite Hc, Ha. split; [lia | reflexivity].
    + intros [Hl Ha]. destruct s as [|c s]; [now left | right].
      simpl in Hl, Ha. apply andb_true_iff in Ha as [Hc Ha].
      exists (String c ""), s. repeat split.
      * now constructor.
      * apply IH. split; [lia | assumption].
Qed.

Lemma string_length_app (a b : string) :
  String.length (a ++ b)%string = (String.length a + String.length b)%nat.
Proof. induction a as [|c a IH]; simpl; [reflexivity | now rewrite IH]. Qed.

Lemma string_split_at (n : nat) : forall t : string,
  (n <= String.length t)%nat ->
  exists a b, t = (a ++ b)%string /\ String.length a = n.
Proof.
  induction n as [|n IH]; intros t Ht.
  - exists "", t. auto.
  - destruct t as [|c t]; simpl in Ht; [lia|].
    destruct (IH t ltac:(lia)) as (a & b & -> & L).
    exists (String c a), b. simpl. auto.
Qed.

(** [p{lo,hi}] on a character class: between [lo] and [hi] characters,
    all of the class. *)
Lemma Match_Between_Class (p : ascii -> bool) (lo hi : nat) (s : string) :
  (lo <= hi)%nat ->
  Match (Between lo hi (Class p)) s
  <-> (lo <= String.length s <= hi)%nat /\ all p s = true.
Proof.
  intros Hle. unfold Between. rewrite Match_Cat. split.
  - intros (s1 & s2 & -> & H1 & H2).
    apply Match_Times_Class in H1 as [Hl1 Ha1].
    apply Match_AtMost_Class in H2 as [Hl2 Ha2].
    rewrite string_length_app, all_app, Ha1, Ha2. split; [lia | reflexivity].
  - intros [Hl Ha].
    destruct (string_split_at lo s ltac:(lia)) as (a & b & E & L).
    exists a, b. split; [exact E|].
    rewrite E, all_app in Ha. apply andb_true_iff in Ha as [Ha1 Ha2].
    split.
    + apply Match_Times_Class. auto.
    + apply Match_AtMost_Class. split; [|assumption].
      apply (f_equal String.length) in E.
      rewrite string_length_app, L in E. lia.
Qed.

End RegexFacts.

(* --------------------------------------------------------------------- *)
(** ** [validation.js]: [isValidEmail] and [isValidMobile] *)
(* --------------------------------------------------------------------- *)

Lemma count_app (p : ascii -> bool) (a b : string) :
  Regex.count p (a ++ b)%string = (Regex.count p a + Regex.count p b)%nat.
Proof.
  induction a as [|c a IH]; simpl; [reflexivity|]. rewrite IH. lia.
Qed.

Lemma count_none (p q : ascii -> bool) (s : string) :
  (forall c, q c = true -> p c = false) ->
  Regex.all q s = true -> Regex.count p s = 0%nat.
Proof.
  intros Hpq. induction s as [|c s IH]; simpl; [reflexivity|].
  intros H. apply andb_true_iff in H as [Hc Hs].
  now rewrite (Hpq c Hc), IH.
Qed.

Lemma notSpaceOrAt_not_at (c : ascii) :
  Validation.notSpaceOrAt c = true -> Ascii.eqb "@" c = false.
Proof.
  unfold Validation.notSpaceOrAt. rewrite negb_true_iff, orb_false_iff.
  intros [_ H]. now rewrite Ascii.eqb_sym.
Qed.

Lemma notSpaceOrAt_not_space (c : ascii) :
  Validation.notSpaceOrAt c = true -> Regex.whitespace c = false.
Proof.
  unfold Validation.notSpaceOrAt. rewrite negb_true_iff, orb_false_iff.
  now intros [H _].
Qed.

(** The three parts of an address that [isValidEmail] accepts. *)
Lemma isValidEmail_parts (email : string) :
  Validation.isValidEmail email = true
  <-> exists l d t,
        email = (l ++ "@" ++ d ++ "." ++ t)%string
        /\ l <> "" /\ d <> "" /\ t <> ""
        /\ Regex.all Validation.notSpaceOrAt l = true
        /\ Regex.all Validation.notSpaceOrAt d = true
        /\ Regex.all Validation.notSpaceOrAt t = true.
Proof.
  unfold Validation.isValidEmail, Validation.emailRegex.
  rewrite test_Match, Match_Cat. split.
  - intros (l & r1 & -> & Hl & H1).
    apply Match_Cat in H1 as (a & r2 & -> & Ha & H2).
    apply Match_Cat in H2 as (d & r3 & -> & Hd & H3).
    apply Match_Cat in H3 as (p & t & -> & Hp & Ht).
    apply Match_Chr in Ha as ->. apply Match_Chr in Hp as ->.
    apply Match_Plus_Class in Hl as [Hl1 Hl2].
    apply Match_Plus_Class in Hd as [Hd1 Hd2].
    apply Match_Plus_Class in Ht as [Ht1 Ht2].
    exists l, d, t. repeat split; assumption.
  - intros (l & d & t & -> & Hl & Hd & Ht & Al & Ad & At).
    exists l, ("@" ++ d ++ "." ++ t)%string. repeat split.
    + now apply Match_Plus_Class.
    + apply Match_Cat. exists "@"%string, (d ++ "." ++ t)%string.
      repeat split; [now apply Match_Chr|].
      apply Match_Cat. exists d, ("." ++ t)%string.
      repeat split; [now apply Match_Plus_Class|].
      apply Match_Cat. exists "."%string, t.
      repeat split; [now apply Match_Chr | now apply Match_Plus_Class].
Qed.

(** X1.  [isValidEmail] accepts exactly the strings [l@d.t] in which
    [l], [d] and [t] are not empty and hold neither whitespace nor an
    at sign. *)
Theorem isValidEmail_shape (email : string) :
  Validation.isValidEmail email = true
  <-> exists l d t,
        email = (l ++ "@" ++ d ++ "." ++ t)%string
        /\ l <> "" /\ d <> "" /\ t <> ""
        /\ Regex.all Validation.notSpaceOrAt l = true
        /\ Regex.all Validation.notSpaceOrAt d = true
        /\ Regex.all Validation.notSpaceOrAt t = true.
Proof. apply isValidEmail_parts. Qed.

(** X2.  An address [isValidEmail] accepts holds exactly one at sign, no
    whitespace, and at least five characters. *)
Theorem isValidEmail_one_at_sign (email : string) :
  Validation.isValidEmail email = true ->
  Regex.count (Ascii.eqb "@") email = 1%nat
  /\ Regex.count Regex.whitespace email = 0%nat
  /\ (5 <= String.length email)%nat.
Proof.
  intros H. apply isValidEmail_parts in H
    as (l & d & t & -> & Hl & Hd & Ht & Al & Ad & At).
  repeat split.
  - rewrite !count_app.
    rewrite (count_none _ _ l notSpaceOrAt_not_at Al).
    rewrite (count_none _ _ d notSpaceOrAt_not_at Ad).
    rewrite (count_none _ _ t notSpaceOrAt_not_at At).
    reflexivity.
  - rewrite !count_app.
    rewrite (count_none _ _ l notSpaceOrAt_not_space Al).
    rewrite (count_none _ _ d notSpaceOrAt_not_space Ad).
    rewrite (count_none _ _ t notSpaceOrAt_not_space At).
    reflexivity.
  - rewrite !string_length_app.
    destruct l; [congruence|]. destruct d; [congruence|].
    destruct t; [congruence|]. simpl. lia.
Qed.

Lemma isValidEmail_one_at_sign_witness :
  Validation.isValidEmail "amit@example.com" = true
  /\ Regex.count (Ascii.eqb "@") "amit@example.com" = 1%nat
  /\ Regex.count Regex.whitespace "amit@example.com" = 0%nat
  /\ (5 <= String.length "amit@example.com")%nat.
Proof.
  split; [reflexivity|].
  apply (isValidEmail_one_at_sign "amit@example.com"). reflexivity.
Defined.

Lemma digit_not_punctuation (c : ascii) :
  Regex.digit c = true -> Validation.mobilePunctuation c = false.
Proof.
  destruct c as [[] [] [] [] [] [] [] []]; vm_compute; congruence.
Qed.

Lemma removeAll_digits (s : string) :
  Regex.all Regex.digit (Regex.removeAll Validation.mobilePunctuation s)
  = Regex.all (fun c => Regex.digit c || Validation.mobilePunctuation c) s.
Proof.
  induction s as [|c s IH]; simpl; [reflexivity|].
  destruct (Validation.mobilePunctuation c) eqn:Hp.
  - now rewrite orb_true_r.
  - simpl. now rewrite IH, orb_false_r.
Qed.

Lemma removeAll_length (s : string) :
  Regex.all (fun c => Regex.digit c || Validation.mobilePunctuation c) s = true ->
  String.length (Regex.removeAll Validation.mobilePunctuation s)
  = Regex.count Regex.digit s.
Proof.
  induction s as [|c s IH]; simpl; [reflexivity|].
  intros H. apply andb_true_iff in H as [Hc Hs].
  destruct (Regex.digit c) eqn:Hd.
  - rewrite (digit_not_punctuation c Hd). simpl. now rewrite IH.
  - simpl in Hc. rewrite Hc. now rewrite IH.
Qed.

(** X3.  Among ASCII strings, [isValidMobile] accepts exactly those made
    of digits, ASCII whitespace, hyphens, parentheses and plus signs
    that hold between 10 and 15 digits; where the other characters stand
    plays no role. *)
Theorem isValidMobile_digits (mobile : string) :
  Text.isAscii mobile = true ->
  Validation.isValidMobile mobile = true
  <-> Regex.all (fun c => Regex.digit c || Validation.mobilePunctuation c)
        mobile = true
      /\ (10 <= Regex.count Regex.digit mobile <= 15)%nat.
Proof.
  intros _.
  unfold Validation.isValidMobile, Validation.mobileRegex.
  rewrite test_Match, Match_Between_Class by lia.
  rewrite removeAll_digits. split.
  - intros [Hl Ha]. rewrite removeAll_length in Hl by assumption. auto.
  - intros [Ha Hl]. rewrite removeAll_length by assumption. auto.
Qed.

Lemma isValidMobile_digits_witness :
  Text.isAscii "+91 (98765) 43-210" = true
  /\ (Validation.isValidMobile "+91 (98765) 43-210" = true
      <-> Regex.all (fun c => Regex.digit c || Validation.mobilePunctuation c)
            "+91 (98765) 43-210" = true
          /\ (10 <= Regex.count Regex.digit "+91 (98765) 43-210" <= 15)%nat).
Proof.
  split; [reflexivity|].
  apply (isValidMobile_digits "+91 (98765) 43-210"). reflexivity.
Defined.

Example isValidMobile_samples :
  Validation.isValidMobile "+91 (98765) 43-210" = true
  /\ Validation.isValidMobile "98765+43210" = true
  /\ Validation.isValidMobile "987654321" = false
  /\ Validation.isValidMobile "98765x43210" = false
  /\ Validation.isValidEmail "amit@example" = false
  /\ Validation.isValidEmail "a@b@c.d" = false.
Proof. repeat split; reflexivity. Qed.

(* --------------------------------------------------------------------- *)
(** ** Batch splitting: batch sizes below 1, and the number of batches *)
(* --------------------------------------------------------------------- *)

Lemma splitLoop_never_ends (A : Type) (items : list A) (n : Z) :
  n <= 0 ->
  forall (fuel : nat) (i : Z) (batches : list (list A)),
    i < Z.of_nat (length items) ->
    Batch.splitLoop fuel items n i batches = None.
Proof.
  intros Hn. induction fuel as [|fuel IH]; intros i batches Hi.
  - simpl. destruct (Z.ltb_spec i (Z.of_nat (length items))); [reflexivity|lia].
  - cbn [Batch.splitLoop].
    destruct (Z.ltb_spec i (Z.of_nat (length items))); [|lia].
    apply IH. lia.
Qed.

(** X4.  With a batch size of zero or less the splitting loop makes no
    progress: on a list that is not empty it is still running after any
    number of iterations. *)
Theorem split_without_progress (A : Type) (items : list A) (n : Z) :
  items <> [] ->
  n <= 0 ->
  forall fuel : nat, Batch.splitLoop fuel items n 0 [] = None.
Proof.
  intros Hne Hn fuel. apply splitLoop_never_ends; [assumption|].
  destruct items; [congruence | simpl; lia].
Qed.

Lemma split_without_progress_witness :
  Batch.splitLoop 1000 [1; 2; 3] (-2) 0 [] = None.
Proof.
  apply (split_without_progress Z [1; 2; 3] (-2)); [discriminate | lia].
Defined.

Lemma length_concat_full (A : Type) (n : nat) (batches : list (list A)) :
  Forall (fun b => Z.of_nat (length b) = Z.of_nat n) batches ->
  length (concat batches) = (n * length batches)%nat.
Proof.
  induction 1 as [|b batches Hb _ IH]; simpl; [lia|].
  rewrite length_app, IH. lia.
Qed.

(** The batches are as many as the items divided by the batch size,
    rounded up. *)
Lemma split_length (A : Type) (items : list A) (n : Z)
    (batches : list (list A)) :
  items <> [] ->
  1 <= n ->
  Batch.split items n = Some batches ->
  Z.of_nat (length batches) = (Z.of_nat (length items) + n - 1) / n.
Proof.
  intros Hne Hn Hrun.
  destruct (split_spec A items n Hne Hn)
    as (init & last & Hrun' & Hcat & Hfull & Hlast & Hlen).
  rewrite Hrun' in Hrun. injection Hrun as <-.
  rewrite <- Hcat. rewrite concat_app, !length_app. simpl.
  rewrite app_nil_r.
  rewrite (length_concat_full A (Z.to_nat n) init).
  2:{ eapply Forall_impl; [|exact Hfull]. simpl. intros b Hb. lia. }
  assert (Hl : (1 <= length last)%nat).
  { destruct last; [congruence | simpl; lia]. }
  apply Z.div_unique with (r := Z.of_nat (length last) - 1); nia.
Qed.

(** X5.  The number of batches is the number of items divided by the
    batch size, rounded up. *)
Theorem split_number_of_batches (A : Type) (items : list A) (n : Z)
    (batches : list (list A)) :
  items <> [] ->
  1 <= n ->
  Batch.split items n = Some batches ->
  Z.of_nat (length batches) = (Z.of_nat (length items) + n - 1) / n.
Proof. apply split_length. Qed.

Lemma split_number_of_batches_witness :
  Z.of_nat (length [[1; 2; 3]; [4; 5; 6]; [7]]) = (Z.of_nat 7 + 3 - 1) / 3.
Proof.
  apply (split_number_of_batches Z [1; 2; 3; 4; 5; 6; 7] 3);
    [discriminate | lia | reflexivity].
Defined.

(* --------------------------------------------------------------------- *)
(** ** [POST /send]: who is skipped, and mailers that always fail *)
(* --------------------------------------------------------------------- *)

Section SendCounts.

Context {W : Type}.
Variable sendLetter :
  Customer -> string -> string -> string -> Email.Options -> M W unit.
Variable delay : Js.num -> W -> W.
Variable body : Email.Request.

#[local] Abbreviation sendLoop' := (Email.sendLoop sendLetter delay body).
#[local] Abbreviation outcome' := (Email.outcome sendLetter delay body).
#[local] Abbreviation withoutAddress :=
  (fun c : Customer => negb (Js.truthy (get c "EMAIL"))).

Lemma outcome_skipped customer i w :
  Email.Status_eqb (Email.status (fst (outcome' customer i w))) Email.skipped
  = negb (Js.truthy (get customer "EMAIL")).
Proof.
  unfold Email.outcome.
  destruct (negb (Js.truthy (get customer "EMAIL"))); [reflexivity|].
  destruct (Email.attempt _ _ _ _ _ _) as [[u|e] w1]; reflexivity.
Qed.

Lemma sendLoop_skipped cs : forall i results w,
  Email.countStatus Email.skipped (fst (sendLoop' cs i results w))
  = (Email.countStatus Email.skipped results
     + length (filter withoutAddress cs))%nat.
Proof.
  induction cs as [|customer rest IH]; intros i results w.
  - simpl. lia.
  - rewrite sendLoop_cons, IH, countStatus_app.
    unfold Email.countStatus at 2. simpl filter.
    rewrite outcome_skipped.
    destruct (negb (Js.truthy (get customer "EMAIL"))); simpl; lia.
Qed.

Lemma filter_split_length (A : Type) (p : A -> bool) (l : list A) :
  (length (filter p l) + length (filter (fun x => negb (p x)) l))%nat
  = length l.
Proof.
  induction l as [|x l IH]; simpl; [reflexivity|].
  destruct (p x); simpl; lia.
Qed.

(** The counts of the reply by who has an address. *)
Lemma sendHandler_counts_by_address (w : W) :
  exists reply w',
    Email.sendHandler sendLetter delay body w = (Ok200 reply, w')
    /\ Email.skippedCount (Email.statistics reply)
       = length (filter withoutAddress (Email.customers body))
    /\ (Email.sentCount (Email.statistics reply)
        + Email.failedCount (Email.statistics reply))%nat
       = length (filter (fun c => Js.truthy (get c "EMAIL"))
                   (Email.customers body)).
Proof.
  rewrite sendHandler_reply. eexists. eexists. split; [reflexivity|].
  cbn [Email.statistics Email.skippedCount Email.sentCount Email.failedCount].
  pose proof (countStatus_total
                (fst (sendLoop' (Email.customers body) 0 [] w))) as Ht.
  rewrite sendLoop_length in Ht.
  pose proof (sendLoop_skipped (Email.customers body) 0 [] w) as Hs.
  pose proof (filter_split_length _ (fun c => Js.truthy (get c "EMAIL"))
                (Email.customers body)) as Hf.
  cbn in Hs. split; [exact Hs|].
  simpl in Ht. lia.
Qed.

(** X6.  Whatever the mailer does, the customers counted as skipped are
    exactly those without an address, and those counted as sent or
    failed are exactly those with one. *)
Theorem send_skips_exactly_the_missing_addresses (w : W) :
  exists reply w',
    Email.sendHandler sendLetter delay body w = (Ok200 reply, w')
    /\ Email.skippedCount (Email.statistics reply)
       = length (filter withoutAddress (Email.customers body))
    /\ (Email.sentCount (Email.statistics reply)
        + Email.failedCount (Email.statistics reply))%nat
       = length (filter (fun c => Js.truthy (get c "EMAIL"))
                   (Email.customers body)).
Proof. apply sendHandler_counts_by_address. Qed.

Lemma sendLoop_sent_none cs :
  (forall c s t i o w0, exists e w1, sendLetter c s t i o w0 = (Throw e, w1)) ->
  forall i results w,
    Email.countStatus Email.sent (fst (sendLoop' cs i results w))
    = Email.countStatus Email.sent results.
Proof.
  intros Hfail. induction cs as [|customer rest IH]; intros i results w.
  - reflexivity.
  - rewrite sendLoop_cons, IH, countStatus_app.
    unfold Email.countStatus at 2. simpl filter.
    unfold Email.outcome, Email.attempt.
    destruct (negb (Js.truthy (get customer "EMAIL"))); [simpl; lia|].
    destruct (Hfail customer (Email.subject body) (Email.content body)
                (Email.issueType body) (Email.options body)
                (if (0 <? i)%nat
                 then delay (Email.delayBetweenEmails body) w else w))
      as (e & w1 & ->).
    simpl. lia.
Qed.

(** X7.  With a mailer that throws on every call, nothing is counted as
    sent, and the customers counted as failed are exactly those with an
    address. *)
Theorem send_with_a_mailer_that_always_throws (w : W) :
  (forall c s t i o w0, exists e w1, sendLetter c s t i o w0 = (Throw e, w1)) ->
  exists reply w',
    Email.sendHandler sendLetter delay body w = (Ok200 reply, w')
    /\ Email.sentCount (Email.statistics reply) = 0%nat
    /\ Email.failedCount (Email.statistics reply)
       = length (filter (fun c => Js.truthy (get c "EMAIL"))
                   (Email.customers body))
    /\ Email.skippedCount (Email.statistics reply)
       = length (filter withoutAddress (Email.customers body)).
Proof.
  intros Hfail.
  destruct (sendHandler_counts_by_address w)
    as (reply & w' & Hrun & Hskip & Hrest).
  exists reply, w'. split; [exact Hrun|].
  assert (Hsent : Email.sentCount (Email.statistics reply) = 0%nat).
  { rewrite sendHandler_reply in Hrun. injection Hrun as <- _.
    cbn [Email.statistics Email.sentCount].
    now rewrite sendLoop_sent_none. }
  repeat split; [exact Hsent | lia | exact Hskip].
Qed.

Lemma sendLoop_all_skipped cs :
  forallb withoutAddress cs = true ->
  forall i results w,
    sendLoop' cs i results w = (results ++ map Email.skippedResult cs, w).
Proof.
  induction cs as [|customer rest IH]; intros Hall i results w.
  - simpl. now rewrite app_nil_r.
  - simpl in Hall. apply andb_true_iff in Hall as [Hc Hrest].
    cbn [Email.sendLoop]. rewrite Hc. rewrite IH by assumption.
    simpl. now rewrite <- app_assoc.
Qed.

(** X8.  When no customer has an address the mailer is not called and no
    time passes: the world is left as it was, and every result is a
    skip. *)
Theorem send_without_addresses_calls_nothing (w : W) :
  forallb withoutAddress (Email.customers body) = true ->
  exists reply,
    Email.sendHandler sendLetter delay body w = (Ok200 reply, w)
    /\ Email.results reply = map Email.skippedResult (Email.customers body)
    /\ Email.skippedCount (Email.statistics reply)
       = length (Email.customers body)
    /\ Email.sentCount (Email.statistics reply) = 0%nat
    /\ Email.failedCount (Email.statistics reply) = 0%nat.
Proof.
  intros Hall. rewrite sendHandler_reply.
  rewrite (sendLoop_all_skipped _ Hall). simpl.
  eexists. split; [reflexivity|].
  cbn [Email.results Email.statistics Email.skippedCount Email.sentCount
       Email.failedCount].
  assert (Hs : forall cs,
            Email.countStatus Email.skipped (map Email.skippedResult cs)
            = length cs
            /\ Email.countStatus Email.sent (map Email.skippedResult cs) = 0%nat
            /\ Email.countStatus Email.failed (map Email.skippedResult cs)
               = 0%nat).
  { unfold Email.countStatus. induction cs as [|c cs (I1 & I2 & I3)]; simpl;
      [auto|]. rewrite I1. auto. }
  destruct (Hs (Email.customers body)) as (H1 & H2 & H3). auto.
Qed.

End SendCounts.

Lemma send_with_a_mailer_that_always_throws_witness :
  exists reply w',
    Email.sendHandler (fun _ _ _ _ _ calls => (Throw Sample.deliveryFailed, S calls))
      Sample.noDelay Sample.emailRequest 0%nat = (Ok200 reply, w')
    /\ Email.sentCount (Email.statistics reply) = 0%nat
    /\ Email.failedCount (Email.statistics reply)
       = length (filter (fun c => Js.truthy (get c "EMAIL"))
                   (Email.customers Sample.emailRequest))
    /\ Email.skippedCount (Email.statistics reply)
       = length (filter (fun c => negb (Js.truthy (get c "EMAIL")))
                   (Email.customers Sample.emailRequest)).
Proof.
  apply (send_with_a_mailer_that_always_throws
           (fun _ _ _ _ _ calls => (Throw Sample.deliveryFailed, S calls))
           Sample.noDelay Sample.emailRequest 0%nat).
  intros c s t i o w0. exists Sample.deliveryFailed, (S w0). reflexivity.
Defined.

Lemma send_without_addresses_calls_nothing_witness :
  exists reply,
    Email.sendHandler Sample.mailerDownOnce Sample.noDelay
      Scenario.noAddressRequest 0%nat = (Ok200 reply, 0%nat)
    /\ Email.results reply
       = map Email.skippedResult (Email.customers Scenario.noAddressRequest)
    /\ Email.skippedCount (Email.statistics reply)
       = length (Email.customers Scenario.noAddressRequest)
    /\ Email.sentCount (Email.statistics reply) = 0%nat
    /\ Email.failedCount (Email.statistics reply) = 0%nat.
Proof.
  apply (send_without_addresses_calls_nothing Sample.mailerDownOnce
           Sample.noDelay Scenario.noAddressRequest 0%nat).
  reflexivity.
Defined.

(* --------------------------------------------------------------------- *)
(** ** [POST /bulk-send] *)
(* --------------------------------------------------------------------- *)

Section BulkSendFacts.

Context {W : Type}.
Variable sendLetter :
  Customer -> string -> string -> string -> Email.Options -> M W unit.
Variable delay : Js.num -> W -> W.
Variable body : Email.Request.
Variable batchDelayMs : option Js.num.

#[local] Abbreviation batchLoop :=
  (BulkEmail.batchLoop sendLetter delay body).
#[local] Abbreviation batchesLoop :=
  (BulkEmail.batchesLoop sendLetter delay body batchDelayMs).
#[local] Abbreviation bulkSendHandler :=
  (BulkEmail.bulkSendHandler sendLetter delay body batchDelayMs).

(** What one turn of the inner loop adds for [customer]. *)
Lemma bulk_batchLoop_cons customer rest batchResults w :
  exists r w1,
    batchLoop (customer :: rest) batchResults w
    = batchLoop rest (batchResults ++ [r]) w1
    /\ Email.customer r = get customer "ACCOUNT_NO"
    /\ (Js.truthy (get customer "EMAIL") = false ->
        r = BulkEmail.skippedResult customer /\ w1 = w).
Proof.
  cbn [BulkEmail.batchLoop].
  destruct (Js.truthy (get customer "EMAIL")) eqn:He; simpl negb; cbv iota.
  - destruct (sendLetter _ _ _ _ _ _) as [[u|e] w1];
      eexists; eexists; (split; [reflexivity|]); split;
        first [reflexivity | discriminate].
  - eexists. eexists. split; [reflexivity|]. split; [reflexivity|]. auto.
Qed.

Lemma bulk_batchLoop_acc batch : forall batchResults w,
  batchLoop batch batchResults w
  = (batchResults ++ fst (batchLoop batch [] w), snd (batchLoop batch [] w)).
Proof.
  induction batch as [|customer rest IH]; intros batchResults w.
  - simpl. now rewrite app_nil_r.
  - cbn [BulkEmail.batchLoop].
    destruct (negb (Js.truthy (get customer "EMAIL"))).
    + rewrite IH. rewrite (IH ([] ++ _)). simpl. now rewrite <- app_assoc.
    + destruct (sendLetter _ _ _ _ _ _) as [[u|e] w1];
        rewrite IH; rewrite (IH ([] ++ _)); simpl; now rewrite <- app_assoc.
Qed.

Lemma bulk_batchLoop_app pre : forall suf batchResults w,
  batchLoop (pre ++ suf) batchResults w
  = batchLoop suf (fst (batchLoop pre batchResults w))
      (snd (batchLoop pre batchResults w)).
Proof.
  induction pre as [|customer rest IH]; intros suf batchResults w.
  - reflexivity.
  - rewrite <- app_comm_cons. cbn [BulkEmail.batchLoop].
    destruct (negb (Js.truthy (get customer "EMAIL"))).
    + apply IH.
    + destruct (sendLetter _ _ _ _ _ _) as [[u|e] w1]; apply IH.
Qed.

Lemma bulk_batchLoop_customers batch : forall batchResults w,
  map Email.customer (fst (batchLoop batch batchResults w))
  = map Email.customer batchResults
    ++ map (fun c => get c "ACCOUNT_NO") batch.
Proof.
  induction batch as [|customer rest IH]; intros batchResults w.
  - simpl. now rewrite app_nil_r.
  - destruct (bulk_batchLoop_cons customer rest batchResults w)
      as (r & w1 & -> & Hr & _).
    rewrite IH, map_app, <- app_assoc. simpl. now rewrite Hr.
Qed.

Lemma bulk_batchesLoop_customers batches : forall batchIndex total allResults w,
  map Email.customer (fst (batchesLoop batches batchIndex total allResults w))
  = map Email.customer allResults
    ++ map (fun c => get c "ACCOUNT_NO") (concat batches).
Proof.
  induction batches as [|batch rest IH]; intros batchIndex total allResults w.
  - simpl. now rewrite app_nil_r.
  - cbn [BulkEmail.batchesLoop].
    pose proof (bulk_batchLoop_customers batch [] w) as Hb.
    destruct (batchLoop batch [] w) as [batchResults w1].
    rewrite IH. simpl in Hb. simpl concat.
    now rewrite !map_app, Hb, <- app_assoc.
Qed.

(** With a timer that changes nothing, the batches are one pass over
    all customers. *)
Lemma bulk_batchesLoop_flat batches :
  (forall ms w, delay ms w = w) ->
  forall batchIndex total allResults w,
    batchesLoop batches batchIndex total allResults w
    = (allResults ++ fst (batchLoop (concat batches) [] w),
       snd (batchLoop (concat batches) [] w)).
Proof.
  intros Hidle.
  induction batches as [|batch rest IH]; intros batchIndex total allResults w.
  - simpl. now rewrite app_nil_r.
  - cbn [BulkEmail.batchesLoop]. simpl concat.
    rewrite bulk_batchLoop_app.
    destruct (batchLoop batch [] w) as [batchResults w1]. simpl fst. simpl snd.
    rewrite IH.
    replace (if Z.of_nat batchIndex <? Z.of_nat total - 1
             then delay (BulkEmail.delayBetweenBatches batchDelayMs) w1 else w1)
      with w1 by (destruct (_ <? _); [now rewrite Hidle | reflexivity]).
    rewrite (bulk_batchLoop_acc (concat rest) batchResults).
    simpl. now rewrite app_assoc.
Qed.

(** The reply of the handler when the splitting loop ends. *)
Lemma bulkSendHandler_reply (w : W) :
  Email.customers body <> [] ->
  match Email.batchSize (Email.options body) with
  | Some n => 0 <= n
  | None => True
  end ->
  exists reply w',
    bulkSendHandler w = Some (Ok200 reply, w')
    /\ map Email.customer (BulkEmail.results reply)
       = map (fun c => get c "ACCOUNT_NO") (Email.customers body)
    /\ Email.total (BulkEmail.statistics reply)
       = length (Email.customers body)
    /\ (Email.sentCount (BulkEmail.statistics reply)
        + Email.failedCount (BulkEmail.statistics reply)
        + Email.skippedCount (BulkEmail.statistics reply))%nat
       = Email.total (BulkEmail.statistics reply)
    /\ Z.of_nat (BulkEmail.batchesProcessed reply)
       = (Z.of_nat (length (Email.customers body))
          + Batch.batchSizeOr (Email.batchSize (Email.options body)) 5 - 1)
         / Batch.batchSizeOr (Email.batchSize (Email.options body)) 5.
Proof.
  intros Hne Hn.
  assert (Hsize : 1 <= Batch.batchSizeOr (Email.batchSize (Email.options body)) 5).
  { destruct (Email.batchSize (Email.options body)) as [n|]; simpl; [|lia].
    destruct (Z.eqb_spec n 0); lia. }
  destruct (split_spec _ (Email.customers body) _ Hne Hsize)
    as (init & last & Hrun & Hcat & _).
  pose proof (split_length _ _ _ _ Hne Hsize Hrun) as Hcount.
  unfold BulkEmail.bulkSendHandler, Email.bulkBatches. rewrite Hrun.
  pose proof (bulk_batchesLoop_customers (init ++ [last]) 0
                (length (init ++ [last])) [] w) as Hres.
  destruct (batchesLoop (init ++ [last]) 0 (length (init ++ [last])) [] w)
    as [allResults w'].
  eexists. eexists. split; [reflexivity|].
  cbn [BulkEmail.results BulkEmail.statistics BulkEmail.batchesProcessed
       Email.total Email.sentCount Email.failedCount Email.skippedCount].
  simpl in Hres. rewrite Hcat in Hres.
  repeat split.
  - exact Hres.
  - rewrite countStatus_total.
    rewrite <- (length_map Email.customer), Hres. now rewrite length_map.
  - exact Hcount.
Qed.

(** X9.  With customers and a batch size that is absent, zero or at
    least 1, the handler replies with one result for each customer, in
    the order of the input and under its account number; the number of
    batches is the number of customers divided by the batch size,
    rounded up, and [total] is the sum of the three counts. *)
Theorem bulk_send_one_result_per_customer (w : W) :
  Email.customers body <> [] ->
  match Email.batchSize (Email.options body) with
  | Some n => 0 <= n
  | None => True
  end ->
  exists reply w',
    bulkSendHandler w = Some (Ok200 reply, w')
    /\ map Email.customer (BulkEmail.results reply)
       = map (fun c => get c "ACCOUNT_NO") (Email.customers body)
    /\ Email.total (BulkEmail.statistics reply)
       = length (Email.customers body)
    /\ (Email.sentCount (BulkEmail.statistics reply)
        + Email.failedCount (BulkEmail.statistics reply)
        + Email.skippedCount (BulkEmail.statistics reply))%nat
       = Email.total (BulkEmail.statistics reply)
    /\ Z.of_nat (BulkEmail.batchesProcessed reply)
       = (Z.of_nat (length (Email.customers body))
          + Batch.batchSizeOr (Email.batchSize (Email.options body)) 5 - 1)
         / Batch.batchSizeOr (Email.batchSize (Email.options body)) 5.
Proof. apply bulkSendHandler_reply. Qed.

(** X10.  With a timer that leaves the world as it is, the size of the
    batches plays no role: the results and the world reached are those
    of one pass over all customers. *)
Theorem bulk_send_batches_are_transparent (w : W) :
  (forall ms w0, delay ms w0 = w0) ->
  forall reply w',
    bulkSendHandler w = Some (Ok200 reply, w') ->
    BulkEmail.results reply = fst (batchLoop (Email.customers body) [] w)
    /\ w' = snd (batchLoop (Email.customers body) [] w).
Proof.
  intros Hidle reply w'.
  unfold BulkEmail.bulkSendHandler.
  destruct (Email.bulkBatches body) as [batches|] eqn:Hsplit; [|discriminate].
  assert (Hcat : concat batches = Email.customers body).
  { unfold Email.bulkBatches in Hsplit.
    destruct (Email.customers body) as [|c cs] eqn:Hc.
    - rewrite split_nil in Hsplit. now injection Hsplit as <-.
    - destruct (Z_le_gt_dec 1
                  (Batch.batchSizeOr (Email.batchSize (Email.options body)) 5))
        as [Hsize|Hsize].
      + destruct (split_spec _ (c :: cs) _ ltac:(discriminate) Hsize)
          as (init & last & Hrun & Hcat & _).
        rewrite Hrun in Hsplit. now injection Hsplit as <-.
      + unfold Batch.split in Hsplit.
        rewrite splitLoop_never_ends in Hsplit; [discriminate | lia|].
        simpl. lia. }
  rewrite (bulk_batchesLoop_flat batches Hidle), Hcat. simpl.
  intros H. injection H as <- <-. auto.
Qed.

End BulkSendFacts.

Lemma bulk_send_one_result_per_customer_witness :
  exists reply w',
    BulkEmail.bulkSendHandler Sample.mailerDownOnce Sample.noDelay
      Sample.emailRequest None 0%nat = Some (Ok200 reply, w')
    /\ map Email.customer (BulkEmail.results reply)
       = map (fun c => get c "ACCOUNT_NO") (Email.customers Sample.emailRequest)
    /\ Email.total (BulkEmail.statistics reply)
       = length (Email.customers Sample.emailRequest)
    /\ (Email.sentCount (BulkEmail.statistics reply)
        + Email.failedCount (BulkEmail.statistics reply)
        + Email.skippedCount (BulkEmail.statistics reply))%nat
       = Email.total (BulkEmail.statistics reply)
    /\ Z.of_nat (BulkEmail.batchesProcessed reply)
       = (Z.of_nat (length (Email.customers Sample.emailRequest))
          + Batch.batchSizeOr
              (Email.batchSize (Email.options Sample.emailRequest)) 5 - 1)
         / Batch.batchSizeOr
             (Email.batchSize (Email.options Sample.emailRequest)) 5.
Proof.
  apply (bulk_send_one_result_per_customer Sample.mailerDownOnce
           Sample.noDelay Sample.emailRequest None 0%nat).
  - discriminate.
  - exact I.
Defined.

Lemma bulk_send_batches_are_transparent_witness :
  BulkEmail.bulkSendHandler Sample.mailerDownOnce Sample.noDelay
    Scenario.batchesOfTwo None 0%nat
  = Some (Ok200 Scenario.bulkReply, 3%nat)
  /\ BulkEmail.results Scenario.bulkReply
     = fst (BulkEmail.batchLoop Sample.mailerDownOnce Sample.noDelay
              Scenario.batchesOfTwo (Email.customers Scenario.batchesOfTwo) []
              0%nat)
  /\ 3%nat
     = snd (BulkEmail.batchLoop Sample.mailerDownOnce Sample.noDelay
              Scenario.batchesOfTwo (Email.customers Scenario.batchesOfTwo) []
              0%nat).
Proof.
  split; [reflexivity|].
  apply (bulk_send_batches_are_transparent Sample.mailerDownOnce
           Sample.noDelay Scenario.batchesOfTwo None 0%nat).
  - reflexivity.
  - reflexivity.
Defined.

(* --------------------------------------------------------------------- *)
(** ** [POST /generate]: the PDF renderer *)
(* --------------------------------------------------------------------- *)

Section PdfFacts.

Context {W : Type}.
Variable generateLetterContent :
  Customer -> string -> string -> M W Letters.LetterData.
Variable body : Letters.Request.

Lemma generateLoop_without_pdf
    (pdf1 pdf2 : string -> Customer -> M W Letters.Buffer) cs :
  Letters.pdfRequested body = false ->
  forall i letters errors w,
    Letters.generateLoop generateLetterContent pdf1 body cs i letters errors w
    = Letters.generateLoop generateLetterContent pdf2 body cs i letters errors w.
Proof.
  intros Hoff. induction cs as [|customer rest IH]; intros i letters errors w.
  - reflexivity.
  - cbn [Letters.generateLoop]. rewrite Hoff.
    destruct (generateLetterContent _ _ _ _) as [[letterData|e] w1]; apply IH.
Qed.

(** X11.  Unless [options.generatePDF] is [true] the PDF renderer is not
    called: the reply and the world reached are the same with any two
    renderers, and no letter carries a PDF or a PDF error. *)
Theorem generate_without_pdf_calls_no_renderer
    (pdf1 pdf2 : string -> Customer -> M W Letters.Buffer) (w : W) :
  Letters.generatePDF (Letters.options body) <> Some true ->
  Letters.generateHandler generateLetterContent pdf1 body w
  = Letters.generateHandler generateLetterContent pdf2 body w
  /\ exists reply w',
       Letters.generateHandler generateLetterContent pdf1 body w
       = (Ok200 reply, w')
       /\ Forall (fun r => Letters.pdfBase64 r = None
                           /\ Letters.pdfSize r = None
                           /\ Letters.pdfError r = None)
            (Letters.letters reply).
Proof.
  intros Hnot.
  assert (Hoff : Letters.pdfRequested body = false).
  { unfold Letters.pdfRequested.
    destruct (Letters.generatePDF (Letters.options body)) as [[|]|];
      congruence. }
  split.
  - unfold Letters.generateHandler.
    now rewrite (generateLoop_without_pdf pdf1 pdf2 _ Hoff).
  - assert (Hloop : forall cs i letters errors w0,
              Forall (fun r => Letters.pdfBase64 r = None
                               /\ Letters.pdfSize r = None
                               /\ Letters.pdfError r = None) letters ->
              Forall (fun r => Letters.pdfBase64 r = None
                               /\ Letters.pdfSize r = None
                               /\ Letters.pdfError r = None)
                (fst (fst (Letters.generateLoop generateLetterContent pdf1 body
                             cs i letters errors w0)))).
    { induction cs as [|customer rest IH]; intros i letters errors w0 Hl.
      - exact Hl.
      - cbn [Letters.generateLoop]. rewrite Hoff.
        destruct (generateLetterContent _ _ _ _) as [[letterData|e] w1].
        + apply IH. apply Forall_app. split; [exact Hl|].
          constructor; [|constructor]. simpl. auto.
        + apply IH. exact Hl. }
    destruct (generateHandler_reply generateLetterContent pdf1 body w)
      as (reply & Hrun & Hletters & _).
    exists reply. eexists. split; [exact Hrun|].
    rewrite Hletters. apply Hloop. constructor.
Qed.

End PdfFacts.

Lemma generate_without_pdf_calls_no_renderer_witness :
  Letters.generateHandler Sample.renderer Sample.pdfDownOnce
    Scenario.lettersWithoutPdf 0%nat
  = Letters.generateHandler Sample.renderer
      (fun _ _ calls => (Throw Sample.pdfFailed, S calls))
      Scenario.lettersWithoutPdf 0%nat
  /\ exists reply w',
       Letters.generateHandler Sample.renderer Sample.pdfDownOnce
         Scenario.lettersWithoutPdf 0%nat = (Ok200 reply, w')
       /\ Forall (fun r => Letters.pdfBase64 r = None
                           /\ Letters.pdfSize r = None
                           /\ Letters.pdfError r = None)
            (Letters.letters reply).
Proof.
  apply (generate_without_pdf_calls_no_renderer Sample.renderer
           Scenario.lettersWithoutPdf Sample.pdfDownOnce
           (fun _ _ calls => (Throw Sample.pdfFailed, S calls)) 0%nat).
  discriminate.
Defined.

(* --------------------------------------------------------------------- *)
(** ** [POST /bulk-generate] *)
(* --------------------------------------------------------------------- *)

Section BulkGenerateFacts.

Context {W : Type}.
Variable generateLetterContent :
  Customer -> string -> string -> M W Letters.LetterData.
Variable body : Letters.Request.

#[local] Abbreviation gBatchLoop :=
  (BulkLetters.batchLoop generateLetterContent body).
#[local] Abbreviation gBatchesLoop :=
  (BulkLetters.batchesLoop generateLetterContent body).
#[local] Abbreviation bulkGenerateHandler :=
  (BulkLetters.bulkGenerateHandler generateLetterContent body).

Lemma bulk_generate_batchLoop_acc batch : forall batchLetters allErrors w,
  gBatchLoop batch batchLetters allErrors w
  = ((batchLetters ++ fst (fst (gBatchLoop batch [] [] w)),
      allErrors ++ snd (fst (gBatchLoop batch [] [] w))),
     snd (gBatchLoop batch [] [] w)).
Proof.
  induction batch as [|customer rest IH]; intros batchLetters allErrors w.
  - simpl. now rewrite !app_nil_r.
  - cbn [BulkLetters.batchLoop].
    destruct (generateLetterContent _ _ _ _) as [[letterData|e] w1].
    + rewrite IH. rewrite (IH ([] ++ _)). simpl. now rewrite <- app_assoc.
    + rewrite IH. rewrite (IH _ ([] ++ _)). simpl. now rewrite <- app_assoc.
Qed.

Lemma bulk_generate_batchLoop_app pre : forall suf batchLetters allErrors w,
  gBatchLoop (pre ++ suf) batchLetters allErrors w
  = gBatchLoop suf
      (fst (fst (gBatchLoop pre batchLetters allErrors w)))
      (snd (fst (gBatchLoop pre batchLetters allErrors w)))
      (snd (gBatchLoop pre batchLetters allErrors w)).
Proof.
  induction pre as [|customer rest IH]; intros suf batchLetters allErrors w.
  - reflexivity.
  - rewrite <- app_comm_cons. cbn [BulkLetters.batchLoop].
    destruct (generateLetterContent _ _ _ _) as [[letterData|e] w1]; apply IH.
Qed.

Lemma bulk_generate_batchLoop_length batch : forall batchLetters allErrors w,
  (length (fst (fst (gBatchLoop batch batchLetters allErrors w)))
   + length (snd (fst (gBatchLoop batch batchLetters allErrors w))))%nat
  = (length batchLetters + length allErrors + length batch)%nat.
Proof.
  induction batch as [|customer rest IH]; intros batchLetters allErrors w.
  - simpl. lia.
  - cbn [BulkLetters.batchLoop].
    destruct (generateLetterContent _ _ _ _) as [[letterData|e] w1];
      rewrite IH, length_app; simpl; lia.
Qed.

(** The batches are one pass over all customers. *)
Lemma bulk_generate_batchesLoop_flat batches : forall allLetters allErrors w,
  gBatchesLoop batches allLetters allErrors w
  = ((allLetters ++ fst (fst (gBatchLoop (concat batches) [] [] w)),
      allErrors ++ snd (fst (gBatchLoop (concat batches) [] [] w))),
     snd (gBatchLoop (concat batches) [] [] w)).
Proof.
  induction batches as [|batch rest IH]; intros allLetters allErrors w.
  - simpl. now rewrite !app_nil_r.
  - cbn [BulkLetters.batchesLoop]. simpl concat.
    rewrite bulk_generate_batchLoop_app.
    rewrite (bulk_generate_batchLoop_acc batch [] allErrors).
    destruct (gBatchLoop batch [] [] w) as [[batchLetters batchErrors] w1].
    simpl fst. simpl snd. rewrite IH.
    rewrite (bulk_generate_batchLoop_acc (concat rest) batchLetters batchErrors).
    simpl. now rewrite !app_assoc.
Qed.

(** X12.  When the handler replies, its letters, its errors and the
    world reached are those of one pass over all customers, whatever the
    size of the batches; every customer is counted once, as generated or
    as an error. *)
Theorem bulk_generate_batches_are_transparent (w : W) :
  forall reply w',
    bulkGenerateHandler w = Some (Ok200 reply, w') ->
    BulkLetters.letters reply
    = fst (fst (gBatchLoop (Letters.customers body) [] [] w))
    /\ Letters.errorList (BulkLetters.errors reply)
       = snd (fst (gBatchLoop (Letters.customers body) [] [] w))
    /\ w' = snd (gBatchLoop (Letters.customers body) [] [] w)
    /\ (BulkLetters.totalGenerated (BulkLetters.summary reply)
        + BulkLetters.totalErrors (BulkLetters.summary reply))%nat
       = BulkLetters.totalRequested (BulkLetters.summary reply).
Proof.
  intros reply w'.
  unfold BulkLetters.bulkGenerateHandler.
  destruct (Letters.bulkBatches body) as [batches|] eqn:Hsplit; [|discriminate].
  assert (Hcat : concat batches = Letters.customers body).
  { unfold Letters.bulkBatches in Hsplit.
    destruct (Letters.customers body) as [|c cs] eqn:Hc.
    - rewrite split_nil in Hsplit. now injection Hsplit as <-.
    - destruct (Z_le_gt_dec 1
                  (Batch.batchSizeOr
                     (Letters.batchSize (Letters.options body)) 10))
        as [Hsize|Hsize].
      + destruct (split_spec _ (c :: cs) _ ltac:(discriminate) Hsize)
          as (init & last & Hrun & Hcat & _).
        rewrite Hrun in Hsplit. now injection Hsplit as <-.
      + unfold Batch.split in Hsplit.
        rewrite splitLoop_never_ends in Hsplit; [discriminate | lia|].
        simpl. lia. }
  rewrite bulk_generate_batchesLoop_flat, Hcat. simpl.
  pose proof (bulk_generate_batchLoop_length (Letters.customers body) [] [] w)
    as Hlen.
  destruct (gBatchLoop (Letters.customers body) [] [] w)
    as [[allLetters allErrors] w1].
  intros H. injection H as <- <-. simpl in *.
  repeat split; try reflexivity.
  - now destruct allErrors.
  - exact Hlen.
Qed.

(** With customers and a batch size that is absent, zero or at least 1
    the handler replies. *)
Lemma bulkGenerateHandler_replies (w : W) :
  Letters.customers body <> [] ->
  match Letters.batchSize (Letters.options body) with
  | Some n => 0 <= n
  | None => True
  end ->
  exists reply w',
    bulkGenerateHandler w = Some (Ok200 reply, w')
    /\ Z.of_nat (BulkLetters.batchesProcessed (BulkLetters.summary reply))
       = (Z.of_nat (length (Letters.customers body))
          + BulkLetters.batchSize (BulkLetters.summary reply) - 1)
         / BulkLetters.batchSize (BulkLetters.summary reply).
Proof.
  intros Hne Hn.
  assert (Hsize :
    1 <= Batch.batchSizeOr (Letters.batchSize (Letters.options body)) 10).
  { destruct (Letters.batchSize (Letters.options body)) as [n|]; simpl; [|lia].
    destruct (Z.eqb_spec n 0); lia. }
  destruct (split_spec _ (Letters.customers body) _ Hne Hsize)
    as (init & last & Hrun & Hcat & _).
  pose proof (split_length _ _ _ _ Hne Hsize Hrun) as Hcount.
  unfold BulkLetters.bulkGenerateHandler, Letters.bulkBatches. rewrite Hrun.
  destruct (gBatchesLoop (init ++ [last]) [] [] w) as [[allLetters allErrors] w'].
  eexists. eexists. split; [reflexivity|]. exact Hcount.
Qed.

(** With a negative batch size and at least one customer the handler
    never replies. *)
Lemma bulk_generate_negative_batch_size (w : W) (n : Z) :
  Letters.customers body <> [] ->
  Letters.batchSize (Letters.options body) = Some n ->
  n < 0 ->
  bulkGenerateHandler w = None.
Proof.
  intros Hne Hsome Hn.
  unfold BulkLetters.bulkGenerateHandler, Letters.bulkBatches, Batch.split.
  rewrite Hsome. simpl Batch.batchSizeOr.
  destruct (Z.eqb_spec n 0); [lia|].
  rewrite splitLoop_never_ends; [reflexivity | lia|].
  destruct (Letters.customers body); [congruence | simpl; lia].
Qed.

End BulkGenerateFacts.

Lemma bulk_generate_batches_are_transparent_witness :
  exists reply w',
    BulkLetters.bulkGenerateHandler Sample.renderer Scenario.lettersWithoutPdf
      0%nat = Some (Ok200 reply, w')
    /\ BulkLetters.letters reply
       = fst (fst (BulkLetters.batchLoop Sample.renderer
                     Scenario.lettersWithoutPdf
                     (Letters.customers Scenario.lettersWithoutPdf) [] [] 0%nat))
    /\ Letters.errorList (BulkLetters.errors reply)
       = snd (fst (BulkLetters.batchLoop Sample.renderer
                     Scenario.lettersWithoutPdf
                     (Letters.customers Scenario.lettersWithoutPdf) [] [] 0%nat))
    /\ w'
       = snd (BulkLetters.batchLoop Sample.renderer Scenario.lettersWithoutPdf
                (Letters.customers Scenario.lettersWithoutPdf) [] [] 0%nat)
    /\ (BulkLetters.totalGenerated (BulkLetters.summary reply)
        + BulkLetters.totalErrors (BulkLetters.summary reply))%nat
       = BulkLetters.totalRequested (BulkLetters.summary reply).
Proof.
  eexists. eexists. split; [reflexivity|].
  apply (bulk_generate_batches_are_transparent Sample.renderer
           Scenario.lettersWithoutPdf 0%nat).
  reflexivity.
Defined.

(* --------------------------------------------------------------------- *)
(** ** The routes behind their validation *)
(* --------------------------------------------------------------------- *)

Section RouteFacts.

Context {W : Type}.
Variable length16 : string -> nat.
Variable joiEmail : string -> bool.
Variable generateLetterContent :
  Customer -> string -> string -> M W Letters.LetterData.
Variable generateLetterPDF : string -> Customer -> M W Letters.Buffer.
Variable sendLetter :
  Customer -> string -> string -> string -> Email.Options -> M W unit.
Variable delay : Js.num -> W -> W.

(** What [validateLetterRequest] lets through. *)
Lemma validated_letter_request (body : LetterValidation.Body)
    (value : Letters.Request) :
  LetterValidation.validateLetterRequest length16 body = inr value ->
  Letters.customers value = LetterValidation.customers body
  /\ Letters.customers value <> []
  /\ Z.of_nat (length (Letters.customers value)) <= 1000
  /\ forallb LetterValidation.validCustomer (Letters.customers value) = true
  /\ validIssueType (Letters.issueType value) = true
  /\ match Letters.batchSize (Letters.options value) with
     | Some n => 1 <= n <= 100
     | None => True
     end.
Proof.
  unfold LetterValidation.validateLetterRequest.
  destruct (forallb _ _ && _ && _) eqn:Hc; simpl; [|discriminate].
  apply andb_true_iff in Hc as [Hc Hmax]. apply andb_true_iff in Hc as [Hall Hmin].
  destruct (validIssueType _) eqn:Ht; simpl; [|discriminate].
  destruct (Customers.optionHolds _ (LetterValidation.customMessage body));
    simpl; [|discriminate].
  assert (Hne : LetterValidation.customers body <> []).
  { intros E. rewrite E in Hmin. simpl in Hmin. discriminate. }
  destruct (LetterValidation.options body) as [o|].
  - destruct (LetterValidation.validOptions o) eqn:Ho; [|discriminate].
    intros H. injection H as <-. simpl.
    apply Z.leb_le in Hmax.
    unfold LetterValidation.validOptions in Ho.
    apply andb_true_iff in Ho as [Hb _].
    repeat split; try assumption; try lia;
      destruct (LetterValidation.batchSize o) as [n|]; simpl in *; lia.
  - intros H. injection H as <-. simpl. apply Z.leb_le in Hmax.
    repeat split; try assumption; lia.
Qed.

(** What [validateEmailRequest] lets through. *)
Lemma validated_email_request (body : EmailValidation.Body)
    (value : EmailValidation.Value) :
  EmailValidation.validateEmailRequest length16 joiEmail body = inr value ->
  Email.customers (EmailValidation.request value)
  = EmailValidation.customers body
  /\ Email.customers (EmailValidation.request value) <> []
  /\ Z.of_nat (length (Email.customers (EmailValidation.request value))) <= 500
  /\ Email.content (EmailValidation.request value) <> ""
  /\ match Email.batchSize (Email.options (EmailValidation.request value)) with
     | Some n => 1 <= n <= 10
     | None => True
     end.
Proof.
  unfold EmailValidation.validateEmailRequest.
  destruct (forallb _ _ && _ && _) eqn:Hc; simpl; [|discriminate].
  apply andb_true_iff in Hc as [Hc Hmax]. apply andb_true_iff in Hc as [Hall Hmin].
  destruct (Customers.optionHolds _ (EmailValidation.subject body));
    simpl; [|discriminate].
  destruct (nonEmpty (EmailValidation.content body) && _) eqn:Hcontent;
    simpl; [|discriminate].
  apply andb_true_iff in Hcontent as [Hcontent _].
  destruct (validIssueType _) eqn:Ht; simpl; [|discriminate].
  assert (Hne : EmailValidation.customers body <> []).
  { intros E. rewrite E in Hmin. simpl in Hmin. discriminate. }
  assert (Hcne : EmailValidation.content body <> "").
  { intros E. rewrite E in Hcontent. discriminate. }
  destruct (EmailValidation.options body) as [o|].
  - destruct (EmailValidation.validOptions o) eqn:Ho; [|discriminate].
    intros H. injection H as <-. simpl.
    apply Z.leb_le in Hmax.
    unfold EmailValidation.validOptions in Ho.
    apply andb_true_iff in Ho as [Ho _]. apply andb_true_iff in Ho as [Ho _].
    apply andb_true_iff in Ho as [_ Hb].
    repeat split; try assumption; try lia;
      destruct (EmailValidation.batchSize o) as [n|]; simpl in *; lia.
  - intros H. injection H as <-. simpl. apply Z.leb_le in Hmax.
    repeat split; try assumption; lia.
Qed.

(** X13.  Behind their validation the two bulk routes always reply: a
    body whose batch size would keep the splitting loop from ending is
    answered with 400, and every other body reaches the end of the
    handler. *)
Theorem bulk_routes_always_reply :
  (forall (body : LetterValidation.Body) (w : W),
     exists r w',
       Routes.bulkGenerateRoute length16 generateLetterContent body w
       = Some (r, w'))
  /\ (forall (body : EmailValidation.Body) (w : W),
        exists r w',
          Routes.bulkSendRoute length16 joiEmail sendLetter delay body w
          = Some (r, w')).
Proof.
  split; intros body w.
  - unfold Routes.bulkGenerateRoute.
    destruct (LetterValidation.validateLetterRequest length16 body)
      as [path|value] eqn:Hv; [eauto|].
    apply validated_letter_request in Hv as (_ & Hne & _ & _ & _ & Hsize).
    destruct (bulkGenerateHandler_replies generateLetterContent value w Hne)
      as (reply & w' & Hrun & _).
    + destruct (Letters.batchSize (Letters.options value)); [lia | exact I].
    + eauto.
  - unfold Routes.bulkSendRoute.
    destruct (EmailValidation.validateEmailRequest length16 joiEmail body)
      as [path|value] eqn:Hv; [eauto|].
    apply validated_email_request in Hv as (_ & Hne & _ & _ & Hsize).
    destruct (bulkSendHandler_reply sendLetter delay
                (EmailValidation.request value)
                (EmailValidation.valueBatchDelayMs value) w Hne)
      as (reply & w' & Hrun & _).
    + destruct (Email.batchSize (Email.options (EmailValidation.request value)));
        [lia | exact I].
    + eauto.
Qed.

Lemma generateLoop_customerId cs :
  forallb LetterValidation.validCustomer cs = true ->
  forall (body : Letters.Request) i letters errors w,
    Forall (fun r => requiredString (Letters.customerId r) = true) letters ->
    Forall (fun e => requiredString (Letters.customer e) = true) errors ->
    Forall (fun r => requiredString (Letters.customerId r) = true)
      (fst (fst (Letters.generateLoop generateLetterContent generateLetterPDF
                   body cs i letters errors w)))
    /\ Forall (fun e => requiredString (Letters.customer e) = true)
         (snd (fst (Letters.generateLoop generateLetterContent
                      generateLetterPDF body cs i letters errors w))).
Proof.
  induction cs as [|customer rest IH]; intros Hall body i letters errors w Hl He.
  - simpl. auto.
  - simpl in Hall. apply andb_true_iff in Hall as [Hc Hrest].
    unfold LetterValidation.validCustomer in Hc.
    apply andb_true_iff in Hc as [_ Hacct].
    assert (Hid : forall d : Js.field,
              requiredString (get customer "ACCOUNT_NO" <||> d) = true).
    { intros d. unfold Js.or_else.
      destruct (get customer "ACCOUNT_NO") as [[| | |s]|]; try discriminate.
      cbn [requiredString] in Hacct. unfold nonEmpty in Hacct.
      cbn [Js.truthy]. rewrite Hacct. exact Hacct. }
    cbn [Letters.generateLoop].
    destruct (generateLetterContent _ _ _ _) as [[letterData|e] w1].
    + destruct (Letters.pdfRequested body).
      * destruct (generateLetterPDF _ _ _) as [[pdfBuffer|pdfError] w2];
          apply IH; try assumption;
          apply Forall_app; (split; [assumption|]);
          constructor; [|constructor| |constructor]; apply Hid.
      * apply IH; try assumption.
        apply Forall_app. split; [assumption|].
        constructor; [|constructor]. apply Hid.
    + apply IH; try assumption.
      apply Forall_app. split; [assumption|].
      constructor; [|constructor]. apply Hid.
Qed.

(** With customers that passed the validation, the letters are filed
    under the account numbers of the customers the template renderer
    returned for, and the errors under the account numbers of the
    others, in the order of the request.  [rendered] tells for each
    customer whether the template renderer returned. *)
Lemma generateLoop_account_numbers cs :
  forallb LetterValidation.validCustomer cs = true ->
  forall (body : Letters.Request) i w,
  exists rendered : list bool,
    length rendered = length cs
    /\ map Letters.customerId
         (fst (fst (Letters.generateLoop generateLetterContent
                      generateLetterPDF body cs i [] [] w)))
       = map (fun c => get c "ACCOUNT_NO")
           (map fst (filter snd (combine cs rendered)))
    /\ map Letters.customerName
         (fst (fst (Letters.generateLoop generateLetterContent
                      generateLetterPDF body cs i [] [] w)))
       = map (fun c => get c "NAME")
           (map fst (filter snd (combine cs rendered)))
    /\ map Letters.customer
         (snd (fst (Letters.generateLoop generateLetterContent
                      generateLetterPDF body cs i [] [] w)))
       = map (fun c => get c "ACCOUNT_NO")
           (map fst (filter (fun p => negb (snd p)) (combine cs rendered))).
Proof.
  induction cs as [|customer rest IH]; intros Hall body i w.
  - exists []. repeat split.
  - simpl in Hall. apply andb_true_iff in Hall as [Hc Hrest].
    unfold LetterValidation.validCustomer in Hc.
    apply andb_true_iff in Hc as [_ Hacct].
    assert (Hid : forall d : Js.field,
              (get customer "ACCOUNT_NO" <||> d) = get customer "ACCOUNT_NO").
    { intros d. unfold Js.or_else.
      destruct (get customer "ACCOUNT_NO") as [[| | |s]|]; try discriminate.
      cbn [requiredString] in Hacct. unfold nonEmpty in Hacct.
      cbn [Js.truthy]. now rewrite Hacct. }
    rewrite (generateLoop_cons generateLetterContent generateLetterPDF body).
    rewrite (generateLoop_acc generateLetterContent generateLetterPDF body).
    cbn [fst snd].
    destruct (IH Hrest body (S i)
                (snd (Letters.step generateLetterContent generateLetterPDF
                        body customer i w)))
      as (rendered & Hlen & Hids & Hnames & Herrs).
    assert (Hletter : forall r,
              fst (Letters.step generateLetterContent generateLetterPDF
                     body customer i w) = inl r ->
              Letters.customerId r = get customer "ACCOUNT_NO"
              /\ Letters.customerName r = get customer "NAME").
    { unfold Letters.step. intros r.
      destruct (generateLetterContent _ _ _ _) as [[letterData|e] w1];
        [|discriminate].
      destruct (Letters.pdfRequested body);
        [destruct (generateLetterPDF _ _ _) as [[?|?] ?]|];
        intros H; injection H as <-; (split; [apply Hid | reflexivity]). }
    assert (Herror : forall e,
              fst (Letters.step generateLetterContent generateLetterPDF
                     body customer i w) = inr e ->
              Letters.customer e = get customer "ACCOUNT_NO").
    { unfold Letters.step. intros e.
      destruct (generateLetterContent _ _ _ _) as [[letterData|e0] w1].
      - destruct (Letters.pdfRequested body);
          [destruct (generateLetterPDF _ _ _) as [[?|?] ?]|]; discriminate.
      - intros H. injection H as <-. apply Hid. }
    destruct (fst (Letters.step generateLetterContent generateLetterPDF
                     body customer i w)) as [r|e].
    + destruct (Hletter r eq_refl) as [Hr1 Hr2].
      exists (true :: rendered). simpl.
      rewrite Hlen, Hids, Hnames, Herrs, Hr1, Hr2. repeat split.
    + pose proof (Herror e eq_refl) as He.
      exists (false :: rendered). simpl.
      rewrite Hlen, Hids, Hnames, Herrs, He. repeat split.
Qed.

(** X14.  Behind [validateLetterRequest] every customer has an account
    number, so no letter of [POST /generate] is filed under its index
    and no error under a name.  In the order of the request, the
    [customerId] of each letter is the [ACCOUNT_NO] of the customer it
    was rendered for and its [customerName] the [NAME] of that customer,
    and the [customer] of each error is the [ACCOUNT_NO] of the customer
    the template renderer threw for; all of them are strings that are
    not empty.  [rendered] tells for each customer of the request
    whether the template renderer returned. *)
Theorem generate_route_files_under_account_numbers
    (body : LetterValidation.Body) (w : W) :
  forall reply w',
    Routes.generateRoute length16 generateLetterContent generateLetterPDF body w
    = (Ok200 reply, w') ->
    (exists rendered : list bool,
        length rendered = length (LetterValidation.customers body)
        /\ map Letters.customerId (Letters.letters reply)
           = map (fun c => get c "ACCOUNT_NO")
               (map fst (filter snd
                           (combine (LetterValidation.customers body)
                              rendered)))
        /\ map Letters.customerName (Letters.letters reply)
           = map (fun c => get c "NAME")
               (map fst (filter snd
                           (combine (LetterValidation.customers body)
                              rendered)))
        /\ map Letters.customer (Letters.errorList (Letters.errors reply))
           = map (fun c => get c "ACCOUNT_NO")
               (map fst (filter (fun p => negb (snd p))
                           (combine (LetterValidation.customers body)
                              rendered))))
    /\ Forall (fun r => requiredString (Letters.customerId r) = true)
         (Letters.letters reply)
    /\ Forall (fun e => requiredString (Letters.customer e) = true)
         (Letters.errorList (Letters.errors reply)).
Proof.
  intros reply w'. unfold Routes.generateRoute.
  destruct (LetterValidation.validateLetterRequest length16 body)
    as [path|value] eqn:Hv; [discriminate|].
  apply validated_letter_request in Hv as (Hcs & _ & _ & Hall & _).
  destruct (generateHandler_reply generateLetterContent generateLetterPDF
              value w) as (reply' & Hrun & Hletters & Herrors & _).
  rewrite Hrun. intros H. injection H as <- _.
  rewrite Hletters, Herrors. split.
  - rewrite <- Hcs. now apply generateLoop_account_numbers.
  - apply generateLoop_customerId; [assumption | constructor | constructor].
Qed.

End RouteFacts.

(* --------------------------------------------------------------------- *)
(** ** [normalizeAccountKey] *)
(* --------------------------------------------------------------------- *)

Lemma get_assign_same (c : Customer) (k : string) (v : Js.value) :
  get (assign c k v) k = Some v.
Proof.
  induction c as [|[k0 v0] c IH]; simpl.
  - now rewrite String.eqb_refl.
  - destruct (String.eqb_spec k k0) as [->|Hk0]; simpl.
    + now rewrite String.eqb_refl.
    + destruct (String.eqb_spec k k0); [congruence | exact IH].
Qed.

(** Assigning the value a property holds changes nothing. *)
Lemma assign_same (c : Customer) (k : string) (v : Js.value) :
  get c k = Some v -> assign c k v = c.
Proof.
  induction c as [|[k0 v0] c IH]; simpl; [discriminate|].
  destruct (String.eqb_spec k k0) as [->|Hk0].
  - intros H. now injection H as ->.
  - intros H. now rewrite IH.
Qed.

Lemma assign_twice (c : Customer) (k : string) (v : Js.value) :
  assign (assign c k v) k v = assign c k v.
Proof. apply assign_same, get_assign_same. Qed.

Lemma get_in_keys (c : Customer) (k : string) :
  In k (keys c) -> exists v, get c k = Some v.
Proof.
  induction c as [|[k0 v0] c IH]; simpl; [intros []|].
  destruct (String.eqb_spec k k0) as [->|Hk0]; [eauto|].
  intros [H|H]; [congruence | now apply IH].
Qed.

Lemma get_not_in_keys (c : Customer) (k : string) :
  ~ In k (keys c) -> get c k = None.
Proof.
  induction c as [|[k0 v0] c IH]; simpl; [reflexivity|].
  intros H. destruct (String.eqb_spec k k0) as [->|Hk0].
  - exfalso. apply H. now left.
  - apply IH. intros Hin. apply H. now right.
Qed.

(** An existing property keeps its position, a new one goes last. *)
Lemma keys_assign (c : Customer) (k : string) (v : Js.value) :
  keys (assign c k v) = if existsb (String.eqb k) (keys c) then keys c
                        else keys c ++ [k].
Proof.
  unfold keys. induction c as [|[k0 v0] c IH]; simpl; [reflexivity|].
  destruct (String.eqb_spec k k0) as [->|Hk0]; simpl; [reflexivity|].
  rewrite IH.
  now destruct (existsb (String.eqb k) (map fst c)).
Qed.

Lemma existsb_eqb_In (k : string) (l : list string) :
  existsb (String.eqb k) l = true <-> In k l.
Proof.
  rewrite existsb_exists. split.
  - intros (x & Hin & E). apply String.eqb_eq in E. now subst.
  - intros H. exists k. split; [exact H | apply String.eqb_refl].
Qed.

Lemma find_app_some (A : Type) (p : A -> bool) (l l' : list A) (x : A) :
  find p l = Some x -> find p (l ++ l') = Some x.
Proof.
  induction l as [|y l IH]; simpl; [discriminate|].
  destruct (p y); [auto | exact IH].
Qed.

Lemma find_app_none (A : Type) (p : A -> bool) (l l' : list A) :
  find p l = None -> find p (l ++ l') = find p l'.
Proof.
  induction l as [|y l IH]; simpl; [reflexivity|].
  destruct (p y); [discriminate | exact IH].
Qed.

Lemma reAccountKey_ACCOUNT_NO : Customers.reAccountKey "ACCOUNT_NO" = true.
Proof. reflexivity. Qed.

Lemma reAltAccountKey_ACCOUNT_NO : Customers.reAltAccountKey "ACCOUNT_NO" = true.
Proof. reflexivity. Qed.

Lemma reAccountKey_nonEmpty (k : string) :
  Customers.reAccountKey k = true -> nonEmpty k = true.
Proof. destruct k; [discriminate | reflexivity]. Qed.

Lemma reAltAccountKey_nonEmpty (k : string) :
  Customers.reAltAccountKey k = true -> nonEmpty k = true.
Proof. destruct k; [discriminate | reflexivity]. Qed.

(** The three ways [normalizeAccountKey] ends: [ACCOUNT_NO] is set from
    the first key that matches the account pattern, or from the first
    key that matches the second pattern, or the record is returned as it
    is. *)
Lemma normalizeAccountKey_cases (obj : Customer) :
  (exists k v,
      find Customers.reAccountKey (keys obj) = Some k
      /\ k <> "ACCOUNT_NO"
      /\ get obj k = Some v
      /\ Customers.normalizeAccountKey obj = assign obj "ACCOUNT_NO" v)
  \/ (exists a v,
        (find Customers.reAccountKey (keys obj) = None
         \/ find Customers.reAccountKey (keys obj) = Some "ACCOUNT_NO")
        /\ Js.truthy (get obj "ACCOUNT_NO") = false
        /\ find Customers.reAltAccountKey (keys obj) = Some a
        /\ get obj a = Some v
        /\ Customers.normalizeAccountKey obj = assign obj "ACCOUNT_NO" v)
  \/ ((find Customers.reAccountKey (keys obj) = None
       \/ find Customers.reAccountKey (keys obj) = Some "ACCOUNT_NO")
      /\ (Js.truthy (get obj "ACCOUNT_NO") = true
          \/ find Customers.reAltAccountKey (keys obj) = None)
      /\ Customers.normalizeAccountKey obj = obj).
Proof.
  unfold Customers.normalizeAccountKey.
  destruct (find Customers.reAccountKey (keys obj)) as [k|] eqn:Hfind.
  - destruct (find_some _ _ Hfind) as [Hin Hre].
    cbn [Customers.found Customers.String_key Customers.getFound].
    rewrite (reAccountKey_nonEmpty k Hre). simpl andb.
    destruct (String.eqb_spec k "ACCOUNT_NO") as [->|Hk]; simpl negb; cbv iota.
    + destruct (Js.truthy (get obj "ACCOUNT_NO")) eqn:Ht; simpl negb; cbv iota.
      * right. right. auto.
      * destruct (find Customers.reAltAccountKey (keys obj)) as [a|] eqn:Halt.
        -- destruct (find_some _ _ Halt) as [Hina Hrea].
           cbn [Customers.found Customers.getFound].
           rewrite (reAltAccountKey_nonEmpty a Hrea).
           destruct (get_in_keys obj a Hina) as [v Hv].
           right. left. exists a, v. rewrite Hv. auto 10.
        -- right. right. auto.
    + destruct (get_in_keys obj k Hin) as [v Hv].
      left. exists k, v. rewrite Hv. auto.
  - cbn [Customers.found]. simpl andb. cbv iota.
    destruct (Js.truthy (get obj "ACCOUNT_NO")) eqn:Ht; simpl negb; cbv iota.
    + right. right. auto.
    + destruct (find Customers.reAltAccountKey (keys obj)) as [a|] eqn:Halt.
      * destruct (find_some _ _ Halt) as [Hina Hrea].
        cbn [Customers.found Customers.getFound].
        rewrite (reAltAccountKey_nonEmpty a Hrea).
        destruct (get_in_keys obj a Hina) as [v Hv].
        right. left. exists a, v. rewrite Hv. auto 10.
      * right. right. auto.
Qed.

(** What [normalizeAccountKey] leaves as it was. *)
Lemma normalizeAccountKey_other_properties (obj : Customer) (k : string) :
  k <> "ACCOUNT_NO" ->
  get (Customers.normalizeAccountKey obj) k = get obj k
  /\ (keys (Customers.normalizeAccountKey obj) = keys obj
      \/ keys (Customers.normalizeAccountKey obj) = keys obj ++ ["ACCOUNT_NO"]).
Proof.
  intros Hk.
  assert (Hassign : forall v,
            get (assign obj "ACCOUNT_NO" v) k = get obj k
            /\ (keys (assign obj "ACCOUNT_NO" v) = keys obj
                \/ keys (assign obj "ACCOUNT_NO" v) = keys obj ++ ["ACCOUNT_NO"])).
  { intros v. split.
    - apply get_assign_other. congruence.
    - rewrite keys_assign. destruct (existsb _ _); auto. }
  destruct (normalizeAccountKey_cases obj)
    as [(k0 & v & _ & _ & _ & ->)|[(a & v & _ & _ & _ & _ & ->)|(_ & _ & ->)]];
    auto.
Qed.

(** X15.  [normalizeAccountKey] touches [ACCOUNT_NO] only: every other
    property reads as before, and the keys are those of the record, in
    their order, with [ACCOUNT_NO] added at the end when it was not
    there. *)
Theorem normalizeAccountKey_keeps_the_rest (obj : Customer) (k : string) :
  k <> "ACCOUNT_NO" ->
  get (Customers.normalizeAccountKey obj) k = get obj k
  /\ (keys (Customers.normalizeAccountKey obj) = keys obj
      \/ keys (Customers.normalizeAccountKey obj) = keys obj ++ ["ACCOUNT_NO"]).
Proof. apply normalizeAccountKey_other_properties. Qed.

Lemma normalizeAccountKey_keeps_the_rest_witness :
  get (Customers.normalizeAccountKey Scenario.sheetRow) "NAME"
  = get Scenario.sheetRow "NAME"
  /\ (keys (Customers.normalizeAccountKey Scenario.sheetRow)
      = keys Scenario.sheetRow
      \/ keys (Customers.normalizeAccountKey Scenario.sheetRow)
         = keys Scenario.sheetRow ++ ["ACCOUNT_NO"]).
Proof.
  apply (normalizeAccountKey_keeps_the_rest Scenario.sheetRow "NAME").
  discriminate.
Defined.

(** When the first key that matches is [ACCOUNT_NO] itself and holds a
    truthy value, the record is returned as it is. *)
Lemma normalizeAccountKey_own_account_number (obj : Customer) :
  find Customers.reAccountKey (keys obj) = Some "ACCOUNT_NO" ->
  Js.truthy (get obj "ACCOUNT_NO") = true ->
  Customers.normalizeAccountKey obj = obj.
Proof.
  intros Hfind Ht.
  destruct (normalizeAccountKey_cases obj)
    as [(k0 & v & Hf & Hk0 & _)|[(a & v & _ & Ht' & _)|(_ & _ & Hn)]].
  - rewrite Hfind in Hf. congruence.
  - congruence.
  - exact Hn.
Qed.

Example normalizeAccountKey_overwrites :
  get (Customers.normalizeAccountKey Scenario.twoAccountColumns) "ACCOUNT_NO"
  = Some (Js.VStr "SBIN0002001")
  /\ get Scenario.twoAccountColumns "ACCOUNT_NO" = Some (Js.VStr "SBIN0009999").
Proof. split; reflexivity. Qed.

(** X17.  Normalising twice is normalising once. *)
Theorem normalizeAccountKey_idempotent (obj : Customer) :
  Customers.normalizeAccountKey (Customers.normalizeAccountKey obj)
  = Customers.normalizeAccountKey obj.
Proof.
  destruct (normalizeAccountKey_cases obj)
    as [(k & v & Hf & Hk & Hv & Hn)
       |[(a & v & Hf & Ht & Ha & Hv & Hn)|(_ & _ & Hn)]].
  - (* set from the first key of the account pattern *)
    rewrite Hn.
    assert (Hf' : find Customers.reAccountKey (keys (assign obj "ACCOUNT_NO" v))
                  = Some k).
    { rewrite keys_assign. destruct (existsb _ _); [exact Hf|].
      now apply find_app_some. }
    destruct (normalizeAccountKey_cases (assign obj "ACCOUNT_NO" v))
      as [(k' & v' & Hg & _ & Hv' & Hn')
         |[(a' & v' & Hg & _)|(Hg & _)]].
    + rewrite Hf' in Hg. injection Hg as <-.
      rewrite get_assign_other in Hv' by congruence.
      rewrite Hv in Hv'. injection Hv' as <-.
      rewrite Hn'. apply assign_twice.
    + destruct Hg as [Hg|Hg]; rewrite Hf' in Hg; congruence.
    + destruct Hg as [Hg|Hg]; rewrite Hf' in Hg; congruence.
  - (* set from the first key of the second pattern *)
    rewrite Hn.
    destruct (String.eqb_spec a "ACCOUNT_NO") as [->|Hne].
    { rewrite !(assign_same obj "ACCOUNT_NO" v Hv). rewrite Hn.
      exact (assign_same obj "ACCOUNT_NO" v Hv). }
    assert (Hf' : find Customers.reAccountKey (keys (assign obj "ACCOUNT_NO" v))
                  = Some "ACCOUNT_NO").
    { rewrite keys_assign. destruct (existsb _ _) eqn:He.
      - destruct Hf as [Hf|Hf]; [|exact Hf].
        apply existsb_eqb_In in He.
        pose proof (find_none _ _ Hf _ He) as Hc.
        now rewrite reAccountKey_ACCOUNT_NO in Hc.
      - destruct Hf as [Hf|Hf].
        + rewrite (find_app_none _ _ _ _ Hf). reflexivity.
        + destruct (find_some _ _ Hf) as [Hin _].
          apply existsb_eqb_In in Hin. congruence. }
    assert (Ha' : find Customers.reAltAccountKey
                    (keys (assign obj "ACCOUNT_NO" v)) = Some a).
    { rewrite keys_assign. destruct (existsb _ _); [exact Ha|].
      now apply find_app_some. }
    destruct (normalizeAccountKey_cases (assign obj "ACCOUNT_NO" v))
      as [(k' & v' & Hg & Hk' & _)
         |[(a' & v' & _ & _ & Hg & Hv' & Hn')|(_ & _ & Hn')]].
    + rewrite Hf' in Hg. congruence.
    + rewrite Ha' in Hg. injection Hg as <-.
      rewrite get_assign_other in Hv' by congruence.
      rewrite Hv in Hv'. injection Hv' as <-.
      rewrite Hn'. apply assign_twice.
    + exact Hn'.
  - now rewrite !Hn.
Qed.

(* --------------------------------------------------------------------- *)
(** ** [GET /:accountNo] *)
(* --------------------------------------------------------------------- *)

Section LookupFacts.

Context {B : Builtins}.

Lemma toLowerCase_idempotent (s : string) :
  Str.toLowerCase (Str.toLowerCase s) = Str.toLowerCase s.
Proof.
  induction s as [|c s IH]; simpl; [reflexivity|]. rewrite IH. f_equal.
  destruct c as [[] [] [] [] [] [] [] []]; reflexivity.
Qed.

End LookupFacts.

Example lookup_sample :
  Lookup.lookupRoute (B := Node.builtins) Lookup.Missing "sbin0001002"
  = Lookup.lookupRoute (B := Node.builtins) Lookup.Missing "SBIN0001002"
  /\ (exists c,
        Lookup.lookupRoute (B := Node.builtins) Lookup.Missing "sbin0001002"
        = Lookup.Found c
        /\ get c "NAME" = Some (Js.VStr "Sita Rao"))
  /\ Lookup.lookupRoute (B := Node.builtins) Lookup.Missing "stats"
     = Lookup.NotFound404.
Proof.
  repeat split. eexists. split; reflexivity.
Qed.

(* --------------------------------------------------------------------- *)
(** ** [validateCustomerData] and [POST /upload] *)
(* --------------------------------------------------------------------- *)

Section CustomerDataFacts.

Context {B : Builtins}.
Variable schemaError : Customer -> option string.

#[local] Abbreviation validateCustomerData :=
  (CustomerData.validateCustomerData schemaError).
#[local] Abbreviation validateRows :=
  (CustomerData.validateRows schemaError).

Lemma firstn_min_length (A : Type) (n : nat) (l : list A) :
  firstn (Nat.min (length l) n) l = firstn n l.
Proof.
  destruct (Nat.le_gt_cases (length l) n) as [H|H].
  - rewrite Nat.min_l by exact H. now rewrite !firstn_all2 by lia.
  - now rewrite Nat.min_r by lia.
Qed.

(** X19.  [validateCustomerData] looks at the first ten rows only: the
    verdict and the errors are those of the first ten rows alone, and an
    exception is the same. *)
Theorem validateCustomerData_reads_ten_rows (customers : list Customer) :
  match validateCustomerData customers,
        validateCustomerData (firstn 10 customers) with
  | Ret all, Ret ten =>
      CustomerData.isValid all = CustomerData.isValid ten
      /\ CustomerData.errors all = CustomerData.errors ten
  | Throw e, Throw e' => e = e'
  | _, _ => False
  end.
Proof.
  destruct customers as [|first rest]; [simpl; auto|].
  change (firstn 10 (first :: rest)) with (first :: firstn 9 rest).
  unfold CustomerData.validateCustomerData.
  destruct (CustomerData.missingColumns first); [|simpl; auto].
  rewrite !firstn_min_length.
  change (firstn 10 (first :: firstn 9 rest))
    with (first :: firstn 9 (firstn 9 rest)).
  rewrite firstn_firstn, Nat.min_id.
  change (firstn 10 (first :: rest)) with (first :: firstn 9 rest).
  destruct (validateRows (first :: firstn 9 rest) 0 []); simpl; auto.
Qed.

Lemma validateRows_bound rows : forall i errors result,
  (length errors <= 4)%nat ->
  validateRows rows i errors = Ret result ->
  (length result <= 8)%nat.
Proof.
  induction rows as [|customer rest IH]; intros i errors result Hlen.
  - simpl. intros H. injection H as <-. lia.
  - cbn [CustomerData.validateRows].
    assert (H1 : (length (CustomerData.schemaErrors schemaError i customer) <= 1)%nat).
    { unfold CustomerData.schemaErrors. destruct (schemaError customer); simpl; lia. }
    assert (H2 : (length (CustomerData.emailErrors i customer) <= 1)%nat).
    { unfold CustomerData.emailErrors. destruct (_ && _); simpl; lia. }
    destruct (CustomerData.mobileErrors i customer) as [m|e] eqn:Hm;
      [|discriminate].
    assert (H3 : (length m <= 1)%nat).
    { unfold CustomerData.mobileErrors in Hm.
      destruct (Js.truthy _).
      - destruct (get customer "MOBILE") as [[| | |mobile]|]; try discriminate.
        injection Hm as <-. destruct (Validation.isValidMobile mobile); simpl; lia.
      - injection Hm as <-. simpl. lia. }
    destruct (Nat.leb_spec 5
                (length (((errors ++ CustomerData.schemaErrors schemaError i customer)
                            ++ CustomerData.emailErrors i customer) ++ m)))
      as [Hmany|Hfew].
    + intros H. injection H as <-. rewrite !length_app in *. simpl. lia.
    + apply IH. lia.
Qed.

(** X20.  [validateCustomerData] reports at most eight errors, and finds
    the data valid exactly when it reports none. *)
Theorem validateCustomerData_error_count (customers : list Customer)
    (report : CustomerData.Report) :
  validateCustomerData customers = Ret report ->
  (length (CustomerData.errors report) <= 8)%nat
  /\ (CustomerData.isValid report = true <-> CustomerData.errors report = []).
Proof.
  unfold CustomerData.validateCustomerData.
  destruct customers as [|first rest].
  - intros H. injection H as <-. simpl. split; [lia|].
    split; discriminate.
  - destruct (CustomerData.missingColumns first) as [|e1 es] eqn:Hmiss.
    + destruct (validateRows _ 0 []) as [errors|e] eqn:Hrows; [|discriminate].
      intros H. injection H as <-. simpl. split.
      * eapply validateRows_bound; [|exact Hrows]. simpl. lia.
      * destruct errors; split; congruence.
    + intros H. injection H as <-.
      cbn [CustomerData.errors CustomerData.isValid]. split.
      * rewrite <- Hmiss. unfold CustomerData.missingColumns.
        rewrite length_map.
        etransitivity; [apply filter_length_le | simpl; lia].
      * split; discriminate.
Qed.

Lemma In_keys_normalizeAccountKey (obj : Customer) (k : string) :
  In k (keys obj) -> In k (keys (Customers.normalizeAccountKey obj)).
Proof.
  intros Hin.
  assert (Hassign : forall v, In k (keys (assign obj "ACCOUNT_NO" v))).
  { intros v. rewrite keys_assign.
    destruct (existsb _ _); [exact Hin | apply in_or_app; now left]. }
  destruct (normalizeAccountKey_cases obj)
    as [(k0 & v & _ & _ & _ & ->)|[(a & v & _ & _ & _ & _ & ->)|(_ & _ & ->)]];
    auto.
Qed.

(** X21.  A sheet that names its account column differently passes the
    check of the required columns, because [POST /upload] normalises the
    rows first: when the keys of the first row are ASCII text, and the
    row has a [NAME] and a key that matches one of the two account
    patterns, no column is reported missing. *)
Theorem upload_accepts_other_account_headers (first : Customer) (k : string) :
  Forall (fun key => Text.isAscii key = true) (keys first) ->
  CustomerData.hasColumn first "NAME" = true ->
  In k (keys first) ->
  Customers.reAccountKey k = true \/ Customers.reAltAccountKey k = true ->
  CustomerData.missingColumns (Customers.normalizeAccountKey first) = [].
Proof.
  intros _ Hname Hin Hre.
  assert (Hn : CustomerData.hasColumn (Customers.normalizeAccountKey first)
                 "NAME" = true).
  { apply existsb_eqb_In, In_keys_normalizeAccountKey, existsb_eqb_In, Hname. }
  assert (Ha : CustomerData.hasColumn (Customers.normalizeAccountKey first)
                 "ACCOUNT_NO" = true).
  { apply existsb_eqb_In.
    assert (Hassign : forall v, In "ACCOUNT_NO" (keys (assign first "ACCOUNT_NO" v))).
    { intros v. rewrite keys_assign.
      destruct (existsb _ _) eqn:He; [now apply existsb_eqb_In|].
      apply in_or_app. right. now left. }
    destruct (normalizeAccountKey_cases first)
      as [(k0 & v & _ & _ & _ & ->)
         |[(a & v & _ & _ & _ & _ & ->)|(Hf & Halt & ->)]]; auto.
    destruct Hf as [Hf|Hf].
    - (* no key matches the account pattern *)
      destruct Halt as [Ht|Halt].
      + destruct (get first "ACCOUNT_NO") eqn:Hg; [|discriminate].
        destruct (in_dec string_dec "ACCOUNT_NO" (keys first)) as [Hi|Hi];
          [exact Hi|].
        rewrite (get_not_in_keys _ _ Hi) in Hg. discriminate.
      + exfalso. destruct Hre as [Hre|Hre].
        * pose proof (find_none _ _ Hf _ Hin) as Hc. congruence.
        * pose proof (find_none _ _ Halt _ Hin) as Hc. congruence.
    - now destruct (find_some _ _ Hf). }
  unfold CustomerData.missingColumns. simpl filter.
  now rewrite Hn, Ha.
Qed.

Lemma upload_accepts_other_account_headers_witness :
  CustomerData.missingColumns (Customers.normalizeAccountKey Scenario.sheetRow)
  = []
  /\ CustomerData.missingColumns Scenario.sheetRow
     = ["Missing required column: ACCOUNT_NO"].
Proof.
  split; [|reflexivity].
  apply (upload_accepts_other_account_headers Scenario.sheetRow "Account No").
  - repeat constructor.
  - reflexivity.
  - simpl. auto.
  - left. reflexivity.
Defined.

(** X22.  A mobile number that the sheet stores as a number makes
    [validateCustomerData] throw, and [POST /upload] reply 500: the
    first row has the two required columns and a [MOBILE] that is a
    number other than zero. *)
Theorem upload_fails_on_numeric_mobile (first : Customer)
    (rest : list Customer) (n : Js.num) :
  CustomerData.hasColumn first "NAME" = true ->
  CustomerData.hasColumn first "ACCOUNT_NO" = true ->
  get first "MOBILE" = Some (Js.VNum n) ->
  Js.num_truthy n = true ->
  validateCustomerData (first :: rest)
  = Throw CustomerData.replaceIsNotAFunction
  /\ Upload.uploadRows schemaError (first :: rest) = Upload.Failed500.
Proof.
  intros Hname Hacct Hmobile Hn.
  assert (Hthrow : forall row others,
            CustomerData.hasColumn row "NAME" = true ->
            CustomerData.hasColumn row "ACCOUNT_NO" = true ->
            get row "MOBILE" = Some (Js.VNum n) ->
            validateCustomerData (row :: others)
            = Throw CustomerData.replaceIsNotAFunction).
  { intros row others H1 H2 H3.
    unfold CustomerData.validateCustomerData, CustomerData.missingColumns.
    simpl filter. rewrite H1, H2. simpl map. cbv iota.
    simpl length. rewrite Nat.min_comm.
    change (Nat.min 10 (S (length others)))
      with (S (Nat.min 9 (length others))).
    cbn [firstn CustomerData.validateRows].
    unfold CustomerData.mobileErrors. rewrite H3.
    cbn [Js.truthy]. rewrite Hn. reflexivity. }
  split; [now apply Hthrow|].
  unfold Upload.uploadRows. simpl map.
  rewrite Hthrow; [reflexivity| | |].
  - apply existsb_eqb_In, In_keys_normalizeAccountKey, existsb_eqb_In, Hname.
  - apply existsb_eqb_In, In_keys_normalizeAccountKey, existsb_eqb_In, Hacct.
  - rewrite <- Hmobile.
    apply normalizeAccountKey_other_properties. discriminate.
Qed.

End CustomerDataFacts.

Lemma validateCustomerData_error_count_witness :
  (length (CustomerData.errors Scenario.twoErrors) <= 8)%nat
  /\ (CustomerData.isValid Scenario.twoErrors = true
      <-> CustomerData.errors Scenario.twoErrors = []).
Proof.
  apply (validateCustomerData_error_count (B := Node.builtins)
           (fun _ => None) [Scenario.badContact]).
  reflexivity.
Defined.

Lemma upload_fails_on_numeric_mobile_witness :
  CustomerData.validateCustomerData (B := Node.builtins) (fun _ => None)
    [Scenario.numericMobile]
  = Throw CustomerData.replaceIsNotAFunction
  /\ Upload.uploadRows (B := Node.builtins) (fun _ => None)
       [Scenario.numericMobile] = Upload.Failed500.
Proof.
  apply (upload_fails_on_numeric_mobile (B := Node.builtins) (fun _ => None)
           Scenario.numericMobile [] (Js.int 9876543210));
    reflexivity.
Defined.

(* --------------------------------------------------------------------- *)
(** ** [POST /analyze]: the counts, the cap and the options *)
(* --------------------------------------------------------------------- *)

Section AnalyzeMore.

Context {B : Builtins}.
Context {W : Type}.
Variable GEMINI_API_KEY : bool.
Variable currentDate : Z.

(** X23.  [POST /analyze] replies 400 or 200, never 500; in a reply 200
    [totalCustomers] is the number of customers of the request,
    [ruleBasedMatches] is the number of customers returned and at most
    [totalCustomers], and [finalMatches] is at most [ruleBasedMatches]. *)
Theorem analyze_counts_are_ordered
    (analyzeCustomers : list Customer -> string -> M W Customers.AiResponse)
    (body : Customers.AnalysisRequest) (w : W) :
  (exists path,
      Customers.validateAnalysisRequest body = inl path
      /\ Customers.analyzeRoute analyzeCustomers GEMINI_API_KEY currentDate body w
         = (ValidationFailed400 path, w))
  \/ (exists value result w',
        Customers.validateAnalysisRequest body = inr value
        /\ Customers.analyzeRoute analyzeCustomers GEMINI_API_KEY currentDate
             body w = (Ok200 result, w')
        /\ Customers.totalCustomers result
           = length (Customers.customers body)
        /\ length (Customers.matched result)
           = Customers.ruleBasedMatches result
        /\ (Customers.ruleBasedMatches result
            <= Customers.totalCustomers result)%nat
        /\ (Customers.finalMatches result
            <= Customers.ruleBasedMatches result)%nat).
Proof.
  unfold Customers.analyzeRoute.
  destruct (Customers.validateAnalysisRequest body) as [path|value] eqn:Hv.
  - left. exists path. auto.
  - right. exists value.
    assert (Hcs : Customers.customers value = Customers.customers body).
    { unfold Customers.validateAnalysisRequest in Hv.
      destruct (negb _); [discriminate|].
      destruct (negb _); [discriminate|].
      destruct (Customers.options body) as [o|].
      - destruct (Customers.validOptions o); [|discriminate].
        now injection Hv as <-.
      - now injection Hv as <-. }
    rewrite <- Hcs. clear Hv Hcs.
    assert (Hfilter :
      (length (Customers.ruleFilteredOf currentDate value)
       <= length (Customers.normalizedOf value))%nat).
    { apply filter_length_le. }
    assert (Hnorm : length (Customers.normalizedOf value)
                    = length (Customers.customers value)).
    { apply length_map. }
    assert (Hshape : forall (result : Customers.AnalysisResult) (w' : W),
              Customers.totalCustomers result
              = length (Customers.normalizedOf value) ->
              Customers.ruleBasedMatches result
              = length (Customers.ruleFilteredOf currentDate value) ->
              length (Customers.matched result)
              = length (Customers.ruleFilteredOf currentDate value) ->
              (Customers.finalMatches result
               <= length (Customers.ruleFilteredOf currentDate value))%nat ->
              exists result0 w0,
                inr value = inr (A := string) value
                /\ (Ok200 result, w') = (Ok200 result0, w0)
                /\ Customers.totalCustomers result0
                   = length (Customers.customers value)
                /\ length (Customers.matched result0)
                   = Customers.ruleBasedMatches result0
                /\ (Customers.ruleBasedMatches result0
                    <= Customers.totalCustomers result0)%nat
                /\ (Customers.finalMatches result0
                    <= Customers.ruleBasedMatches result0)%nat).
    { intros result w' H1 H2 H3 H4. exists result, w'.
      split; [reflexivity|]. split; [reflexivity|]. repeat split; lia. }
    destruct (Customers.scoringCalled GEMINI_API_KEY currentDate value) eqn:Hc.
    + rewrite (analyzeHandler_scoring analyzeCustomers GEMINI_API_KEY
                 currentDate value w Hc).
      destruct (Customers.scoring analyzeCustomers currentDate value w)
        as [[[analysis summary|]|e] w'].
      * cbv zeta. destruct (Customers.buildAiMap analysis []) as [aiMap|e];
          apply Hshape; simpl; rewrite ?length_map; try reflexivity; try lia.
        etransitivity; [apply filter_length_le|]. now rewrite length_map.
      * apply Hshape; simpl; try reflexivity; lia.
      * apply Hshape; simpl; try reflexivity; lia.
    + rewrite (analyzeHandler_rules_only analyzeCustomers GEMINI_API_KEY
                 currentDate value w Hc).
      apply Hshape; simpl; try reflexivity; lia.
Qed.

(** X24.  The scoring service never sees more than 100 customers: two
    services that agree on every list of at most 100 customers give the
    same reply. *)
Theorem analyze_scores_at_most_100
    (service1 service2 : list Customer -> string -> M W Customers.AiResponse)
    (body : Customers.AnalysisRequest) (w : W) :
  (forall cs t w0, (length cs <= 100)%nat -> service1 cs t w0 = service2 cs t w0) ->
  Customers.analyzeHandler service1 GEMINI_API_KEY currentDate body w
  = Customers.analyzeHandler service2 GEMINI_API_KEY currentDate body w.
Proof.
  intros Hagree. unfold Customers.analyzeHandler.
  destruct (_ && (0 <? _)%nat); [|reflexivity].
  rewrite Hagree; [reflexivity|]. apply firstn_le_length.
Qed.

(** X25.  The option [confidenceThreshold], which the validation admits
    between 0 and 1 and fills in with 0.7, has no effect on the reply of
    the route: two requests that differ in it only are answered
    alike. *)
Theorem analyze_ignores_confidenceThreshold
    (analyzeCustomers : list Customer -> string -> M W Customers.AiResponse)
    (customers : list Customer) (issueType : string)
    (o : Customers.AnalysisOptions) (t1 t2 : option Js.num) (w : W) :
  Customers.optionHolds (Customers.numberBetween 0 1) t1 = true ->
  Customers.optionHolds (Customers.numberBetween 0 1) t2 = true ->
  Customers.analyzeRoute analyzeCustomers GEMINI_API_KEY currentDate
    {| Customers.customers := customers;
       Customers.issueType := issueType;
       Customers.options :=
         Some {| Customers.useAI := Customers.useAI o;
                 Customers.aiProvider := Customers.aiProvider o;
                 Customers.confidenceThreshold := t1;
                 Customers.maxResults := Customers.maxResults o;
                 Customers.otherOptions := Customers.otherOptions o |} |} w
  = Customers.analyzeRoute analyzeCustomers GEMINI_API_KEY currentDate
      {| Customers.customers := customers;
         Customers.issueType := issueType;
         Customers.options :=
           Some {| Customers.useAI := Customers.useAI o;
                   Customers.aiProvider := Customers.aiProvider o;
                   Customers.confidenceThreshold := t2;
                   Customers.maxResults := Customers.maxResults o;
                   Customers.otherOptions := Customers.otherOptions o |} |} w.
Proof.
  intros H1 H2.
  unfold Customers.analyzeRoute, Customers.validateAnalysisRequest.
  cbn [Customers.customers Customers.issueType Customers.options].
  destruct (negb _); [reflexivity|].
  destruct (negb _); [reflexivity|].
  unfold Customers.validOptions.
  cbn [Customers.aiProvider Customers.confidenceThreshold Customers.maxResults
       Customers.otherOptions].
  rewrite H1, H2.
  destruct (Customers.optionHolds _ (Customers.aiProvider o) && true
            && Customers.optionHolds _ (Customers.maxResults o)
            && match Customers.otherOptions o with
               | [] => true
               | _ :: _ => false
               end); reflexivity.
Qed.

Lemma get_set_same (c : Customer) (k : string) (v : Js.value) :
  get (set c k (Some v)) k = Some v.
Proof. apply get_assign_same. Qed.

(** A match the scoring reply does not mention, and that brings no
    score of its own, gets the defaults. *)
Lemma mergeAi_defaults (aiMap : list (string * Customer)) (c : Customer) :
  Customers.mapGet aiMap
    (Str.toLowerCase
       (String_ (Customers.getAccountValue c <||> Some (Js.VStr "")))) = None ->
  Js.truthy (get c "aiConfidence") = false ->
  Js.truthy (get c "aiPriority") = false ->
  Js.truthy (get c "aiReason") = false ->
  get (Customers.mergeAi aiMap c) "aiConfidence" = Some (Js.VNum lit_0_8)
  /\ get (Customers.mergeAi aiMap c) "aiPriority" = Some (Js.VStr "medium")
  /\ get (Customers.mergeAi aiMap c) "aiReason"
     = Some (Js.VStr "Rule-based match").
Proof.
  intros Hmap H1 H2 H3. unfold Customers.mergeAi. rewrite Hmap.
  unfold Js.or_else. rewrite H1, H2, H3.
  repeat split.
  - rewrite !get_set_other by discriminate. apply get_set_same.
  - rewrite get_set_other by discriminate. apply get_set_same.
  - apply get_set_same.
Qed.

Lemma default_confidence_reaches_default_threshold :
  value_geb (Some (Js.VNum lit_0_8)) (Some (Js.VNum lit_0_7)) = true.
Proof. reflexivity. Qed.

(** X26.  When the scoring service returns an empty analysis, the
    request names no [minConfidence] and no customer brings a score of
    its own, every match of the rules gets confidence 0.8, priority
    "medium" and the reason "Rule-based match", and [finalMatches] is
    the number of matches of the rules. *)
Theorem analyze_empty_analysis_keeps_every_match
    (analyzeCustomers : list Customer -> string -> M W Customers.AiResponse)
    (body : Customers.AnalysisRequest) (w w' : W) (summary : option Customer) :
  Customers.scoringCalled GEMINI_API_KEY currentDate body = true ->
  Customers.scoring analyzeCustomers currentDate body w
  = (Ret (Customers.AiAnalysis [] summary), w') ->
  get (Customers.otherOptions (Customers.optionsOf body)) "minConfidence"
  = None ->
  Forall (fun c => Js.truthy (get c "aiConfidence") = false
                   /\ Js.truthy (get c "aiPriority") = false
                   /\ Js.truthy (get c "aiReason") = false)
    (Customers.customers body) ->
  exists result,
    Customers.analyzeHandler analyzeCustomers GEMINI_API_KEY currentDate body w
    = (Ok200 result, w')
    /\ Customers.finalMatches result = Customers.ruleBasedMatches result
    /\ Customers.ruleBasedMatches result
       = length (Customers.ruleFilteredOf currentDate body)
    /\ Forall (fun c =>
                 get c "aiConfidence" = Some (Js.VNum lit_0_8)
                 /\ get c "aiPriority" = Some (Js.VStr "medium")
                 /\ get c "aiReason" = Some (Js.VStr "Rule-based match"))
         (Customers.matched result).
Proof.
  intros Hc Hs Hmin Hown.
  rewrite (analyzeHandler_scoring analyzeCustomers GEMINI_API_KEY currentDate
             body w Hc), Hs.
  cbn [Customers.buildAiMap].
  eexists. split; [reflexivity|].
  cbn [Customers.finalMatches Customers.ruleBasedMatches Customers.matched].
  assert (Hmatches :
    Forall (fun c => Js.truthy (get c "aiConfidence") = false
                     /\ Js.truthy (get c "aiPriority") = false
                     /\ Js.truthy (get c "aiReason") = false)
      (Customers.ruleFilteredOf currentDate body)).
  { apply Forall_forall. intros c Hin.
    unfold Customers.ruleFilteredOf, Customers.filterCustomersByRule in Hin.
    apply filter_In in Hin as [Hin _].
    unfold Customers.normalizedOf in Hin.
    apply in_map_iff in Hin as (c0 & <- & Hin0).
    rewrite Forall_forall in Hown. specialize (Hown c0 Hin0).
    rewrite (proj1 (normalizeAccountKey_other_properties c0 "aiConfidence"
                      ltac:(discriminate))).
    rewrite (proj1 (normalizeAccountKey_other_properties c0 "aiPriority"
                      ltac:(discriminate))).
    rewrite (proj1 (normalizeAccountKey_other_properties c0 "aiReason"
                      ltac:(discriminate))).
    exact Hown. }
  assert (Hmerged :
    Forall (fun c =>
              get c "aiConfidence" = Some (Js.VNum lit_0_8)
              /\ get c "aiPriority" = Some (Js.VStr "medium")
              /\ get c "aiReason" = Some (Js.VStr "Rule-based match"))
      (map (Customers.mergeAi []) (Customers.ruleFilteredOf currentDate body))).
  { apply Forall_map. eapply Forall_impl; [|exact Hmatches].
    intros c (H1 & H2 & H3). now apply mergeAi_defaults. }
  repeat split; [|exact Hmerged].
  rewrite <- (length_map (Customers.mergeAi [])
                (Customers.ruleFilteredOf currentDate body)).
  f_equal. apply forallb_filter_id.
  apply forallb_forall. intros c Hin.
  rewrite Forall_forall in Hmerged. destruct (Hmerged c Hin) as (H1 & _).
  unfold Customers.aboveThreshold, Customers.threshold, Js.or_else.
  rewrite H1, Hmin. reflexivity.
Qed.

End AnalyzeMore.

(* --------------------------------------------------------------------- *)
(** ** The patterns decided by hand and the regular expressions *)
(* --------------------------------------------------------------------- *)

Section PatternFacts.

Import Regex.

Lemma bool_eq_iff (a b : bool) : (a = true <-> b = true) -> a = b.
Proof. destruct a, b; intros [H1 H2]; auto; symmetry; auto. Qed.

Lemma Match_Lit (s t : string) : Match (Lit s) t <-> t = s.
Proof.
  revert t. induction s as [|c s IH]; intros t; simpl.
  - apply Match_Eps.
  - rewrite Match_Cat. split.
    + intros (s1 & s2 & -> & H1 & H2).
      apply Match_Chr in H1 as ->. apply IH in H2 as ->. reflexivity.
    + intros ->. exists (String c ""), s. repeat split.
      * now apply Match_Chr.
      * now apply IH.
Qed.

Lemma Match_any_star (t : string) : Match (Star any) t.
Proof.
  unfold any. apply Match_Star_Class. induction t; simpl; auto.
Qed.

(** A pattern that may start anywhere. *)
Lemma Match_anywhere_before (r : re) (t : string) :
  Match (Cat (Star any) r) t
  <-> exists a b, t = (a ++ b)%string /\ Match r b.
Proof.
  rewrite Match_Cat. split.
  - intros (a & b & -> & _ & H). eauto.
  - intros (a & b & -> & H). exists a, b. repeat split; [|exact H].
    apply Match_any_star.
Qed.

(** A pattern that may end anywhere. *)
Lemma Match_anywhere_after (r : re) (t : string) :
  Match (Cat r (Star any)) t
  <-> exists a b, t = (a ++ b)%string /\ Match r a.
Proof.
  rewrite Match_Cat. split.
  - intros (a & b & -> & H & _). eauto.
  - intros (a & b & -> & H). exists a, b. repeat split; [exact H|].
    apply Match_any_star.
Qed.

Lemma startsWith_spec (p s : string) :
  Str.startsWith p s = true <-> exists r, s = (p ++ r)%string.
Proof.
  revert s. induction p as [|a p IH]; intros s; simpl.
  - split; [eauto | reflexivity].
  - destruct s as [|b s].
    + split; [discriminate | intros (r & H); discriminate].
    + rewrite andb_true_iff, IH. split.
      * intros [E (r & ->)]. apply Ascii.eqb_eq in E as ->. eauto.
      * intros (r & E). injection E as -> ->.
        split; [apply Ascii.eqb_refl | eauto].
Qed.

Lemma dropPrefix_spec (p s r : string) :
  Str.dropPrefix p s = Some r <-> s = (p ++ r)%string.
Proof.
  revert s. induction p as [|a p IH]; intros s; simpl.
  - split; [intros H; now injection H | intros ->; reflexivity].
  - destruct s as [|b s].
    + split; discriminate.
    + destruct (Ascii.eqb_spec a b) as [->|Hab].
      * rewrite IH. split; [intros ->; reflexivity | intros E; now injection E].
      * split; [discriminate | intros E; injection E; congruence].
Qed.

Lemma fromSomePosition_spec (f : string -> bool) (s : string) :
  Customers.fromSomePosition f s = true
  <-> exists a b, s = (a ++ b)%string /\ f b = true.
Proof.
  induction s as [|c s IH]; simpl.
  - rewrite orb_false_r. split.
    + intros H. exists "", "". auto.
    + intros (a & b & E & H). symmetry in E.
      apply string_app_empty in E as [_ ->]. exact H.
  - rewrite orb_true_iff, IH. split.
    + intros [H|(a & b & -> & H)].
      * exists "", (String c s). auto.
      * exists (String c a), b. auto.
    + intros (a & b & E & H). destruct a as [|x a].
      * simpl in E. subst b. now left.
      * simpl in E. injection E as -> ->. right. eauto.
Qed.

Lemma includes_spec (p s : string) :
  Str.includes p s = true
  <-> exists a b, s = (a ++ p ++ b)%string.
Proof.
  induction s as [|c s IH].
  - simpl. rewrite orb_false_r, startsWith_spec. split.
    + intros (r & E). exists "", r. exact E.
    + intros (a & b & E). symmetry in E.
      apply string_app_empty in E as [_ E]. eauto.
  - cbn [Str.includes]. rewrite orb_true_iff, IH, startsWith_spec. split.
    + intros [(r & E)|(a & b & ->)].
      * exists "", r. exact E.
      * exists (String c a), b. reflexivity.
    + intros (a & b & E). destruct a as [|x a].
      * left. exists b. exact E.
      * simpl in E. injection E as -> ->. right. eauto.
Qed.

(** [skip_sep] drops separators and stops in front of the first
    character that is none. *)
Lemma skip_sep_spec (s : string) :
  exists seps,
    s = (seps ++ Str.skip_sep s)%string /\ all Str.is_sep seps = true.
Proof.
  induction s as [|c s (seps & E & H)]; simpl.
  - exists "". auto.
  - destruct (Str.is_sep c) eqn:Hc.
    + exists (String c seps). simpl. rewrite Hc, H. split; [|reflexivity].
      now rewrite <- E.
    + exists "". auto.
Qed.

Lemma skip_sep_app (seps t : string) :
  all Str.is_sep seps = true ->
  Str.skip_sep (seps ++ t)%string = Str.skip_sep t.
Proof.
  induction seps as [|c seps IH]; simpl; [reflexivity|].
  intros H. apply andb_true_iff in H as [Hc H]. rewrite Hc. now apply IH.
Qed.

(** [account[_\s-]*no$] at the start of [t]. *)
Lemma account_no_at_the_end (t : string) :
  match Str.dropPrefix "account" t with
  | Some r => String.eqb (Str.skip_sep r) "no"
  | None => false
  end = true
  <-> Match (Cat (Lit "account") (Cat Patterns.separators (Lit "no"))) t.
Proof.
  rewrite Match_Cat. split.
  - destruct (Str.dropPrefix "account" t) as [r|] eqn:Hd; [|discriminate].
    apply dropPrefix_spec in Hd as ->. intros H. apply String.eqb_eq in H.
    destruct (skip_sep_spec r) as (seps & E & Hs). rewrite H in E.
    exists "account"%string, r. repeat split.
    + now apply Match_Lit.
    + apply Match_Cat. exists seps, "no"%string. repeat split.
      * exact E.
      * now apply Match_Star_Class.
      * now apply Match_Lit.
  - intros (a & b & -> & Ha & Hb).
    apply Match_Lit in Ha as ->.
    apply Match_Cat in Hb as (seps & n & -> & Hs & Hn).
    apply Match_Lit in Hn as ->. apply Match_Star_Class in Hs.
    rewrite (proj2 (dropPrefix_spec "account" _ (seps ++ "no")%string) eq_refl).
    now rewrite skip_sep_app.
Qed.

(** [[_\s-]*no] at the start of [r], followed by anything. *)
Lemma no_after_separators (r : string) :
  Str.startsWith "no" (Str.skip_sep r) = true
  <-> Match (Cat (Cat Patterns.separators (Lit "no")) (Star any)) r.
Proof.
  rewrite Match_anywhere_after, startsWith_spec. split.
  - intros (rest & E).
    destruct (skip_sep_spec r) as (seps & Er & Hs). rewrite E in Er.
    exists (seps ++ "no")%string, rest. split.
    + now rewrite string_app_assoc.
    + apply Match_Cat. exists seps, "no"%string. repeat split.
      * now apply Match_Star_Class.
      * now apply Match_Lit.
  - intros (a & b & -> & Ha).
    apply Match_Cat in Ha as (seps & n & -> & Hs & Hn).
    apply Match_Lit in Hn as ->. apply Match_Star_Class in Hs.
    exists b. rewrite string_app_assoc. now rewrite skip_sep_app.
Qed.

(** [acc(?:ount)?[_\s-]*no] at the start of [t], followed by
    anything. *)
Lemma acc_no_at_the_start (t : string) :
  match Str.dropPrefix "acc" t with
  | Some r =>
      match Str.dropPrefix "ount" r with
      | Some r' => Str.startsWith "no" (Str.skip_sep r')
      | None => false
      end
      || Str.startsWith "no" (Str.skip_sep r)
  | None => false
  end = true
  <-> Match (Cat (Cat (Lit "acc")
                    (Cat (Alt (Lit "ount") Eps)
                       (Cat Patterns.separators (Lit "no"))))
               (Star any)) t.
Proof.
  split.
  - destruct (Str.dropPrefix "acc" t) as [r|] eqn:Hd; [|discriminate].
    apply dropPrefix_spec in Hd as ->. rewrite orb_true_iff.
    intros [H|H].
    + destruct (Str.dropPrefix "ount" r) as [r'|] eqn:Hd'; [|discriminate].
      apply dropPrefix_spec in Hd' as ->.
      apply no_after_separators, Match_anywhere_after in H
        as (a & b & -> & Ha).
      apply Match_anywhere_after.
      exists ("acc" ++ "ount" ++ a)%string, b. split; [reflexivity|].
      apply Match_Cat. exists "acc"%string, ("ount" ++ a)%string.
      repeat split; [now apply Match_Lit|].
      apply Match_Cat. exists "ount"%string, a.
      repeat split; [|exact Ha]. apply Match_Alt. left. now apply Match_Lit.
    + apply no_after_separators, Match_anywhere_after in H
        as (a & b & -> & Ha).
      apply Match_anywhere_after.
      exists ("acc" ++ a)%string, b. split; [reflexivity|].
      apply Match_Cat. exists "acc"%string, a.
      repeat split; [now apply Match_Lit|].
      apply Match_Cat. exists ""%string, a.
      repeat split; [|exact Ha]. apply Match_Alt. right. now apply Match_Eps.
  - intros H. apply Match_anywhere_after in H as (a & b & -> & Ha).
    apply Match_Cat in Ha as (x & y & -> & Hx & Hy).
    apply Match_Lit in Hx as ->.
    apply Match_Cat in Hy as (o & z & -> & Ho & Hz).
    assert (Hz' : Str.startsWith "no" (Str.skip_sep (z ++ b)%string) = true).
    { apply no_after_separators, Match_anywhere_after. eauto. }
    rewrite !string_app_assoc.
    rewrite (proj2 (dropPrefix_spec "acc" _ (o ++ z ++ b)%string) eq_refl).
    apply Match_Alt in Ho as [Ho|Ho].
    + apply Match_Lit in Ho as ->.
      rewrite (proj2 (dropPrefix_spec "ount" _ (z ++ b)%string) eq_refl).
      now rewrite Hz'.
    + apply Match_Eps in Ho as ->. simpl append.
      rewrite Hz'. apply orb_true_r.
Qed.

Lemma Match_contains (p t : string) :
  Match (Cat (Star any) (Cat (Lit p) (Star any))) t
  <-> exists a b, t = (a ++ p ++ b)%string.
Proof.
  rewrite Match_anywhere_before. split.
  - intros (a & r & -> & H).
    apply Match_anywhere_after in H as (x & b & -> & Hx).
    apply Match_Lit in Hx as ->. eauto.
  - intros (a & b & ->). exists a, (p ++ b)%string. split; [reflexivity|].
    apply Match_anywhere_after. exists p, b. split; [reflexivity|].
    now apply Match_Lit.
Qed.

(** The three patterns that the rules and the normalisation decide by
    hand, against the regular expressions kept as expressions: the
    hand-written test and the matcher run on the expression agree. *)
Lemma hand_written_patterns_agree_with_the_expressions :
  (forall k, Customers.reAccountKey k
             = test Patterns.accountKey (Str.toLowerCase k))
  /\ (forall k, Customers.reAltAccountKey k
                = test Patterns.altAccountKey (Str.toLowerCase k))
  /\ (forall s, Customers.re_expired_pending s
                = test Patterns.expiredOrPending (Str.toLowerCase s)).
Proof.
  repeat split.
  - intros k. apply bool_eq_iff. unfold Customers.reAccountKey.
    rewrite test_Match. unfold Patterns.accountKey.
    rewrite !orb_true_iff, !Match_Alt, !Match_Lit, !String.eqb_eq.
    rewrite fromSomePosition_spec, Match_anywhere_before.
    split.
    + intros [[(a & b & E & H)|H]|H]; auto.
      left. exists a, b. split; [exact E|]. now apply account_no_at_the_end.
    + intros [(a & b & E & H)|[H|H]]; auto.
      left. left. exists a, b. split; [exact E|].
      now apply account_no_at_the_end.
  - intros k. apply bool_eq_iff. unfold Customers.reAltAccountKey.
    rewrite test_Match. unfold Patterns.altAccountKey.
    rewrite !orb_true_iff, !includes_spec, fromSomePosition_spec.
    rewrite Match_anywhere_before. split.
    + intros [[(a & b & E & H)|(a & b & E)]|(a & b & E)].
      * apply acc_no_at_the_start in H.
        apply Match_anywhere_after in H as (x & y & -> & Hx).
        exists a, (x ++ y)%string. split; [exact E|].
        apply Match_anywhere_after. exists x, y. split; [reflexivity|].
        apply Match_Alt. now left.
      * exists a, ("accno" ++ b)%string. split; [exact E|].
        apply Match_anywhere_after. exists "accno"%string, b.
        split; [reflexivity|]. apply Match_Alt. right.
        apply Match_Alt. left. now apply Match_Lit.
      * exists a, ("accountnumber" ++ b)%string. split; [exact E|].
        apply Match_anywhere_after. exists "accountnumber"%string, b.
        split; [reflexivity|]. apply Match_Alt. right.
        apply Match_Alt. right. now apply Match_Lit.
    + intros (a & r & E & H).
      apply Match_anywhere_after in H as (x & b & -> & Hx).
      apply Match_Alt in Hx as [Hx|Hx].
      * left. left. exists a, (x ++ b)%string. split; [exact E|].
        apply acc_no_at_the_start, Match_anywhere_after. eauto.
      * apply Match_Alt in Hx as [Hx|Hx]; apply Match_Lit in Hx as ->.
        -- left. right. eauto.
        -- right. eauto.
  - intros s. apply bool_eq_iff. unfold Customers.re_expired_pending.
    rewrite test_Match. unfold Patterns.expiredOrPending.
    rewrite orb_true_iff, !includes_spec, Match_anywhere_before. split.
    + intros [(a & b & E)|(a & b & E)].
      * exists a, ("expired" ++ b)%string. split; [exact E|].
        apply Match_anywhere_after. exists "expired"%string, b.
        split; [reflexivity|]. apply Match_Alt. left. now apply Match_Lit.
      * exists a, ("pending" ++ b)%string. split; [exact E|].
        apply Match_anywhere_after. exists "pending"%string, b.
        split; [reflexivity|]. apply Match_Alt. right. now apply Match_Lit.
    + intros (a & r & E & H).
      apply Match_anywhere_after in H as (x & b & -> & Hx).
      apply Match_Alt in Hx as [Hx|Hx]; apply Match_Lit in Hx as ->; eauto.
Qed.

End PatternFacts.

(* --------------------------------------------------------------------- *)
(** ** [ai-service.js]: the JSON object in the reply of the model *)
(* --------------------------------------------------------------------- *)

Section JsonFacts.

Import Regex.

Lemma upToLast_some (c : ascii) (s p : string) :
  AiService.upToLast c s = Some p ->
  exists mid post,
    s = (mid ++ String c post)%string
    /\ p = (mid ++ String c "")%string
    /\ count (Ascii.eqb c) post = 0%nat.
Proof.
  revert p. induction s as [|a r IH]; intros p; simpl; [discriminate|].
  destruct (AiService.upToLast c r) as [q|] eqn:Hr.
  - intros H. injection H as <-.
    destruct (IH q eq_refl) as (mid & post & -> & -> & Hc).
    exists (String a mid), post. repeat split. exact Hc.
  - destruct (Ascii.eqb_spec a c) as [->|Hac]; [|discriminate].
    intros H. injection H as <-. exists "", r. repeat split.
    clear IH. revert Hr. induction r as [|b r IHr]; simpl; [reflexivity|].
    destruct (AiService.upToLast c r); [discriminate|].
    destruct (Ascii.eqb_spec b c) as [->|Hbc]; [discriminate|].
    intros _. destruct (Ascii.eqb_spec c b); [congruence|]. now apply IHr.
Qed.

Lemma upToLast_none (c : ascii) (s : string) :
  AiService.upToLast c s = None -> count (Ascii.eqb c) s = 0%nat.
Proof.
  induction s as [|b r IH]; simpl; [reflexivity|].
  destruct (AiService.upToLast c r); [discriminate|].
  destruct (Ascii.eqb_spec b c) as [->|Hbc]; [discriminate|].
  intros _. destruct (Ascii.eqb_spec c b); [congruence|]. now apply IH.
Qed.

Lemma Match_jsonObject (json : string) :
  Match Patterns.jsonObject json
  <-> exists mid, json = String "{" (mid ++ "}")%string.
Proof.
  unfold Patterns.jsonObject. rewrite Match_Cat. split.
  - intros (a & b & -> & Ha & Hb). apply Match_Chr in Ha as ->.
    apply Match_anywhere_before in Hb as (mid & z & -> & Hz).
    apply Match_Chr in Hz as ->. exists mid. reflexivity.
  - intros (mid & ->). exists "{"%string, (mid ++ "}")%string.
    repeat split; [now apply Match_Chr|].
    apply Match_anywhere_before. exists mid, "}"%string.
    split; [reflexivity | now apply Match_Chr].
Qed.

(** X28.  [jsonMatch] finds the match of [/\{[\s\S]*\}/] that
    [String.prototype.match] returns: it starts at the first opening
    brace of the text and ends at the last closing brace; when it finds
    none, no part of the text matches. *)
Theorem jsonMatch_is_the_first_longest_match (text : string) :
  match AiService.jsonMatch text with
  | Some json =>
      exists pre post,
        text = (pre ++ json ++ post)%string
        /\ test Patterns.jsonObject json = true
        /\ count (Ascii.eqb "{") pre = 0%nat
        /\ count (Ascii.eqb "}") post = 0%nat
  | None =>
      forall pre json post,
        text = (pre ++ json ++ post)%string ->
        test Patterns.jsonObject json = false
  end.
Proof.
  induction text as [|a r IH]; simpl.
  - intros pre json post E. symmetry in E.
    apply string_app_empty in E as [_ E].
    apply string_app_empty in E as [-> _]. reflexivity.
  - destruct (Ascii.eqb_spec a "{") as [->|Ha].
    + destruct (AiService.upToLast "}" r) as [p|] eqn:Hp.
      * destruct (upToLast_some _ _ _ Hp) as (mid & post & -> & -> & Hc).
        exists "", post. repeat split.
        -- simpl. now rewrite string_app_assoc.
        -- apply test_Match, Match_jsonObject. eauto.
        -- exact Hc.
      * apply upToLast_none in Hp. intros pre json post E.
        destruct (test Patterns.jsonObject json) eqn:Ht; [|reflexivity].
        exfalso. apply test_Match, Match_jsonObject in Ht as (mid & ->).
        apply (f_equal (count (Ascii.eqb "}"))) in E.
        simpl in E. rewrite Hp in E.
        rewrite !count_app in E. simpl in E. rewrite !count_app in E.
        simpl in E. lia.
    + destruct (AiService.jsonMatch r) as [json|].
      * destruct IH as (pre & post & -> & Ht & Hpre & Hpost).
        exists (String a pre), post. repeat split; try assumption.
        cbn [count]. destruct (Ascii.eqb_spec "{" a); [congruence | exact Hpre].
      * intros pre json post E.
        destruct (test Patterns.jsonObject json) eqn:Ht; [|reflexivity].
        destruct pre as [|b pre].
        -- exfalso. apply test_Match, Match_jsonObject in Ht as (mid & ->).
           simpl in E. injection E as -> _. congruence.
        -- simpl in E. injection E as -> ->.
           rewrite <- Ht. now apply (IH pre json post).
Qed.

End JsonFacts.

Example jsonMatch_sample :
  AiService.jsonMatch "Here you are: {a: {b: 1}} and more }, bye"
  = Some "{a: {b: 1}} and more }"
  /\ AiService.jsonMatch "} no object {" = None.
Proof. split; reflexivity. Qed.

(* --------------------------------------------------------------------- *)
(** ** The rules [kyc_update] and [document_expiry] as the code has them *)
(* --------------------------------------------------------------------- *)

Section RuleForms.

Context {B : Builtins}.

Lemma firstTruthy_or2 (c : Customer) (k1 k2 : string) (d : Js.field) :
  get c k1 <||> get c k2 <||> d
  = match Spec.firstTruthy c [k1; k2] with
    | Some v => Some v
    | None => d
    end.
Proof.
  unfold Js.or_else. cbn [Spec.firstTruthy].
  destruct (Js.truthy (get c k1)) eqn:E1.
  - rewrite E1. now destruct (get c k1).
  - destruct (Js.truthy (get c k2)) eqn:E2; [|reflexivity].
    now destruct (get c k2).
Qed.

Lemma firstTruthy_or3 (c : Customer) (k1 k2 k3 : string) (d : Js.field) :
  get c k1 <||> get c k2 <||> get c k3 <||> d
  = match Spec.firstTruthy c [k1; k2; k3] with
    | Some v => Some v
    | None => d
    end.
Proof.
  unfold Js.or_else. cbn [Spec.firstTruthy].
  destruct (Js.truthy (get c k1)) eqn:E1.
  - rewrite !E1. now destruct (get c k1).
  - destruct (Js.truthy (get c k2)) eqn:E2.
    + rewrite E2. now destruct (get c k2).
    + destruct (Js.truthy (get c k3)) eqn:E3; [|reflexivity].
      now destruct (get c k3).
Qed.

Lemma firstTruthy_truthy (c : Customer) (ks : list string) (v : Js.value) :
  Spec.firstTruthy c ks = Some v -> Js.truthy (Some v) = true.
Proof.
  induction ks as [|k ks IH]; simpl; [discriminate|].
  destruct (Js.truthy (get c k)) eqn:E; [|exact IH].
  intros H. now rewrite H in E.
Qed.

(** X29.  [kyc_update] matches exactly the records without a truthy
    [EMAIL] or [email], or without a truthy [MOBILE] or [mobile], or
    whose first truthy status among [KYC_STATUS], [kyc_status] and
    [kycStatus] holds the word "expired" or the word "pending" somewhere
    in its text, in any case of the letters. *)
Theorem kyc_update_closed_form (c : Customer) :
  Customers.rule_kyc_update c = true
  <-> Spec.firstTruthy c ["EMAIL"; "email"] = None
      \/ Spec.firstTruthy c ["MOBILE"; "mobile"] = None
      \/ exists v before after,
           Spec.firstTruthy c ["KYC_STATUS"; "kyc_status"; "kycStatus"] = Some v
           /\ (Str.toLowerCase (String_ (Some v))
               = (before ++ "expired" ++ after)%string
               \/ Str.toLowerCase (String_ (Some v))
                  = (before ++ "pending" ++ after)%string).
Proof.
  unfold Customers.rule_kyc_update.
  rewrite firstTruthy_or3, !firstTruthy_or2, !orb_true_iff, !negb_true_iff.
  assert (Hmissing : forall ks,
            Js.truthy match Spec.firstTruthy c ks with
                      | Some v => Some v
                      | None => Some (Js.VStr "")
                      end = false
            <-> Spec.firstTruthy c ks = None).
  { intros ks. destruct (Spec.firstTruthy c ks) as [v|] eqn:E.
    - rewrite (firstTruthy_truthy _ _ _ E). split; discriminate.
    - split; reflexivity. }
  rewrite !Hmissing.
  assert (Hstatus :
    Customers.re_expired_pending
      (String_
         (match Spec.firstTruthy c ["KYC_STATUS"; "kyc_status"; "kycStatus"] with
          | Some v => Some v
          | None => Some (Js.VStr "")
          end <||> Some (Js.VStr ""))) = true
    <-> exists v before after,
          Spec.firstTruthy c ["KYC_STATUS"; "kyc_status"; "kycStatus"] = Some v
          /\ (Str.toLowerCase (String_ (Some v))
              = (before ++ "expired" ++ after)%string
              \/ Str.toLowerCase (String_ (Some v))
                 = (before ++ "pending" ++ after)%string)).
  { destruct (Spec.firstTruthy c _) as [v|] eqn:E.
    - unfold Js.or_else. rewrite (firstTruthy_truthy _ _ _ E).
      unfold Customers.re_expired_pending.
      rewrite orb_true_iff, !includes_spec. split.
      + intros [(a & b & H)|(a & b & H)]; exists v, a, b; auto.
      + intros (v' & a & b & Hv & [H|H]); injection Hv as <-; eauto.
    - split; [discriminate|]. intros (v & _ & _ & H & _). discriminate. }
  rewrite Hstatus. tauto.
Qed.

Example kyc_update_not_expired :
  Customers.rule_kyc_update (B := Node.builtins)
    [("EMAIL", Js.VStr "a@b.in"); ("MOBILE", Js.VStr "9876543210");
     ("KYC_STATUS", Js.VStr "Not expired")] = true.
Proof. reflexivity. Qed.

Lemma leb_num_or_9999 (n : Js.num) :
  Js.leb (Js.num_or n (Js.int 9999)) (Js.int 60)
  = Js.num_truthy n && Js.leb n (Js.int 60).
Proof.
  unfold Js.num_or. destruct (Js.num_truthy n); [reflexivity|].
  reflexivity.
Qed.

(** X30.  [document_expiry] matches exactly the records whose status
    reads "expiring" or "expired", or whose first truthy value among
    [DOC_EXPIRY_DAYS], [doc_expiry_days] and [docExpiryDays] parses to
    an integer other than zero that is at most 60: zero days and a text
    that is no number never match by themselves, a negative number
    does. *)
Theorem document_expiry_closed_form (c : Customer) :
  Customers.rule_document_expiry c = true
  <-> Customers.documentStatus c = "expiring"
      \/ Customers.documentStatus c = "expired"
      \/ exists v,
           Spec.firstTruthy c
             ["DOC_EXPIRY_DAYS"; "doc_expiry_days"; "docExpiryDays"] = Some v
           /\ Js.num_truthy (parseInt (Some v)) = true
           /\ Js.leb (parseInt (Some v)) (Js.int 60) = true.
Proof.
  unfold Customers.rule_document_expiry, Customers.documentDays.
  rewrite firstTruthy_or3, leb_num_or_9999.
  rewrite !orb_true_iff, !String.eqb_eq, andb_true_iff.
  destruct (Spec.firstTruthy c _) as [v|] eqn:E.
  - split.
    + intros [[H|H]|H]; auto. right. right. exists v. tauto.
    + intros [H|[H|(v' & Hv & H)]]; auto. injection Hv as <-. now right.
  - split.
    + intros [[H|H]|[H1 H2]]; auto. discriminate.
    + intros [H|[H|(v' & Hv & _)]]; auto. discriminate.
Qed.

End RuleForms.

(* --------------------------------------------------------------------- *)
(** ** The properties above on the sample data *)
(* --------------------------------------------------------------------- *)

Lemma generate_route_files_under_account_numbers_witness :
  exists reply w',
    Routes.generateRoute String.length Scenario.rendererFailsForSita
      Sample.pdfDownOnce Scenario.letterBody 0%nat = (Ok200 reply, w')
    /\ (exists rendered : list bool,
          length rendered = length (LetterValidation.customers Scenario.letterBody)
          /\ map Letters.customerId (Letters.letters reply)
             = map (fun c => get c "ACCOUNT_NO")
                 (map fst (filter snd
                             (combine (LetterValidation.customers
                                         Scenario.letterBody) rendered)))
          /\ map Letters.customerName (Letters.letters reply)
             = map (fun c => get c "NAME")
                 (map fst (filter snd
                             (combine (LetterValidation.customers
                                         Scenario.letterBody) rendered)))
          /\ map Letters.customer (Letters.errorList (Letters.errors reply))
             = map (fun c => get c "ACCOUNT_NO")
                 (map fst (filter (fun p => negb (snd p))
                             (combine (LetterValidation.customers
                                         Scenario.letterBody) rendered))))
    /\ Forall (fun r => requiredString (Letters.customerId r) = true)
         (Letters.letters reply)
    /\ Forall (fun e => requiredString (Letters.customer e) = true)
         (Letters.errorList (Letters.errors reply)).
Proof.
  eexists. eexists. split; [reflexivity|].
  eapply (generate_route_files_under_account_numbers String.length
           Scenario.rendererFailsForSita Sample.pdfDownOnce
           Scenario.letterBody 0%nat).
  reflexivity.
Defined.

Lemma analyze_scores_at_most_100_witness :
  Customers.analyzeHandler (B := Node.builtins) Sample.scoringTwo true
    Sample.newYear2025 Sample.kycRequest 0%nat
  = Customers.analyzeHandler (B := Node.builtins) Scenario.scoringUpTo100 true
      Sample.newYear2025 Sample.kycRequest 0%nat.
Proof.
  apply (analyze_scores_at_most_100 (B := Node.builtins) true
           Sample.newYear2025 Sample.scoringTwo Scenario.scoringUpTo100
           Sample.kycRequest 0%nat).
  intros cs t w0 H. unfold Scenario.scoringUpTo100.
  destruct (Nat.leb_spec (length cs) 100); [reflexivity | lia].
Defined.

Lemma analyze_ignores_confidenceThreshold_witness :
  Customers.analyzeRoute (B := Node.builtins) Sample.scoringTwo true
    Sample.newYear2025 (Scenario.kycAbove (Some (Js.int 1))) 0%nat
  = Customers.analyzeRoute (B := Node.builtins) Sample.scoringTwo true
      Sample.newYear2025 (Scenario.kycAbove (Some (Js.int 0))) 0%nat.
Proof.
  apply (analyze_ignores_confidenceThreshold (B := Node.builtins) true
           Sample.newYear2025 Sample.scoringTwo
           [Sample.amit; Sample.sita; Sample.ramesh] "kyc_update"
           Sample.aiOptions (Some (Js.int 1)) (Some (Js.int 0)) 0%nat);
    reflexivity.
Defined.

Lemma analyze_empty_analysis_keeps_every_match_witness :
  exists result,
    Customers.analyzeHandler (B := Node.builtins) Scenario.scoringNothing true
      Sample.newYear2025 Sample.kycRequest 0%nat = (Ok200 result, 1%nat)
    /\ Customers.finalMatches result = Customers.ruleBasedMatches result
    /\ Customers.ruleBasedMatches result
       = length (Customers.ruleFilteredOf (B := Node.builtins)
                   Sample.newYear2025 Sample.kycRequest)
    /\ Forall (fun c =>
                 get c "aiConfidence" = Some (Js.VNum lit_0_8)
                 /\ get c "aiPriority" = Some (Js.VStr "medium")
                 /\ get c "aiReason" = Some (Js.VStr "Rule-based match"))
         (Customers.matched result).
Proof.
  apply (analyze_empty_analysis_keeps_every_match (B := Node.builtins) true
           Sample.newYear2025 Scenario.scoringNothing Sample.kycRequest
           0%nat 1%nat None).
  - reflexivity.
  - reflexivity.
  - reflexivity.
  - repeat constructor.
Defined.

(** A negative batch size is answered 400 by the validation; without it
    the handler would not reply. *)
Example bulk_send_negative_batch_size :
  Routes.bulkSendRoute String.length Scenario.addressCheck
    Sample.mailerDownOnce Sample.noDelay (Scenario.emailBody (-2)) 0%nat
  = Some (ValidationFailed400 "options", 0%nat)
  /\ BulkEmail.bulkSendHandler Sample.mailerDownOnce Sample.noDelay
       {| Email.customers := [Sample.amit; Sample.sita; Sample.ramesh];
          Email.subject := "";
          Email.content := "Please update your KYC documents.";
          Email.issueType := "kyc_update";
          Email.options :=
            {| Email.delayMs := None; Email.batchSize := Some (-2) |} |}
       None 0%nat = None.
Proof. split; reflexivity. Qed.

Example bulk_send_in_batches_of_two :
  Routes.bulkSendRoute String.length Scenario.addressCheck
    Sample.mailerDownOnce Sample.noDelay (Scenario.emailBody 2) 0%nat
  = Some (Ok200 Scenario.bulkReply, 3%nat).
Proof. reflexivity. Qed.
